(** * Power distributor and timeseries resampler of the frequenz SDK

    A shallow embedding of
    - [frequenz/sdk/actor/power_distributing/power_distributing.py]
      (the [PowerDistributingActor]) and
    - [frequenz/sdk/timeseries/_resampling.py]
      (the [Resampler] with its helpers),
    followed by the properties that the specification states about them
    and by further properties of the code.

    Conventions of the embedding.
    - A Python [float] is a [pyfloat]: either [NaN] or an exact rational.
      Rounding and the infinities are not modelled.
    - [datetime] and [timedelta] are exact rational seconds.
    - Python [set]s and [dict]s are stdpp's [gset] and [gmap]; iterating
      them goes through [elements] and [map_to_list].
    - A function that can raise returns a [res]; the exceptions are the
      ones the modules raise or let through.
    - Log calls are dropped: they influence no value. *)

From Stdlib Require Import QArith Qround Qminmax Qabs ZArith List Lia Bool String.
From stdpp Require Import base option list gmap sets.
Import ListNotations.

Local Open Scope Z_scope.

(* ===================================================================== *)
(** * Part I: definitions                                                 *)
(* ===================================================================== *)

(** ** Python floats *)

Module PyFloat.

Inductive pyfloat : Type :=
| NaN
| Fin (q : Q).

Definition isnan (x : pyfloat) : bool :=
  match x with NaN => true | Fin _ => false end.

Definition fadd (x y : pyfloat) : pyfloat :=
  match x, y with
  | Fin a, Fin b => Fin (a + b)
  | _, _ => NaN
  end.

Definition fsub (x y : pyfloat) : pyfloat :=
  match x, y with
  | Fin a, Fin b => Fin (a - b)
  | _, _ => NaN
  end.

(** [x < y] and [x <= y]; every comparison with [NaN] is false. *)
Definition flt (x y : pyfloat) : bool :=
  match x, y with
  | Fin a, Fin b => negb (Qle_bool b a)
  | _, _ => false
  end.

Definition fle (x y : pyfloat) : bool :=
  match x, y with
  | Fin a, Fin b => Qle_bool a b
  | _, _ => false
  end.

(** The builtins [max(a, b)] and [min(a, b)]: the first argument is kept
    unless the second one is strictly better. *)
Definition py_max (a b : pyfloat) : pyfloat := if flt a b then b else a.
Definition py_min (a b : pyfloat) : pyfloat := if flt b a then b else a.

(** The builtin [sum(xs)]: a left fold that starts from [0]. *)
Definition py_sum (xs : list pyfloat) : pyfloat :=
  fold_left fadd xs (Fin 0).

(** Numeric equality ([==] on floats; [NaN] equals nothing). *)
Definition feq (x y : pyfloat) : Prop :=
  match x, y with
  | Fin a, Fin b => (a == b)%Q
  | _, _ => False
  end.

Definition is_num (x : pyfloat) : Prop := x <> NaN.

(** The rational behind a float ([0] for [NaN], which the statements
    below exclude by hypothesis). *)
Definition fval (x : pyfloat) : Q :=
  match x with Fin q => q | NaN => 0%Q end.

(** Modelled from the spec: [_internal._math.is_close_to_zero], which is
    not among the sources.  The spec writes [r.power ≈ 0]; the helper is
    an absolute-tolerance test around zero, with tolerance [1e-9]. *)
Definition abs_tol : Q := 1 # 1000000000.

Definition is_close_to_zero (value : pyfloat) : bool :=
  match value with
  | Fin v => Qle_bool (Qabs v) abs_tol
  | NaN => false
  end.

End PyFloat.

Export PyFloat.

(** ** Exceptions and results *)

Module Exceptions.

(** What an error message is built from; the f-strings themselves are not
    reproduced. *)
Inductive ErrorMsg : Type :=
| msg_key (key : Z)
    (* a failed [dict] lookup: [str(KeyError(key))] *)
| msg_no_battery (battery_id : Z) (available : list Z)
    (* "No battery {id}, available batteries: {...}" *)
| msg_not_requested (inverters extra_batteries : gset Z)
    (* "Inverters {...} are connected to batteries that were not
       requested: {...}" *)
| msg_no_data (batteries : gset Z)
    (* "No data for at least one of the given batteries {...}" *)
| msg_empty_ids
    (* "Empty battery IDs in the request" *)
| msg_distribute (err : string).
    (* "Couldn't distribute power, error: {err}" *)

Inductive Exn : Type :=
| KeyError (m : ErrorMsg)
| ValueError (m : string)
| AssertionError
| StopIteration
| ZeroDivisionError
| CancelledError
| SourceStoppedError (source : Z)
| RuntimeError (m : string).

Inductive res (A : Type) : Type :=
| Ok (a : A)
| Raise (e : Exn).
Arguments Ok {A} a.
Arguments Raise {A} e.

Definition bind {A B : Type} (c : res A) (k : A -> res B) : res B :=
  match c with
  | Ok a => k a
  | Raise e => Raise e
  end.

(** [[f(x) for x in xs]] where [f] may raise: the first failure wins. *)
Fixpoint for_each {A B : Type} (f : A -> res B) (xs : list A) : res (list B) :=
  match xs with
  | [] => Ok []
  | x :: xs' =>
      bind (f x) (fun y => bind (for_each f xs') (fun ys => Ok (y :: ys)))
  end.

(** [source[key]] on a [dict]. *)
Definition getitem {V : Type} (source : gmap Z V) (key : Z) : res V :=
  match source !! key with
  | Some v => Ok v
  | None => Raise (KeyError (msg_key key))
  end.

End Exceptions.

Export Exceptions.

Notation "'do' x <- c ; k" := (bind c (fun x => k))
  (at level 10, x name, c at level 100, k at level 200).
Notation "'do' ' p <- c ; k" := (bind c (fun p => k))
  (at level 10, p pattern, c at level 100, k at level 200).

(** ** The power distributing actor *)

Module PowerDistributing.

(** *** Data

    Modelled from the spec: [PowerBounds], [Request] and the [Result]
    variants ([result.py], [request.py]), [BatteryData] and [InverterData]
    (the microgrid client), [InvBatPair], [AggregatedBatteryData] and
    [DistributionResult] ([_distribution_algorithm.py]) are declared in
    files that are not among the sources.  The records have the shape the
    specification gives them and the fields the actor reads or writes. *)

Record PowerBounds : Type := {
  inclusion_lower : pyfloat;
  exclusion_lower : pyfloat;
  exclusion_upper : pyfloat;
  inclusion_upper : pyfloat
}.

Record BatteryData : Type := {
  bat_component_id : Z;
  soc : pyfloat;
  soc_lower_bound : pyfloat;
  soc_upper_bound : pyfloat;
  capacity : pyfloat;
  power_inclusion_lower_bound : pyfloat;
  power_exclusion_lower_bound : pyfloat;
  power_exclusion_upper_bound : pyfloat;
  power_inclusion_upper_bound : pyfloat
}.

Record InverterData : Type := {
  inv_component_id : Z;
  active_power_inclusion_lower_bound : pyfloat;
  active_power_exclusion_lower_bound : pyfloat;
  active_power_exclusion_upper_bound : pyfloat;
  active_power_inclusion_upper_bound : pyfloat
}.

Record AggregatedBatteryData : Type := {
  component_id : Z;
  power_bounds : PowerBounds
}.

Record InvBatPair : Type := {
  battery : AggregatedBatteryData;
  inverter : list InverterData
}.

Record Request : Type := {
  power : pyfloat;
  batteries : gset Z;
  request_timeout : Q;
  adjust_power : bool
}.

Inductive Result : Type :=
| Error (request : Request) (msg : ErrorMsg)
| OutOfBounds (request : Request) (bounds : PowerBounds)
| Success (request : Request) (succeeded_power : pyfloat)
    (succeeded_batteries : gset Z) (excess_power : pyfloat)
| PartialFailure (request : Request) (succeeded_power : pyfloat)
    (succeeded_batteries : gset Z) (failed_power : pyfloat)
    (failed_batteries : gset Z) (excess_power : pyfloat).

Definition result_request (r : Result) : Request :=
  match r with
  | Error q _ | OutOfBounds q _ | Success q _ _ _
  | PartialFailure q _ _ _ _ _ => q
  end.

Record DistributionResult : Type := {
  distribution : gmap Z pyfloat;
  remaining_power : pyfloat
}.

(** How one [set_power] task ended once [asyncio.wait] returned and the
    pending tasks were cancelled: it returned, it raised a
    [grpc.aio.AioRpcError] (with status [OUT_OF_RANGE] or another one),
    or it was cancelled at the timeout. *)
Inductive TaskOutcome : Type :=
| task_returned
| task_rpc_error (out_of_range : bool)
| task_cancelled.

(** *** The actor and its collaborators

    The three topology maps and the two tables of peekable receivers are
    the actor's attributes.  A receiver is modelled by what [peek()]
    returns: [None] before the first message.  The collaborators that the
    actor only calls are fields as well. *)
Record Actor : Type := {
  _bat_invs_map : gmap Z (gset Z);
  _inv_bats_map : gmap Z (gset Z);
  _bat_bats_map : gmap Z (gset Z);
  _battery_receivers : gmap Z (option BatteryData);
  _inverter_receivers : gmap Z (option InverterData);
  (** Modelled from the spec: the health tracker ([BatteryPoolStatus]) is
      not among the sources; [working] is the set of batteries it
      currently considers working. *)
  working : gset Z;
  (** [DistributionAlgorithm.distribute_power], not among the sources. *)
  distribute_power : pyfloat -> list InvBatPair -> res DistributionResult;
  (** What became of [api.set_power(inverter_id, power)]. *)
  set_power : Z -> pyfloat -> TaskOutcome
}.

(** Modelled from the spec: [BatteryPoolStatus.get_working_batteries]
    returns the batteries of the given set that are considered working. *)
Definition get_working_batteries (self : Actor) (batteries : gset Z)
  : gset Z :=
  batteries ∩ working self.

(** Modelled from the spec: [AggregatedBatteryData(batteries)] is the
    componentwise sum of the bounds of the batteries that share
    inverters.  It is identified by its first member. *)
Definition aggregated_battery_data (batteries : list BatteryData)
  : AggregatedBatteryData :=
  {| component_id :=
       match batteries with
       | b :: _ => bat_component_id b
       | [] => 0
       end;
     power_bounds :=
       {| inclusion_lower :=
            py_sum (map power_inclusion_lower_bound batteries);
          exclusion_lower :=
            py_sum (map power_exclusion_lower_bound batteries);
          exclusion_upper :=
            py_sum (map power_exclusion_upper_bound batteries);
          inclusion_upper :=
            py_sum (map power_inclusion_upper_bound batteries) |} |}.

(** *** [_get_battery_inverter_mappings]

    Modelled from the spec: the component graph is declared outside the
    sources; it gives the predecessors and the successors of a component,
    each with its identifier and its category. *)
Inductive ComponentCategory : Type :=
| BATTERY
| INVERTER
| OTHER.

Record Component : Type := {
  graph_component_id : Z;
  category : ComponentCategory
}.

Record ComponentGraph : Type := {
  predecessors : Z -> list Component;
  successors : Z -> list Component
}.

Definition is_inverter (c : Component) : bool :=
  match category c with INVERTER => true | _ => false end.

(** The four maps; the three optional ones are [None] when their flag is
    off. *)
Record Mappings : Type := {
  bat_invs : gmap Z (gset Z);
  inv_bats : option (gmap Z (gset Z));
  bat_bats : option (gmap Z (gset Z));
  inv_invs : option (gmap Z (gset Z))
}.

(** [d.setdefault(key, set()).update(more)] and
    [d.setdefault(key, set()).add(x)]. *)
Definition setdefault_update (d : gmap Z (gset Z)) (key : Z) (more : gset Z)
  : gmap Z (gset Z) :=
  <[ key := default ∅ (d !! key) ∪ more ]> d.

(** The body of the loop over the batteries. *)
Definition map_battery (component_graph : ComponentGraph) (maps : Mappings)
    (battery_id : Z) : Mappings :=
  let inverters : gset Z :=
    list_to_set
      (map graph_component_id
         (List.filter is_inverter (predecessors component_graph battery_id)))
  in
  if Nat.eqb (size inverters) 0 then maps
  else
    let bat_invs_map := <[ battery_id := inverters ]> (bat_invs maps) in
    let bat_bats_map :=
      option_map
        (fun d =>
           setdefault_update d battery_id
             (list_to_set
                (flat_map
                   (fun inverter =>
                      map graph_component_id
                        (successors component_graph inverter))
                   (elements inverters))))
        (bat_bats maps) in
    let per_inverter :=
      fold_left
        (fun (acc : option (gmap Z (gset Z)) * option (gmap Z (gset Z)))
             inverter =>
           (option_map
              (fun d => setdefault_update d inverter {[ battery_id ]})
              (fst acc),
            option_map
              (fun d => setdefault_update d inverter (dom bat_invs_map))
              (snd acc)))
        (elements inverters) (inv_bats maps, inv_invs maps) in
    {| bat_invs := bat_invs_map;
       inv_bats := fst per_inverter;
       bat_bats := bat_bats_map;
       inv_invs := snd per_inverter |}.

Definition _get_battery_inverter_mappings (component_graph : ComponentGraph)
    (batteries : list Z) (with_inv_bats with_bat_bats with_inv_invs : bool)
  : Mappings :=
  fold_left (map_battery component_graph) batteries
    {| bat_invs := ∅;
       inv_bats := if with_inv_bats then Some ∅ else None;
       bat_bats := if with_bat_bats then Some ∅ else None;
       inv_invs := if with_inv_invs then Some ∅ else None |}.

(** The inverters that the loop finds for a battery: the predecessors of
    the battery in the graph that are inverters. *)
Definition inverters_of (component_graph : ComponentGraph) (battery_id : Z)
  : gset Z :=
  list_to_set
    (map graph_component_id
       (List.filter is_inverter (predecessors component_graph battery_id))).

(** The relation that a [dict] of sets stands for: [v] is in the set of
    the key [k]. *)
Definition mapped_to (d : gmap Z (gset Z)) (k v : Z) : Prop :=
  exists s, d !! k = Some s /\ v ∈ s.

(** What the loop of [_get_battery_inverter_mappings] maintains when all
    maps are requested. *)
Definition mappings_ok (maps : Mappings) : Prop :=
  exists inv_bats_map bat_bats_map,
    inv_bats maps = Some inv_bats_map
    /\ bat_bats maps = Some bat_bats_map
    /\ dom bat_bats_map = dom (bat_invs maps)
    /\ map_Forall (fun _ s => s <> ∅) (bat_invs maps)
    /\ map_Forall (fun b s => b ∈ s) bat_bats_map.

(** *** [PowerDistributingActor._create_channels]

    [latest_battery] and [latest_inverter] stand for what the peekable
    receivers of the streams hold at the moment. *)
Definition _create_channels (bat_invs_map : gmap Z (gset Z))
    (latest_battery : Z -> option BatteryData)
    (latest_inverter : Z -> option InverterData)
  : gmap Z (option BatteryData) * gmap Z (option InverterData) :=
  fold_left
    (fun receivers kv =>
       (<[ fst kv := latest_battery (fst kv) ]> (fst receivers),
        fold_left
          (fun inverter_receivers inverter_id =>
             <[ inverter_id := latest_inverter inverter_id ]>
               inverter_receivers)
          (elements (snd kv)) (snd receivers)))
    (map_to_list bat_invs_map) (∅, ∅).

(** *** [PowerDistributingActor.__init__], followed by [_create_channels]

    [batteries] are the identifiers of the graph's components of category
    [BATTERY]; the maps are requested with all flags on. *)
Definition __init__ (component_graph : ComponentGraph) (batteries : list Z)
    (latest_battery : Z -> option BatteryData)
    (latest_inverter : Z -> option InverterData)
    (working : gset Z)
    (distribute_power : pyfloat -> list InvBatPair -> res DistributionResult)
    (set_power : Z -> pyfloat -> TaskOutcome) : Actor :=
  let maps :=
    _get_battery_inverter_mappings component_graph batteries true true true in
  let receivers :=
    _create_channels (bat_invs maps) latest_battery latest_inverter in
  {| _bat_invs_map := bat_invs maps;
     _inv_bats_map := default ∅ (inv_bats maps);
     _bat_bats_map := default ∅ (bat_bats maps);
     _battery_receivers := fst receivers;
     _inverter_receivers := snd receivers;
     working := working;
     distribute_power := distribute_power;
     set_power := set_power |}.

(** *** [_get_all_from_map] *)
Definition _get_all_from_map (source : gmap Z (gset Z)) (keys : gset Z)
  : res (gset Z) :=
  do values <- for_each (getitem source) (elements keys);
  Ok (⋃ values).

(** *** [PowerDistributingActor._get_bounds] *)
Definition _get_bounds (pairs_data : list InvBatPair) : PowerBounds :=
  {| inclusion_lower :=
       py_sum
         (map (fun p =>
                 py_max
                   (inclusion_lower (power_bounds (battery p)))
                   (py_sum (map active_power_inclusion_lower_bound
                              (inverter p))))
            pairs_data);
     inclusion_upper :=
       py_sum
         (map (fun p =>
                 py_min
                   (inclusion_upper (power_bounds (battery p)))
                   (py_sum (map active_power_inclusion_upper_bound
                              (inverter p))))
            pairs_data);
     exclusion_lower :=
       py_min
         (py_sum (map (fun p => exclusion_lower (power_bounds (battery p)))
                    pairs_data))
         (py_sum (map active_power_exclusion_lower_bound
                    (flat_map inverter pairs_data)));
     exclusion_upper :=
       py_max
         (py_sum (map (fun p => exclusion_upper (power_bounds (battery p)))
                    pairs_data))
         (py_sum (map active_power_exclusion_upper_bound
                    (flat_map inverter pairs_data))) |}.


(** *** [PowerDistributingActor._get_battery_inverter_data] *)

Definition is_some {A : Type} (o : option A) : bool :=
  match o with Some _ => true | None => false end.

Definition metric_is_nan {D : Type} (data : D) (metrics : list (D -> pyfloat))
  : bool :=
  existsb (fun metric => isnan (metric data)) metrics.

Definition nan_metric_in_list {D : Type} (data : list D)
    (metrics : list (D -> pyfloat)) : bool :=
  existsb (fun datum => metric_is_nan datum metrics) data.

Definition crucial_metrics_bat : list (BatteryData -> pyfloat) :=
  [ soc; soc_lower_bound; soc_upper_bound; capacity;
    power_inclusion_lower_bound; power_inclusion_upper_bound ].

Definition crucial_metrics_inv : list (InverterData -> pyfloat) :=
  [ active_power_inclusion_lower_bound;
    active_power_inclusion_upper_bound ].

Definition _get_battery_inverter_data (self : Actor)
    (battery_ids inverter_ids : gset Z) : res (option InvBatPair) :=
  do battery_data_none <-
    for_each (getitem (_battery_receivers self)) (elements battery_ids);
  do inverter_data_none <-
    for_each (getitem (_inverter_receivers self)) (elements inverter_ids);
  if negb (forallb is_some battery_data_none)
     || negb (forallb is_some inverter_data_none)
  then Ok None
  else
    let battery_data := omap id battery_data_none in
    let inverter_data := omap id inverter_data_none in
    if nan_metric_in_list battery_data crucial_metrics_bat then Ok None
    else if nan_metric_in_list inverter_data crucial_metrics_inv then Ok None
    else Ok (Some {| battery := aggregated_battery_data battery_data;
                     inverter := inverter_data |}).

(** *** [PowerDistributingActor._get_components_data] *)

(** [key in d] and [list(d.keys())]. *)
Definition contains {V : Type} (d : gmap Z V) (key : Z) : bool :=
  is_some (d !! key).

Definition keys {V : Type} (d : gmap Z V) : list Z :=
  map fst (map_to_list d).

(** The body of the loop over [battery_sets]: [Ok None] is [continue]. *)
Definition pair_of_battery_set (self : Actor) (battery_ids : gset Z)
  : res (option InvBatPair) :=
  do first <-
    match elements battery_ids with
    | b :: _ => Ok b
    | [] => Raise StopIteration
    end;
  do inverter_ids <- getitem (_bat_invs_map self) first;
  do data <- _get_battery_inverter_data self battery_ids inverter_ids;
  match data with
  | None => Ok None
  | Some d =>
      if Nat.ltb 0 (length (inverter d)) then Ok (Some d)
      else Raise AssertionError
  end.

Definition _get_components_data (self : Actor) (batteries : gset Z)
  : res (list InvBatPair) :=
  let working_batteries := get_working_batteries self batteries in
  do _ <-
    for_each
      (fun battery_id =>
         if contains (_battery_receivers self) battery_id then Ok tt
         else Raise (KeyError (msg_no_battery battery_id
                                 (keys (_battery_receivers self)))))
      (elements working_batteries);
  do connected_inverters <- _get_all_from_map (_bat_invs_map self) batteries;
  do batteries_from_inverters <-
    _get_all_from_map (_inv_bats_map self) connected_inverters;
  if bool_decide (batteries_from_inverters <> batteries) then
    let extra_batteries := batteries_from_inverters ∖ batteries in
    do inverters <- _get_all_from_map (_bat_invs_map self) extra_batteries;
    Raise (KeyError (msg_not_requested inverters extra_batteries))
  else
    do battery_sets_of <-
      for_each (getitem (_bat_bats_map self)) (elements working_batteries);
    let battery_sets : gset (gset Z) := list_to_set battery_sets_of in
    do data <- for_each (pair_of_battery_set self) (elements battery_sets);
    Ok (omap id data).

(** *** [PowerDistributingActor._check_request] *)
Definition _check_request (self : Actor) (request : Request)
    (pairs_data : list InvBatPair) : option Result :=
  if bool_decide (batteries request = ∅) then
    Some (Error request msg_empty_ids)
  else
    match
      List.find (fun battery => negb (contains (_battery_receivers self) battery))
        (elements (batteries request))
    with
    | Some battery =>
        Some (Error request
                (msg_no_battery battery (keys (_battery_receivers self))))
    | None =>
        let bounds := _get_bounds pairs_data in
        let power := power request in
        if is_close_to_zero power then None
        else if adjust_power request then
          if flt (exclusion_lower bounds) power
             && flt power (exclusion_upper bounds)
          then Some (OutOfBounds request bounds)
          else None
        else
          let in_lower_range :=
            fle (inclusion_lower bounds) power
            && fle power (exclusion_lower bounds) in
          let in_upper_range :=
            fle (exclusion_upper bounds) power
            && fle power (inclusion_upper bounds) in
          if negb (in_lower_range || in_upper_range)
          then Some (OutOfBounds request bounds)
          else None
    end.

(** *** [PowerDistributingActor._get_power_distribution]

    The unavailable inverters are computed and then not used; the lookups
    that compute them can still raise. *)
Definition _get_power_distribution (self : Actor) (request : Request)
    (inv_bat_pairs : list InvBatPair) : res DistributionResult :=
  do available_bat_ids <-
    _get_all_from_map (_bat_bats_map self)
      (list_to_set (map (fun pair => component_id (battery pair))
                      inv_bat_pairs));
  let unavailable_bat_ids := batteries request ∖ available_bat_ids in
  do unavailable_inv_ids <-
    for_each (getitem (_bat_invs_map self)) (elements unavailable_bat_ids);
  distribute_power self (power request) inv_bat_pairs.

(** *** [PowerDistributingActor._parse_result] *)
Fixpoint _parse_result (self : Actor) (tasks : list (Z * TaskOutcome))
    (distribution : gmap Z pyfloat)
    (failed_power : pyfloat) (failed_batteries : gset Z)
  : res (pyfloat * gset Z) :=
  match tasks with
  | [] => Ok (failed_power, failed_batteries)
  | (inverter_id, aws) :: tasks' =>
      do battery_ids <- getitem (_inv_bats_map self) inverter_id;
      match aws with
      | task_returned =>
          _parse_result self tasks' distribution failed_power
            failed_batteries
      | task_rpc_error _ | task_cancelled =>
          do dist <- getitem distribution inverter_id;
          _parse_result self tasks' distribution (fadd failed_power dist)
            (failed_batteries ∪ battery_ids)
      end
  end.

(** *** [PowerDistributingActor._set_distributed_power]

    [asyncio.wait] refuses an empty collection of tasks with a
    [ValueError]. *)
Definition _set_distributed_power (self : Actor)
    (distribution : DistributionResult) : res (pyfloat * gset Z) :=
  let tasks :=
    map (fun '(inverter_id, power) =>
           (inverter_id, set_power self inverter_id power))
      (map_to_list (PowerDistributing.distribution distribution)) in
  match tasks with
  | [] => Raise (ValueError "Set of Tasks/Futures is empty.")
  | _ =>
      _parse_result self tasks (PowerDistributing.distribution distribution)
        (Fin 0) ∅
  end.

(** *** [PowerDistributingActor._run]

    What one pass through the loop does to the outside, in order. *)
Inductive Effect : Type :=
| send_awaited (r : Result)
    (* [await self._result_sender.send(r)] *)
| set_power_awaited (commands : list (Z * pyfloat)) (timeout : Q)
    (* the fan-out of [set_power] calls, awaited with the timeout *)
| gather_not_awaited (succeeded failed : gset Z) (r : Result).
    (* [asyncio.gather(update_status(succeeded, failed), send(r))]: the
       two coroutines are scheduled, the statement does not wait *)

(** The dictionary [battery_distribution] built from the distribution. *)
Fixpoint battery_distribution_of (self : Actor) (items : list (Z * pyfloat))
    (battery_distribution : gmap Z pyfloat) : res (gmap Z pyfloat) :=
  match items with
  | [] => Ok battery_distribution
  | (inverter_id, dist) :: items' =>
      do battery_ids <- getitem (_inv_bats_map self) inverter_id;
      battery_distribution_of self items'
        (fold_left
           (fun acc battery_id =>
              <[ battery_id := fadd (default (Fin 0) (acc !! battery_id)) dist ]>
                acc)
           (elements battery_ids) battery_distribution)
  end.

(** The body of [async for request in self._requests_receiver]. *)
Definition _run_request (self : Actor) (request : Request)
  : res (list Effect) :=
  match _get_components_data self (batteries request) with
  | Raise (KeyError err) => Ok [send_awaited (Error request err)]
  | Raise e => Raise e
  | Ok pairs_data =>
      match pairs_data with
      | [] =>
          Ok [send_awaited
                (Error request (msg_no_data (batteries request)))]
      | _ =>
          match _check_request self request pairs_data with
          | Some error => Ok [send_awaited error]
          | None =>
              match _get_power_distribution self request pairs_data with
              | Raise (ValueError err) =>
                  Ok [send_awaited (Error request (msg_distribute err))]
              | Raise e => Raise e
              | Ok distribution =>
                  let distributed_power_value :=
                    fsub (power request) (remaining_power distribution) in
                  do battery_distribution <-
                    battery_distribution_of self
                      (map_to_list
                         (PowerDistributing.distribution distribution)) ∅;
                  do '(failed_power, failed_batteries) <-
                    _set_distributed_power self distribution;
                  let commands :=
                    map_to_list
                      (PowerDistributing.distribution distribution) in
                  if Nat.ltb 0 (size failed_batteries) then
                    let succeed_batteries :=
                      dom battery_distribution ∖ failed_batteries in
                    Ok [ set_power_awaited commands
                           (request_timeout request);
                         gather_not_awaited succeed_batteries
                           failed_batteries
                           (PartialFailure request
                              (fsub distributed_power_value failed_power)
                              succeed_batteries failed_power
                              failed_batteries
                              (remaining_power distribution)) ]
                  else
                    let succeed_batteries := dom battery_distribution in
                    Ok [ set_power_awaited commands
                           (request_timeout request);
                         gather_not_awaited succeed_batteries
                           failed_batteries
                           (Success request distributed_power_value
                              succeed_batteries
                              (remaining_power distribution)) ]
              end
          end
      end
  end.

(** The loop.  Every request comes with the actor as it is when the
    request is taken from the receiver: caches, health tracker and
    devices change between requests.  The loop ends with the receiver, or
    with the first exception that the body lets through. *)
Fixpoint _run (requests : list (Actor * Request))
  : list Effect * option Exn :=
  match requests with
  | [] => ([], None)
  | (self, request) :: requests' =>
      match _run_request self request with
      | Raise e => ([], Some e)
      | Ok effects =>
          let '(effects', e) := _run requests' in
          (effects ++ effects', e)
      end
  end.

(** The results handed to the result sender, and those among them whose
    [send] the loop waits for. *)
Definition sent_results (effects : list Effect) : list Result :=
  flat_map
    (fun e =>
       match e with
       | send_awaited r | gather_not_awaited _ _ r => [r]
       | set_power_awaited _ _ => []
       end)
    effects.

Definition awaited_results (effects : list Effect) : list Result :=
  flat_map
    (fun e =>
       match e with
       | send_awaited r => [r]
       | _ => []
       end)
    effects.

(** *** What the specification says about the aggregate bounds

    Sums and extrema over the rationals, used to state the properties of
    [_get_bounds] on data without [NaN]. *)
Definition Qsum (xs : list Q) : Q := fold_right Qplus 0%Q xs.

Definition Qmin_list (xs : list Q) : Q :=
  match xs with
  | [] => 0%Q
  | x :: xs' => fold_right Qmin x xs'
  end.

Definition Qmax_list (xs : list Q) : Q :=
  match xs with
  | [] => 0%Q
  | x :: xs' => fold_right Qmax x xs'
  end.

Definition battery_bound (f : PowerBounds -> pyfloat) (p : InvBatPair) : Q :=
  fval (f (power_bounds (battery p))).

Definition inverters_bound (f : InverterData -> pyfloat) (p : InvBatPair)
  : Q :=
  Qsum (map (fun i => fval (f i)) (inverter p)).

Definition spec_pair_inclusion_lower (p : InvBatPair) : Q :=
  Qmax (battery_bound inclusion_lower p)
    (inverters_bound active_power_inclusion_lower_bound p).

Definition spec_pair_inclusion_upper (p : InvBatPair) : Q :=
  Qmin (battery_bound inclusion_upper p)
    (inverters_bound active_power_inclusion_upper_bound p).

Definition spec_pair_exclusion_lower (p : InvBatPair) : Q :=
  Qmin (battery_bound exclusion_lower p)
    (inverters_bound active_power_exclusion_lower_bound p).

Definition spec_pair_exclusion_upper (p : InvBatPair) : Q :=
  Qmax (battery_bound exclusion_upper p)
    (inverters_bound active_power_exclusion_upper_bound p).

(** The pool's exclusion bounds in the words of the specification: the
    extremum, over the pairs, of the pairs' own exclusion bounds. *)
Definition spec_exclusion_lower (pairs_data : list InvBatPair) : Q :=
  Qmin_list (map spec_pair_exclusion_lower pairs_data).

Definition spec_exclusion_upper (pairs_data : list InvBatPair) : Q :=
  Qmax_list (map spec_pair_exclusion_upper pairs_data).

(** The pool's exclusion bounds as [_get_bounds] forms them: the extremum
    of two totals, the batteries' and the inverters'. *)
Definition total_exclusion_lower (pairs_data : list InvBatPair) : Q :=
  Qmin (Qsum (map (battery_bound exclusion_lower) pairs_data))
    (Qsum (map (fun i => fval (active_power_exclusion_lower_bound i))
             (flat_map inverter pairs_data))).

Definition total_exclusion_upper (pairs_data : list InvBatPair) : Q :=
  Qmax (Qsum (map (battery_bound exclusion_upper) pairs_data))
    (Qsum (map (fun i => fval (active_power_exclusion_upper_bound i))
             (flat_map inverter pairs_data))).

(** No bound of the pair is [NaN]. *)
Definition numeric_bounds (b : PowerBounds) : bool :=
  negb (isnan (inclusion_lower b)) && negb (isnan (exclusion_lower b))
  && negb (isnan (exclusion_upper b)) && negb (isnan (inclusion_upper b)).

Definition numeric_inverter (i : InverterData) : bool :=
  negb (isnan (active_power_inclusion_lower_bound i))
  && negb (isnan (active_power_exclusion_lower_bound i))
  && negb (isnan (active_power_exclusion_upper_bound i))
  && negb (isnan (active_power_inclusion_upper_bound i)).

Definition numeric_pair (p : InvBatPair) : bool :=
  numeric_bounds (power_bounds (battery p))
  && forallb numeric_inverter (inverter p).

(** *** The condition under which a request is out of bounds, in the
    words of the specification *)
Definition strictly_inside_deadband (bounds : PowerBounds) (p : pyfloat)
  : bool :=
  flt (exclusion_lower bounds) p && flt p (exclusion_upper bounds).

Definition in_permitted_ranges (bounds : PowerBounds) (p : pyfloat) : bool :=
  (fle (inclusion_lower bounds) p && fle p (exclusion_lower bounds))
  || (fle (exclusion_upper bounds) p && fle p (inclusion_upper bounds)).

Definition spec_out_of_bounds (bounds : PowerBounds) (request : Request)
  : Prop :=
  is_close_to_zero (power request) = false
  /\ ((adjust_power request = true
       /\ strictly_inside_deadband bounds (power request) = true)
      \/ (adjust_power request = false
          /\ in_permitted_ranges bounds (power request) = false)).

(** *** Assumptions on the actor's surroundings

    The topology maps come from the component graph and the receivers
    from [_create_channels]; the distribution algorithm is a collaborator.
    The loop relies on the following facts about them. *)
Record well_formed (self : Actor) : Prop := {
  (* a battery with a receiver is a key of the battery-to-batteries map *)
  wf_receivers_known :
    dom (_battery_receivers self) ⊆ dom (_bat_bats_map self);
  (* every key of the battery-to-inverters map has a receiver *)
  wf_batteries_received :
    dom (_bat_invs_map self) ⊆ dom (_battery_receivers self);
  (* no battery is mapped to an empty set of batteries or inverters *)
  wf_bat_bats_nonempty :
    map_Forall (fun _ s => s <> ∅) (_bat_bats_map self);
  wf_bat_invs_nonempty :
    map_Forall (fun _ s => s <> ∅) (_bat_invs_map self);
  (* a receiver delivers the data of its own battery *)
  wf_receivers_ids :
    map_Forall
      (fun battery_id data =>
         match data with
         | Some d => bat_component_id d = battery_id
         | None => True
         end)
      (_battery_receivers self);
  (* the algorithm raises nothing but [ValueError] *)
  wf_distribute_raises :
    forall p pairs e,
      distribute_power self p pairs = Raise e -> exists m, e = ValueError m;
  (* it commands at least one inverter, and only known ones *)
  wf_distribute_keys :
    forall p pairs d,
      pairs <> [] ->
      distribute_power self p pairs = Ok d ->
      distribution d <> ∅
      /\ dom (distribution d) ⊆ dom (_inv_bats_map self)
}.

(** *** Notions used to state what a distributed request results in *)

(** The batteries of a distribution: those behind the inverters that the
    distribution commands. *)
Definition distribution_batteries (self : Actor) (d : DistributionResult)
  : gset Z :=
  ⋃ (omap (fun kv => _inv_bats_map self !! fst kv)
       (map_to_list (distribution d))).

(** The request got as far as the fan-out: [d] is the distribution and
    [failed_power], [failed_batteries] are what [_set_distributed_power]
    returned. *)
Definition distributed (self : Actor) (request : Request)
    (d : DistributionResult) (failed_power : pyfloat)
    (failed_batteries : gset Z) : Prop :=
  exists pairs_data,
    _get_components_data self (batteries request) = Ok pairs_data
    /\ pairs_data <> []
    /\ _check_request self request pairs_data = None
    /\ _get_power_distribution self request pairs_data = Ok d
    /\ _set_distributed_power self d = Ok (failed_power, failed_batteries).

(** The inverters whose [set_power] task did not return, in the order of
    the tasks. *)
Definition failed_inverters (tasks : list (Z * TaskOutcome)) : list Z :=
  map fst
    (List.filter
       (fun t => match snd t with task_returned => false | _ => true end)
       tasks).

(** None of the metrics that [_get_battery_inverter_data] checks is
    [NaN]. *)
Definition crucial_battery_metrics_ok (d : BatteryData) : Prop :=
  isnan (soc d) = false /\ isnan (soc_lower_bound d) = false
  /\ isnan (soc_upper_bound d) = false /\ isnan (capacity d) = false
  /\ isnan (power_inclusion_lower_bound d) = false
  /\ isnan (power_inclusion_upper_bound d) = false.

Definition crucial_inverter_metrics_ok (d : InverterData) : Prop :=
  isnan (active_power_inclusion_lower_bound d) = false
  /\ isnan (active_power_inclusion_upper_bound d) = false.

(** The loop answers the request with [OutOfBounds] and these bounds. *)
Definition answered_out_of_bounds (self : Actor) (request : Request)
    (bounds : PowerBounds) : Prop :=
  exists effects,
    _run_request self request = Ok effects
    /\ In (OutOfBounds request bounds) (sent_results effects).

End PowerDistributing.

(** ** The timeseries resampler *)

Module Resampling.

Definition DEFAULT_BUFFER_LEN_INIT : Z := 16.
Definition DEFAULT_BUFFER_LEN_MAX : Z := 1024.
Definition DEFAULT_BUFFER_LEN_WARN : Z := 128.

(** Modelled from the spec: [Sample] is declared in a file that is not
    among the sources; it is a timestamp with an optional value. *)
Record Sample : Type := {
  timestamp : Q;
  value : option pyfloat
}.

Record SourceProperties : Type := {
  sampling_start : option Q;
  received_samples : Z;
  sampling_period_s : option Q
}.

(** The configuration.  A resampling function receives the configuration
    that holds it; to keep the record well-founded the numeric fields
    form a record of their own, which is what the function is given. *)
Record ConfigValues : Type := {
  resampling_period_s : Q;
  max_data_age_in_periods : Q;
  initial_buffer_len : Z;
  warn_buffer_len : Z;
  max_buffer_len : Z
}.

Definition ResamplingFunction : Type :=
  list Sample -> ConfigValues -> SourceProperties -> res pyfloat.

Record ResamplerConfig : Type := {
  config_values :> ConfigValues;
  resampling_function : ResamplingFunction
}.

(** [x / n] for a float and an [int]. *)
Definition fdiv_int (x : pyfloat) (n : Z) : res pyfloat :=
  if (n =? 0)%Z then Raise ZeroDivisionError
  else match x with
       | Fin a => Ok (Fin (a / inject_Z n))
       | NaN => Ok NaN
       end.

(** *** [average] *)
Definition average : ResamplingFunction :=
  fun samples resampler_config source_properties =>
    if Nat.ltb 0 (length samples) then
      let values := omap value samples in
      fdiv_int (py_sum values) (Z.of_nat (length values))
    else Raise AssertionError.

(** *** [ResamplerConfig.__post_init__] *)
Definition __post_init__ (self : ConfigValues) : res unit :=
  if negb (Qle_bool 0 (resampling_period_s self)) then
    Raise (ValueError "resampling_period_s must be positive")
  else if negb (Qle_bool 1 (max_data_age_in_periods self)) then
    Raise (ValueError "max_data_age_in_periods should be at least 1.0")
  else if (warn_buffer_len self <? 1)%Z then
    Raise (ValueError "warn_buffer_len should be at least 1")
  else if (max_buffer_len self <=? warn_buffer_len self)%Z then
    Raise (ValueError "max_buffer_len should be bigger than warn_buffer_len")
  else if (initial_buffer_len self <? 1)%Z then
    Raise (ValueError "initial_buffer_len should at least 1")
  else if (max_buffer_len self <? initial_buffer_len self)%Z then
    Raise (ValueError "initial_buffer_len is bigger than max_buffer_len")
  else Ok tt.

(** The constraints as the specification lists them. *)
Definition spec_config_constraints (c : ConfigValues) : Prop :=
  (0 < resampling_period_s c)%Q
  /\ (1 <= max_data_age_in_periods c)%Q
  /\ (1 <= initial_buffer_len c)%Z
  /\ (initial_buffer_len c <= max_buffer_len c)%Z
  /\ (1 <= warn_buffer_len c)%Z
  /\ (warn_buffer_len c < max_buffer_len c)%Z.

(** *** [collections.deque] with a [maxlen] *)
Record deque : Type := {
  items : list Sample;
  maxlen : Z
}.

Definition deque_len (d : deque) : Z := Z.of_nat (length (items d)).

(** [d.append(x)]: the oldest item leaves when the bound is exceeded. *)
Definition append (d : deque) (x : Sample) : deque :=
  let grown := items d ++ [x] in
  {| items :=
       if (maxlen d <? Z.of_nat (length grown))%Z then tail grown else grown;
     maxlen := maxlen d |}.

(** [deque(iterable, maxlen=n)]. *)
Definition deque_new (iterable : list Sample) (n : Z) : res deque :=
  if (n <? 0)%Z then Raise (ValueError "maxlen must be non-negative")
  else Ok (fold_left append iterable {| items := []; maxlen := n |}).

(** *** [bisect.bisect]

    Modelled from the spec: the order of [Sample] is declared with the
    type; the comparison [Sample(ts, None) < a[mid]] of the search is the
    comparison of the timestamps. *)
Fixpoint bisect_loop (fuel : nat) (a : list Sample) (x : Q) (lo hi : nat)
  : nat :=
  match fuel with
  | O => lo
  | S fuel' =>
      if Nat.ltb lo hi then
        let mid := Nat.div (lo + hi) 2 in
        match a !! mid with
        | Some s =>
            if negb (Qle_bool (timestamp s) x)
            then bisect_loop fuel' a x lo mid
            else bisect_loop fuel' a x (S mid) hi
        | None => lo
        end
      else lo
  end.

Definition bisect (a : list Sample) (x : Q) : nat :=
  bisect_loop (length a) a x 0 (length a).

(** [itertools.islice(a, start, stop)]. *)
Definition islice (a : list Sample) (start stop : nat) : list Sample :=
  take (stop - start) (drop start a).

(** The buffer is in the order of the timestamps. *)
Definition sorted_by_timestamp (a : list Sample) : Prop :=
  forall i j si sj,
    (i <= j)%nat -> a !! i = Some si -> a !! j = Some sj ->
    (timestamp si <= timestamp sj)%Q.

(** *** [_ResamplingHelper] *)
Module _ResamplingHelper.

Record state : Type := {
  _name : string;
  _config : ResamplerConfig;
  _buffer : deque;
  _source_properties : SourceProperties
}.

Definition __init__ (name : string) (config : ResamplerConfig)
  : res state :=
  do buffer <- deque_new [] (initial_buffer_len config);
  Ok {| _name := name;
        _config := config;
        _buffer := buffer;
        _source_properties :=
          {| sampling_start := None;
             received_samples := 0;
             sampling_period_s := None |} |}.

Definition add_sample (self : state) (sample : Sample) : state :=
  let props := _source_properties self in
  {| _name := _name self;
     _config := _config self;
     _buffer := append (_buffer self) sample;
     _source_properties :=
       {| sampling_start :=
            match sampling_start props with
            | None => Some (timestamp sample)
            | Some start => Some start
            end;
          received_samples := received_samples props + 1;
          sampling_period_s := sampling_period_s props |} |}.

(** Returns whether the period was updated, with the new state. *)
Definition _update_source_sample_period (self : state) (now : Q)
  : res (bool * state) :=
  if negb (0 <? maxlen (_buffer self))%Z then Raise AssertionError
  else
    let config := _config self in
    let props := _source_properties self in
    match sampling_period_s props, sampling_start props with
    | Some _, _ => Ok (false, self)
    | None, None => Ok (false, self)
    | None, Some start =>
        if negb (Qle_bool
                   (resampling_period_s config
                    * max_data_age_in_periods config)
                   (inject_Z (received_samples props)))
           || (deque_len (_buffer self) <? maxlen (_buffer self))%Z
           || Qle_bool now start
        then Ok (false, self)
        else
          let samples_time_delta := (now - start)%Q in
          if (received_samples props =? 0)%Z then Raise ZeroDivisionError
          else
            Ok (true,
                {| _name := _name self;
                   _config := config;
                   _buffer := _buffer self;
                   _source_properties :=
                     {| sampling_start := sampling_start props;
                        received_samples := received_samples props;
                        sampling_period_s :=
                          Some (samples_time_delta
                                / inject_Z (received_samples props))%Q
                     |} |})
    end.

(** Returns whether the buffer was rebuilt, with the new state. *)
Definition _update_buffer_len (self : state) : res (bool * state) :=
  match sampling_period_s (_source_properties self) with
  | None => Raise AssertionError
  | Some input_sampling_period_s =>
      let config := _config self in
      do new_buffer_len <-
        (if negb (Qle_bool input_sampling_period_s
                    (resampling_period_s config))
         then Ok (input_sampling_period_s
                  * max_data_age_in_periods config)%Q
         else if Qeq_bool input_sampling_period_s 0
         then Raise ZeroDivisionError
         else Ok (resampling_period_s config / input_sampling_period_s
                  * max_data_age_in_periods config)%Q);
      let new_buffer_len := Z.max 1 (Qceiling new_buffer_len) in
      let new_buffer_len :=
        if (max_buffer_len config <? new_buffer_len)%Z
        then max_buffer_len config
        else new_buffer_len in
      if (new_buffer_len =? maxlen (_buffer self))%Z then Ok (false, self)
      else
        do buffer <- deque_new (items (_buffer self)) new_buffer_len;
        Ok (true,
            {| _name := _name self;
               _config := config;
               _buffer := buffer;
               _source_properties := _source_properties self |})
  end.

(** The capacity that the buffer should get once the input period is
    known: a number of slots, rounded up and brought into
    [1 .. max_buffer_len]. *)
Definition clamp_capacity (config : ConfigValues) (slots : Q) : Z :=
  Z.min (Z.max 1 (Qceiling slots)) (max_buffer_len config).

(** In the words of the specification: the first formula applies when
    the input period is at least the resampling period. *)
Definition spec_capacity (config : ConfigValues) (input_period : Q) : Z :=
  clamp_capacity config
    (if Qle_bool (resampling_period_s config) input_period
     then input_period * max_data_age_in_periods config
     else resampling_period_s config / input_period
          * max_data_age_in_periods config)%Q.

(** With the first formula applying only when the input period is
    longer than the resampling period. *)
Definition capacity (config : ConfigValues) (input_period : Q) : Z :=
  clamp_capacity config
    (if Qle_bool input_period (resampling_period_s config)
     then resampling_period_s config / input_period
          * max_data_age_in_periods config
     else input_period * max_data_age_in_periods config)%Q.

(** The newest [n] of the samples. *)
Definition newest (n : Z) (samples : list Sample) : list Sample :=
  drop (length samples - Z.to_nat n) samples.

(** The window of [resample]: the samples handed to the resampling
    function, if there are any. *)
Definition relevant_samples (self : state) (timestamp : Q) : list Sample :=
  let conf := _config self in
  let props := _source_properties self in
  let period :=
    match sampling_period_s props with
    | Some input_period =>
        if negb (Qle_bool input_period (resampling_period_s conf))
        then input_period
        else resampling_period_s conf
    | None => resampling_period_s conf
    end in
  let minimum_relevant_timestamp :=
    (timestamp - period * max_data_age_in_periods conf)%Q in
  let min_index := bisect (items (_buffer self)) minimum_relevant_timestamp in
  let max_index := bisect (items (_buffer self)) timestamp in
  islice (items (_buffer self)) min_index max_index.

(** What a call of [resample] leaves behind: the new state, the sample
    it returns (or the exception it raises), and the argument lists on
    which it invoked the resampling function. *)
Record resampled : Type := {
  after : state;
  returned : res Sample;
  invocations : list (list Sample)
}.

Definition resample (self : state) (timestamp : Q) : resampled :=
  match _update_source_sample_period self timestamp with
  | Raise e => {| after := self; returned := Raise e; invocations := [] |}
  | Ok (changed, self1) =>
      match
        (if changed then _update_buffer_len self1 else Ok (false, self1))
      with
      | Raise e =>
          {| after := self1; returned := Raise e; invocations := [] |}
      | Ok (_, self2) =>
          let conf := _config self2 in
          let props := _source_properties self2 in
          let relevant_samples := relevant_samples self2 timestamp in
          match relevant_samples with
          | [] =>
              {| after := self2;
                 returned :=
                   Ok {| timestamp := timestamp; value := None |};
                 invocations := [] |}
          | _ =>
              {| after := self2;
                 returned :=
                   do v <- resampling_function conf relevant_samples
                             conf props;
                   Ok {| timestamp := timestamp; value := Some v |};
                 invocations := [relevant_samples] |}
          end
      end
  end.

End _ResamplingHelper.

(** *** [_StreamingHelper] *)
Module _StreamingHelper.

(** The task that runs [_receive_samples]. *)
Inductive task : Type :=
| running
| finished
| failed (e : Exn)
| cancelled.

(** What the source does next when the task asks it for a sample. *)
Inductive source_event : Type :=
| yields (sample : Sample)
| stops
| raises (e : Exn).

Record state : Type := {
  _helper : _ResamplingHelper.state;
  _source : Z;
  _sink : Sample -> res unit;
  _receiving_task : task
}.

Definition __init__ (helper : _ResamplingHelper.state) (source : Z)
    (sink : Sample -> res unit) : state :=
  {| _helper := helper;
     _source := source;
     _sink := sink;
     _receiving_task := running |}.

Definition with_helper (self : state) (helper : _ResamplingHelper.state)
  : state :=
  {| _helper := helper;
     _source := _source self;
     _sink := _sink self;
     _receiving_task := _receiving_task self |}.

Definition with_task (self : state) (t : task) : state :=
  {| _helper := _helper self;
     _source := _source self;
     _sink := _sink self;
     _receiving_task := t |}.

Definition stop (self : state) : state :=
  match _receiving_task self with
  | running => with_task self cancelled
  | _ => self
  end.

(** One turn of the loop of [_receive_samples]; a task that is done
    receives nothing any more. *)
Definition _receive_samples (self : state) (event : source_event)
  : state :=
  match _receiving_task self with
  | running =>
      match event with
      | yields sample =>
          match value sample with
          | Some v =>
              if negb (isnan v)
              then with_helper self
                     (_ResamplingHelper.add_sample (_helper self) sample)
              else self
          | None => self
          end
      | stops => with_task self finished
      | raises e => with_task self (failed e)
      end
  | _ => self
  end.

(** The new state, what the call raised (if anything), the sample given
    to the sink, and the invocations of the resampling function. *)
Record resampled : Type := {
  after : state;
  raised : option Exn;
  sent : option Sample;
  invocations : list (list Sample)
}.

Definition resample (self : state) (timestamp : Q) : resampled :=
  match _receiving_task self with
  | failed recv_exception =>
      {| after := self; raised := Some recv_exception; sent := None;
         invocations := [] |}
  | cancelled =>
      {| after := self; raised := Some CancelledError; sent := None;
         invocations := [] |}
  | finished =>
      {| after := self; raised := Some (SourceStoppedError (_source self));
         sent := None; invocations := [] |}
  | running =>
      let r := _ResamplingHelper.resample (_helper self) timestamp in
      let self' := with_helper self (_ResamplingHelper.after r) in
      match _ResamplingHelper.returned r with
      | Raise e =>
          {| after := self'; raised := Some e; sent := None;
             invocations := _ResamplingHelper.invocations r |}
      | Ok sample =>
          {| after := self';
             raised :=
               match _sink self sample with
               | Ok _ => None
               | Raise e => Some e
               end;
             sent := Some sample;
             invocations := _ResamplingHelper.invocations r |}
      end
  end.

End _StreamingHelper.

(** *** The streaming pipeline of one source

    What happens to a streaming helper, in the order in which the event
    loop makes it happen: the source delivers something to the receiving
    task, or the resampler asks for a sample. *)
Module Pipeline.

Inductive event : Type :=
| source_does (what : _StreamingHelper.source_event)
| resample_at (timestamp : Q).

(** One call of [resample]: the helper before the call, the timestamp, and
    what the call did. *)
Record call : Type := {
  before : _StreamingHelper.state;
  at_time : Q;
  did : _StreamingHelper.resampled
}.

Fixpoint run (self : _StreamingHelper.state) (events : list event)
  : _StreamingHelper.state * list call :=
  match events with
  | [] => (self, [])
  | source_does what :: events' =>
      run (_StreamingHelper._receive_samples self what) events'
  | resample_at timestamp :: events' =>
      let r := _StreamingHelper.resample self timestamp in
      let '(final, calls) := run (_StreamingHelper.after r) events' in
      (final, {| before := self; at_time := timestamp; did := r |} :: calls)
  end.

(** The sample carries a number: its value is neither [None] nor [NaN]. *)
Definition has_number (s : Sample) : Prop :=
  exists q, value s = Some (Fin q).

(** What holds of the resampling helper of a pipeline at all times. *)
Definition helper_ok (config : ResamplerConfig)
    (h : _ResamplingHelper.state) : Prop :=
  _ResamplingHelper._config h = config
  /\ (0 < maxlen (_ResamplingHelper._buffer h))%Z
  /\ Forall has_number (items (_ResamplingHelper._buffer h))
  /\ (0 <= received_samples (_ResamplingHelper._source_properties h))%Z
  /\ (sampling_start (_ResamplingHelper._source_properties h) <> None ->
      0 < received_samples (_ResamplingHelper._source_properties h))%Z
  /\ (forall ip,
        sampling_period_s (_ResamplingHelper._source_properties h) = Some ip ->
        0 < ip)%Q.

(** The buffer holds no more samples than its length allows, and this
    length is between one and the configured maximum. *)
Definition buffer_bounded (config : ResamplerConfig)
    (h : _ResamplingHelper.state) : Prop :=
  (deque_len (_ResamplingHelper._buffer h)
   <= maxlen (_ResamplingHelper._buffer h))%Z
  /\ (1 <= maxlen (_ResamplingHelper._buffer h) <= max_buffer_len config)%Z.


(** What one call of [resample] in a pipeline has to satisfy: the
    resampling function is only invoked on a non-empty window of samples
    that carry numbers; with the receiving task alive, an empty window
    gives [Sample(timestamp, None)] without an invocation and a non-empty
    one is what the function is invoked on; and if the function is
    [average], it passes its assertion, divides by a positive count, and
    its result is sent. *)
Definition function_well_used (config : ResamplerConfig) (c : call) : Prop :=
  let r := did c in
  let window :=
    _ResamplingHelper.relevant_samples
      (_StreamingHelper._helper (_StreamingHelper.after r)) (at_time c) in
  (forall samples,
     In samples (_StreamingHelper.invocations r) ->
     samples <> [] /\ Forall has_number samples)
  /\ (_StreamingHelper._receiving_task (before c) = _StreamingHelper.running ->
      (window = [] ->
       _StreamingHelper.invocations r = []
       /\ _StreamingHelper.sent r
          = Some {| timestamp := at_time c; value := None |})
      /\ (window <> [] -> _StreamingHelper.invocations r = [window]))
  /\ (resampling_function config = average ->
      forall samples,
        In samples (_StreamingHelper.invocations r) ->
        (0 < length samples)%nat
        /\ (0 < length (omap value samples))%nat
        /\ exists q,
             _StreamingHelper.sent r
             = Some {| timestamp := at_time c; value := Some (Fin q) |}).

End Pipeline.

(** *** [Resampler] *)
Module Resampler.

(** [_resamplers] is a [dict] from sources to streaming helpers, kept in
    insertion order; a source is identified by a number.  The [Timer]
    attribute is never read. *)
Record state : Type := {
  _config : ResamplerConfig;
  _resamplers : list (Z * _StreamingHelper.state);
  _window_end : Q
}.

(** [now] is what [datetime.now(timezone.utc)] returns. *)
Definition __init__ (config : ResamplerConfig) (now : Q) : state :=
  {| _config := config;
     _resamplers := [];
     _window_end := (now + resampling_period_s config)%Q |}.

Definition registered (self : state) (source : Z) : bool :=
  existsb (fun kv => (fst kv =? source)%Z) (_resamplers self).

Definition add_timeseries (self : state) (name : string) (source : Z)
    (sink : Sample -> res unit) : res (bool * state) :=
  if registered self source then Ok (false, self)
  else
    do helper <- _ResamplingHelper.__init__ name (_config self);
    let resampler := _StreamingHelper.__init__ helper source sink in
    Ok (true,
        {| _config := _config self;
           _resamplers := _resamplers self ++ [(source, resampler)];
           _window_end := _window_end self |}).

Definition remove_timeseries (self : state) (source : Z) : bool * state :=
  if registered self source then
    (true,
     {| _config := _config self;
        _resamplers :=
          List.filter (fun kv => negb (fst kv =? source)%Z)
            (_resamplers self);
        _window_end := _window_end self |})
  else (false, self).

(** [_wait_for_next_resampling_period]: how long it sleeps, if it does,
    and whether it warns about a late wake-up. *)
Definition _wait_for_next_resampling_period (self : state) (now : Q)
  : option Q * bool :=
  let sleep_for :=
    if negb (Qle_bool (_window_end self) now)
    then Some (_window_end self - now)%Q
    else None in
  let timer_error_s := (now - _window_end self)%Q in
  (sleep_for,
   negb (Qle_bool timer_error_s
           (resampling_period_s (_config self) / 10))).

(** What the event loop brings while [resample] waits for the next
    period: the reading of the clock, and what the sources delivered to
    the receiving tasks. *)
Record period_env : Type := {
  clock : Q;
  arrivals : list (Z * _StreamingHelper.source_event)
}.

Definition deliver (resamplers : list (Z * _StreamingHelper.state))
    (arrival : Z * _StreamingHelper.source_event)
  : list (Z * _StreamingHelper.state) :=
  map (fun kv =>
         if (fst kv =? fst arrival)%Z
         then (fst kv, _StreamingHelper._receive_samples (snd kv)
                         (snd arrival))
         else kv)
    resamplers.

(** One pass through the loop of [resample], as seen from outside: the
    timestamp given to each registered helper and what its call did. *)
Record pass : Type := {
  slept : option Q * bool;
  calls : list (Z * Q * _StreamingHelper.resampled)
}.

Inductive outcome : Type :=
| returns
| raises_ResamplingError (exceptions : list (Z * Exn))
| still_running.

Definition exceptions_of (calls : list (Z * Q * _StreamingHelper.resampled))
  : list (Z * Exn) :=
  omap (fun c =>
          match _StreamingHelper.raised (snd c) with
          | Some e => Some (fst (fst c), e)
          | None => None
          end)
    calls.

(** [resample(one_shot=...)], run for as many periods as the
    environment describes. *)
Fixpoint resample (one_shot : bool) (periods : list period_env)
    (self : state) : state * list pass * outcome :=
  match periods with
  | [] => (self, [], still_running)
  | env :: periods' =>
      let slept := _wait_for_next_resampling_period self (clock env) in
      let resamplers :=
        fold_left deliver (arrivals env) (_resamplers self) in
      let results :=
        map (fun kv =>
               (fst kv, _window_end self,
                _StreamingHelper.resample (snd kv) (_window_end self)))
          resamplers in
      let self' :=
        {| _config := _config self;
           _resamplers :=
             map (fun c => (fst (fst c), _StreamingHelper.after (snd c)))
               results;
           _window_end :=
             (_window_end self + resampling_period_s (_config self))%Q |} in
      let this := {| slept := slept; calls := results |} in
      match exceptions_of results with
      | (_ :: _) as exceptions =>
          (self', [this], raises_ResamplingError exceptions)
      | [] =>
          if one_shot then (self', [this], returns)
          else
            let '(final, passes, out) := resample one_shot periods' self' in
            (final, this :: passes, out)
      end
  end.

(** The timestamps given to the helpers, pass by pass, and the samples
    that reached the sink of one source. *)
Definition timestamps_handed (passes : list pass) : list (list Q) :=
  map (fun p => map (fun c => snd (fst c)) (calls p)) passes.

Definition output_of (source : Z) (passes : list pass) : list Sample :=
  flat_map
    (fun p =>
       omap (fun c =>
               if (fst (fst c) =? source)%Z
               then _StreamingHelper.sent (snd c)
               else None)
         (calls p))
    passes.

End Resampler.

End Resampling.

(** ** Concrete data, used to run the definitions *)

Module Scenarios.
Import PowerDistributing.

Definition W (z : Z) : pyfloat := Fin (inject_Z z).

Definition bounds (il el eu iu : Z) : PowerBounds :=
  {| inclusion_lower := W il; exclusion_lower := W el;
     exclusion_upper := W eu; inclusion_upper := W iu |}.

Definition inverter_data (id il el eu iu : Z) : InverterData :=
  {| inv_component_id := id;
     active_power_inclusion_lower_bound := W il;
     active_power_exclusion_lower_bound := W el;
     active_power_exclusion_upper_bound := W eu;
     active_power_inclusion_upper_bound := W iu |}.

Definition battery_data (id il el eu iu : Z) : BatteryData :=
  {| bat_component_id := id;
     soc := W 50; soc_lower_bound := W 10; soc_upper_bound := W 90;
     capacity := W 1000;
     power_inclusion_lower_bound := W il;
     power_exclusion_lower_bound := W el;
     power_exclusion_upper_bound := W eu;
     power_inclusion_upper_bound := W iu |}.

(** Two pairs whose deadbands differ: battery 1 with inverter 101, and
    battery 2 with inverter 102. *)
Definition two_pairs : list InvBatPair :=
  [ {| battery := {| component_id := 1;
                     power_bounds := bounds (-500) (-10) 10 500 |};
       inverter := [ inverter_data 101 (-400) (-20) 20 400 ] |};
    {| battery := {| component_id := 2;
                     power_bounds := bounds (-500) (-30) 30 500 |};
       inverter := [ inverter_data 102 (-600) (-5) 5 600 ] |} ].

(** Two batteries, 1 and 2, behind one inverter each, 101 and 102; both
    report data and are considered working. *)
Definition half (p : pyfloat) : pyfloat :=
  match p with Fin q => Fin (q / 2) | NaN => NaN end.

(** A stand-in for the distribution algorithm: half of the power for each
    of the two inverters, nothing left over. *)
Definition equal_split (p : pyfloat) (pairs : list InvBatPair)
  : res DistributionResult :=
  Ok {| distribution := {[ 101 := half p; 102 := half p ]};
        remaining_power := Fin 0 |}.

Definition two_batteries (devices : Z -> pyfloat -> TaskOutcome) : Actor :=
  {| _bat_invs_map := {[ 1 := {[ 101 ]}; 2 := {[ 102 ]} ]};
     _inv_bats_map := {[ 101 := {[ 1 ]}; 102 := {[ 2 ]} ]};
     _bat_bats_map := {[ 1 := {[ 1 ]}; 2 := {[ 2 ]} ]};
     _battery_receivers :=
       {[ 1 := Some (battery_data 1 (-500) (-10) 10 500);
          2 := Some (battery_data 2 (-500) (-10) 10 500) ]};
     _inverter_receivers :=
       {[ 101 := Some (inverter_data 101 (-500) (-10) 10 500);
          102 := Some (inverter_data 102 (-500) (-10) 10 500) ]};
     working := {[ 1; 2 ]};
     distribute_power := equal_split;
     set_power := devices |}.

(** Batteries 1 and 2 behind the one inverter 101. *)
Definition shared_inverter : Actor :=
  {| _bat_invs_map := {[ 1 := {[ 101 ]}; 2 := {[ 101 ]} ]};
     _inv_bats_map := {[ 101 := {[ 1; 2 ]} ]};
     _bat_bats_map := {[ 1 := {[ 1; 2 ]}; 2 := {[ 1; 2 ]} ]};
     _battery_receivers :=
       {[ 1 := Some (battery_data 1 (-500) (-10) 10 500);
          2 := Some (battery_data 2 (-500) (-10) 10 500) ]};
     _inverter_receivers :=
       {[ 101 := Some (inverter_data 101 (-500) (-10) 10 500) ]};
     working := {[ 1; 2 ]};
     distribute_power := equal_split;
     set_power := fun _ _ => task_returned |}.

Definition effects_of (r : res (list Effect)) : list Effect :=
  match r with Ok effects => effects | Raise _ => [] end.

Definition pairs_of (r : res (list InvBatPair)) : list InvBatPair :=
  match r with Ok pairs => pairs | Raise _ => [] end.

(** The two batteries when the health tracker considers none of them
    working. *)
Definition nothing_works : Actor :=
  {| _bat_invs_map := {[ 1 := {[ 101 ]}; 2 := {[ 102 ]} ]};
     _inv_bats_map := {[ 101 := {[ 1 ]}; 102 := {[ 2 ]} ]};
     _bat_bats_map := {[ 1 := {[ 1 ]}; 2 := {[ 2 ]} ]};
     _battery_receivers :=
       {[ 1 := Some (battery_data 1 (-500) (-10) 10 500);
          2 := Some (battery_data 2 (-500) (-10) 10 500) ]};
     _inverter_receivers :=
       {[ 101 := Some (inverter_data 101 (-500) (-10) 10 500);
          102 := Some (inverter_data 102 (-500) (-10) 10 500) ]};
     working := ∅;
     distribute_power := equal_split;
     set_power := fun _ _ => task_returned |}.

(** The graph of the two batteries: inverter 101 before battery 1 and
    inverter 102 before battery 2; battery 3 has no inverter. *)
Definition two_inverter_graph : ComponentGraph :=
  {| predecessors :=
       fun id =>
         if (id =? 1)%Z
         then [ {| graph_component_id := 101; category := INVERTER |};
                {| graph_component_id := 11; category := OTHER |} ]
         else if (id =? 2)%Z
         then [ {| graph_component_id := 102; category := INVERTER |} ]
         else [];
     successors :=
       fun id =>
         if (id =? 101)%Z
         then [ {| graph_component_id := 1; category := BATTERY |} ]
         else if (id =? 102)%Z
         then [ {| graph_component_id := 2; category := BATTERY |} ]
         else [] |}.

Definition latest_battery (id : Z) : option BatteryData :=
  Some (battery_data id (-500) (-10) 10 500).

Definition latest_inverter (id : Z) : option InverterData :=
  Some (inverter_data id (-500) (-10) 10 500).

Definition all_respond : Z -> pyfloat -> TaskOutcome :=
  fun _ _ => task_returned.

(** Inverter 102 does not answer before the timeout. *)
Definition second_hangs : Z -> pyfloat -> TaskOutcome :=
  fun inverter_id _ =>
    if (inverter_id =? 102)%Z then task_cancelled else task_returned.

Definition request_for (bs : gset Z) (watts : Z) (adjust : bool) : Request :=
  {| power := W watts; batteries := bs; request_timeout := 5;
     adjust_power := adjust |}.

Import Resampling.

(** The default configuration with a given resampling period. *)
Definition default_values (period : Q) : ConfigValues :=
  {| resampling_period_s := period;
     max_data_age_in_periods := 3;
     initial_buffer_len := DEFAULT_BUFFER_LEN_INIT;
     warn_buffer_len := DEFAULT_BUFFER_LEN_WARN;
     max_buffer_len := DEFAULT_BUFFER_LEN_MAX |}.

Definition default_config (period : Q) : ResamplerConfig :=
  {| config_values := default_values period;
     resampling_function := average |}.

Definition sample (t v : Z) : Sample :=
  {| timestamp := inject_Z t; value := Some (W v) |}.

(** A helper with a resampling period of two seconds, as [__init__]
    makes it, and after it has received sixteen samples, one every two
    seconds from [0] on. *)
Definition fresh_helper : _ResamplingHelper.state :=
  {| _ResamplingHelper._name := "meter";
     _ResamplingHelper._config := default_config 2;
     _ResamplingHelper._buffer := {| items := []; maxlen := 16 |};
     _ResamplingHelper._source_properties :=
       {| sampling_start := None;
          received_samples := 0;
          sampling_period_s := None |} |}.

Definition helper_after_16 : _ResamplingHelper.state :=
  fold_left _ResamplingHelper.add_sample
    (map (fun k => sample (2 * Z.of_nat k) 7) (seq 0 16)) fresh_helper.

(** The same helper once [resample(32)] has inferred the input period. *)
Definition helper_inferred : _ResamplingHelper.state :=
  match _ResamplingHelper._update_source_sample_period helper_after_16 32 with
  | Ok (_, self1) => self1
  | Raise _ => helper_after_16
  end.

(** The fresh helper after two samples, at [100] and at [101]. *)
Definition helper_after_2 : _ResamplingHelper.state :=
  fold_left _ResamplingHelper.add_sample [ sample 100 5; sample 101 7 ]
    fresh_helper.

(** A resampler created at time [100] with a period of two seconds, with
    one source, number [7], whose sink accepts everything. *)
Definition meter_resampler : Resampler.state :=
  {| Resampler._config := default_config 2;
     Resampler._resamplers :=
       [ (7, _StreamingHelper.__init__ fresh_helper 7 (fun _ => Ok tt)) ];
     Resampler._window_end := 102 |}.

(** Three periods: the loop wakes up late, then very late, then early;
    the source delivers samples, one of them without a value, and finally
    stops. *)
Definition three_periods : list Resampler.period_env :=
  [ {| Resampler.clock := 1023 # 10;
       Resampler.arrivals :=
         [ (7, _StreamingHelper.yields (sample 101 5));
           (7, _StreamingHelper.yields
                 {| timestamp := 102; value := None |}) ] |};
    {| Resampler.clock := 110;
       Resampler.arrivals := [ (7, _StreamingHelper.yields (sample 103 9)) ] |};
    {| Resampler.clock := 105;
       Resampler.arrivals := [ (7, _StreamingHelper.stops) ] |} ].

Definition meter_run : Resampler.state * list Resampler.pass * Resampler.outcome :=
  Resampler.resample false three_periods meter_resampler.

(** The pipeline of the meter: three deliveries, of which only the first
    carries a number, then two calls of [resample], a fourth delivery and
    a last call long after. *)
Definition accepting_sink : Sample -> res unit := fun _ => Ok tt.

Definition meter_events : list Pipeline.event :=
  [ Pipeline.source_does (_StreamingHelper.yields (sample 101 5));
    Pipeline.source_does
      (_StreamingHelper.yields {| timestamp := 102; value := None |});
    Pipeline.source_does
      (_StreamingHelper.yields {| timestamp := 102; value := Some NaN |});
    Pipeline.resample_at 102;
    Pipeline.resample_at 104;
    Pipeline.source_does (_StreamingHelper.yields (sample 105 9));
    Pipeline.resample_at 120 ].

Definition meter_calls : list Pipeline.call :=
  snd (Pipeline.run
         (_StreamingHelper.__init__ fresh_helper 7 accepting_sink)
         meter_events).

End Scenarios.

(* ===================================================================== *)
(** * Part II: properties                                                 *)
(* ===================================================================== *)

(** ** Floats without [NaN] behave like rationals *)

Section FloatFacts.

Lemma Qle_bool_false (a b : Q) : Qle_bool a b = false <-> (b < a)%Q.
Proof.
  split; intro H.
  - apply Qnot_le_lt. intro Hle. apply Qle_bool_iff in Hle. congruence.
  - destruct (Qle_bool a b) eqn:E; [|reflexivity].
    apply Qle_bool_iff in E. exfalso. exact (Qlt_not_le _ _ H E).
Qed.

Lemma flt_Fin (a b : Q) : flt (Fin a) (Fin b) = true <-> (a < b)%Q.
Proof.
  simpl. rewrite negb_true_iff. apply Qle_bool_false.
Qed.

Lemma fle_Fin (a b : Q) : fle (Fin a) (Fin b) = true <-> (a <= b)%Q.
Proof. simpl. apply Qle_bool_iff. Qed.

Lemma py_max_Fin (a b : Q) : feq (py_max (Fin a) (Fin b)) (Fin (Qmax a b)).
Proof.
  unfold py_max. destruct (flt (Fin a) (Fin b)) eqn:E; simpl.
  - apply flt_Fin in E. symmetry. apply Q.max_r. apply Qlt_le_weak, E.
  - simpl in E. rewrite negb_false_iff in E. apply Qle_bool_iff in E.
    symmetry. apply Q.max_l, E.
Qed.

Lemma py_min_Fin (a b : Q) : feq (py_min (Fin a) (Fin b)) (Fin (Qmin a b)).
Proof.
  unfold py_min. destruct (flt (Fin b) (Fin a)) eqn:E; simpl.
  - apply flt_Fin in E. symmetry. apply Q.min_r. apply Qlt_le_weak, E.
  - simpl in E. rewrite negb_false_iff in E. apply Qle_bool_iff in E.
    symmetry. apply Q.min_l, E.
Qed.

Lemma feq_Fin_inv (x : pyfloat) (q : Q) :
  feq x (Fin q) -> exists a, x = Fin a /\ (a == q)%Q.
Proof. destruct x; simpl; [tauto|]. intro H. eauto. Qed.

Lemma feq_trans (x y z : pyfloat) : feq x y -> feq y z -> feq x z.
Proof.
  destruct x, y, z; simpl; try tauto. intros H1 H2. now rewrite H1.
Qed.

Lemma feq_sym (x y : pyfloat) : feq x y -> feq y x.
Proof. destruct x, y; simpl; try tauto. intro H. now symmetry. Qed.

Lemma fadd_feq (x y : pyfloat) (a b : Q) :
  feq x (Fin a) -> feq y (Fin b) -> feq (fadd x y) (Fin (a + b)).
Proof.
  destruct x, y; simpl; try tauto. intros H1 H2. now rewrite H1, H2.
Qed.

Lemma py_max_feq (x y : pyfloat) (a b : Q) :
  feq x (Fin a) -> feq y (Fin b) -> feq (py_max x y) (Fin (Qmax a b)).
Proof.
  intros [a' [-> Ha]]%feq_Fin_inv [b' [-> Hb]]%feq_Fin_inv.
  eapply feq_trans; [apply py_max_Fin|]. simpl. now rewrite Ha, Hb.
Qed.

Lemma py_min_feq (x y : pyfloat) (a b : Q) :
  feq x (Fin a) -> feq y (Fin b) -> feq (py_min x y) (Fin (Qmin a b)).
Proof.
  intros [a' [-> Ha]]%feq_Fin_inv [b' [-> Hb]]%feq_Fin_inv.
  eapply feq_trans; [apply py_min_Fin|]. simpl. now rewrite Ha, Hb.
Qed.

(** [sum] over values that are known up to [==]. *)
Lemma fold_fadd_feq (xs : list pyfloat) (qs : list Q) (acc : pyfloat) (a : Q) :
  Forall2 (fun x q => feq x (Fin q)) xs qs ->
  feq acc (Fin a) ->
  feq (fold_left fadd xs acc) (Fin (a + PowerDistributing.Qsum qs)).
Proof.
  intro H. revert acc a.
  induction H as [|x q xs qs Hx _ IH]; intros acc a Hacc; simpl.
  - eapply feq_trans; [exact Hacc|]. simpl. ring.
  - eapply feq_trans; [apply IH, fadd_feq; eassumption|]. simpl. ring.
Qed.

Lemma py_sum_feq (xs : list pyfloat) (qs : list Q) :
  Forall2 (fun x q => feq x (Fin q)) xs qs ->
  feq (py_sum xs) (Fin (PowerDistributing.Qsum qs)).
Proof.
  intro H. eapply feq_trans.
  - apply (fold_fadd_feq xs qs (Fin 0) 0%Q H). simpl. reflexivity.
  - simpl. ring.
Qed.

Lemma feq_fval (x : pyfloat) : isnan x = false -> feq x (Fin (fval x)).
Proof. destruct x; simpl; [discriminate|]. reflexivity. Qed.

End FloatFacts.

(** ** The aggregate bounds of a snapshot *)

Section GetBounds.
Import PowerDistributing.

Lemma numeric_pair_bounds (p : InvBatPair) :
  numeric_pair p = true ->
  numeric_bounds (power_bounds (battery p)) = true
  /\ Forall (fun i => numeric_inverter i = true) (inverter p).
Proof.
  unfold numeric_pair. rewrite andb_true_iff, forallb_forall.
  intros [Hb Hi]. split; [exact Hb|].
  apply List.Forall_forall. exact Hi.
Qed.

Lemma numeric_bounds_fields (b : PowerBounds) :
  numeric_bounds b = true ->
  isnan (inclusion_lower b) = false /\ isnan (exclusion_lower b) = false
  /\ isnan (exclusion_upper b) = false /\ isnan (inclusion_upper b) = false.
Proof.
  unfold numeric_bounds. rewrite !andb_true_iff, !negb_true_iff. tauto.
Qed.

Lemma numeric_inverter_fields (i : InverterData) :
  numeric_inverter i = true ->
  isnan (active_power_inclusion_lower_bound i) = false
  /\ isnan (active_power_exclusion_lower_bound i) = false
  /\ isnan (active_power_exclusion_upper_bound i) = false
  /\ isnan (active_power_inclusion_upper_bound i) = false.
Proof.
  unfold numeric_inverter. rewrite !andb_true_iff, !negb_true_iff. tauto.
Qed.

(** The sum of one bound over a list of inverters without [NaN]. *)
Lemma inverters_sum (f : InverterData -> pyfloat) (invs : list InverterData) :
  Forall (fun i => isnan (f i) = false) invs ->
  feq (py_sum (map f invs)) (Fin (Qsum (map (fun i => fval (f i)) invs))).
Proof.
  intro H. apply py_sum_feq.
  induction H as [|i invs Hi _ IH]; simpl; constructor.
  - apply feq_fval, Hi.
  - exact IH.
Qed.

(** The sum, over the pairs, of a quantity known pair by pair. *)
Lemma pairs_sum (g : InvBatPair -> pyfloat) (h : InvBatPair -> Q)
    (pairs_data : list InvBatPair) :
  Forall (fun p => feq (g p) (Fin (h p))) pairs_data ->
  feq (py_sum (map g pairs_data)) (Fin (Qsum (map h pairs_data))).
Proof.
  intro H. apply py_sum_feq.
  induction H as [|p ps Hp _ IH]; simpl; constructor; assumption.
Qed.

Lemma numeric_pairs_inverters (pairs_data : list InvBatPair) :
  forallb numeric_pair pairs_data = true ->
  Forall (fun i => numeric_inverter i = true) (flat_map inverter pairs_data).
Proof.
  induction pairs_data as [|p ps IH]; simpl; [constructor|].
  rewrite andb_true_iff. intros [Hp Hps].
  apply List.Forall_app. split.
  - apply numeric_pair_bounds, Hp.
  - apply IH, Hps.
Qed.

(** C1, as amended.  On every list of pairs whose bounds are numbers,
    [_get_bounds] returns: as inclusion bounds the sums, over the pairs,
    of [max(battery lower, sum of the inverters' lower)] and of
    [min(battery upper, sum of the inverters' upper)]; as lower exclusion
    bound the minimum of two totals, the batteries' lower exclusion
    bounds summed over the pairs and the lower exclusion bounds of all
    inverters of all pairs summed; as upper exclusion bound the maximum
    of the two corresponding totals. *)
Theorem get_bounds_totals (pairs_data : list InvBatPair) :
  forallb numeric_pair pairs_data = true ->
  feq (inclusion_lower (_get_bounds pairs_data))
    (Fin (Qsum (map spec_pair_inclusion_lower pairs_data)))
  /\ feq (inclusion_upper (_get_bounds pairs_data))
       (Fin (Qsum (map spec_pair_inclusion_upper pairs_data)))
  /\ feq (exclusion_lower (_get_bounds pairs_data))
       (Fin (total_exclusion_lower pairs_data))
  /\ feq (exclusion_upper (_get_bounds pairs_data))
       (Fin (total_exclusion_upper pairs_data)).
Proof.
  intro Hnum.
  assert (Hpairs : Forall (fun p => numeric_pair p = true) pairs_data).
  { apply List.Forall_forall. now apply forallb_forall. }
  assert (Hinvs := numeric_pairs_inverters pairs_data Hnum).
  unfold _get_bounds; simpl. repeat split.
  - apply pairs_sum. eapply List.Forall_impl; [|exact Hpairs].
    intros p [Hb Hi]%numeric_pair_bounds.
    apply py_max_feq.
    + apply feq_fval, numeric_bounds_fields, Hb.
    + apply inverters_sum. eapply List.Forall_impl; [|exact Hi].
      intros i Hn. apply numeric_inverter_fields in Hn. tauto.
  - apply pairs_sum. eapply List.Forall_impl; [|exact Hpairs].
    intros p [Hb Hi]%numeric_pair_bounds.
    apply py_min_feq.
    + apply feq_fval, numeric_bounds_fields, Hb.
    + apply inverters_sum. eapply List.Forall_impl; [|exact Hi].
      intros i Hn. apply numeric_inverter_fields in Hn. tauto.
  - apply py_min_feq.
    + apply pairs_sum. eapply List.Forall_impl; [|exact Hpairs].
      intros p [Hb _]%numeric_pair_bounds.
      apply feq_fval, numeric_bounds_fields, Hb.
    + apply inverters_sum. eapply List.Forall_impl; [|exact Hinvs].
      intros i Hn. apply numeric_inverter_fields in Hn. tauto.
  - apply py_max_feq.
    + apply pairs_sum. eapply List.Forall_impl; [|exact Hpairs].
      intros p [Hb _]%numeric_pair_bounds.
      apply feq_fval, numeric_bounds_fields, Hb.
    + apply inverters_sum. eapply List.Forall_impl; [|exact Hinvs].
      intros i Hn. apply numeric_inverter_fields in Hn. tauto.
Qed.

Lemma get_bounds_totals_witness :
  forallb numeric_pair Scenarios.two_pairs = true
  /\ feq (exclusion_lower (_get_bounds Scenarios.two_pairs))
       (Fin (total_exclusion_lower Scenarios.two_pairs)).
Proof.
  split; [reflexivity|].
  apply (get_bounds_totals Scenarios.two_pairs). reflexivity.
Defined.

(** On two pairs with deadbands [-10..10 | -20..20] and
    [-30..30 | -5..5], the pool's lower exclusion bound is [-40], the
    total of the batteries, and not [-30], the widest of the pairs' own
    bounds; likewise above. *)
Lemma get_bounds_not_per_pair :
  Scenarios.two_pairs <> []
  /\ forallb numeric_pair Scenarios.two_pairs = true
  /\ exclusion_lower (_get_bounds Scenarios.two_pairs) = Scenarios.W (-40)
  /\ (spec_exclusion_lower Scenarios.two_pairs == inject_Z (-30))%Q
  /\ ~ feq (exclusion_lower (_get_bounds Scenarios.two_pairs))
         (Fin (spec_exclusion_lower Scenarios.two_pairs))
  /\ ~ feq (exclusion_upper (_get_bounds Scenarios.two_pairs))
         (Fin (spec_exclusion_upper Scenarios.two_pairs)).
Proof.
  split; [discriminate|].
  split; [reflexivity|].
  split; [vm_compute; reflexivity|].
  split; [vm_compute; reflexivity|].
  split; vm_compute; discriminate.
Qed.

End GetBounds.

(** ** The resampler configuration *)

Section Config.
Import Resampling.

(** What [__post_init__] accepts: the constraints of the specification,
    except that the resampling period only has to be non-negative. *)
Lemma post_init_accepts (c : ConfigValues) :
  __post_init__ c = Ok tt <->
  (0 <= resampling_period_s c)%Q
  /\ (1 <= max_data_age_in_periods c)%Q
  /\ (1 <= initial_buffer_len c)%Z
  /\ (initial_buffer_len c <= max_buffer_len c)%Z
  /\ (1 <= warn_buffer_len c)%Z
  /\ (warn_buffer_len c < max_buffer_len c)%Z.
Proof.
  unfold __post_init__.
  destruct (Qle_bool 0 (resampling_period_s c)) eqn:E1; simpl.
  2:{ split; [discriminate|]. intros [H _]. apply Qle_bool_iff in H.
      congruence. }
  destruct (Qle_bool 1 (max_data_age_in_periods c)) eqn:E2; simpl.
  2:{ split; [discriminate|]. intros (_ & H & _). apply Qle_bool_iff in H.
      congruence. }
  apply Qle_bool_iff in E1, E2.
  destruct (Z.ltb_spec (warn_buffer_len c) 1);
    [split; [discriminate|lia]|].
  destruct (Z.leb_spec (max_buffer_len c) (warn_buffer_len c));
    [split; [discriminate|lia]|].
  destruct (Z.ltb_spec (initial_buffer_len c) 1);
    [split; [discriminate|lia]|].
  destruct (Z.ltb_spec (max_buffer_len c) (initial_buffer_len c));
    [split; [discriminate|lia]|].
  split; [intros _; repeat split; assumption || lia | reflexivity].
Qed.

Lemma post_init_raises_ValueError (c : ConfigValues) (e : Exn) :
  __post_init__ c = Raise e -> exists m, e = ValueError m.
Proof.
  unfold __post_init__.
  repeat match goal with
         | |- context [if ?b then _ else _] => destruct b
         end; intro H; inversion H; eauto.
Qed.

(** C9.  A configuration with a resampling period of zero (and the
    defaults elsewhere) breaks the constraint [resampling_period_s > 0]
    and is accepted all the same. *)
Theorem post_init_accepts_zero_period :
  __post_init__ (Scenarios.default_values 0) = Ok tt
  /\ ~ spec_config_constraints (Scenarios.default_values 0).
Proof.
  split; [reflexivity|].
  intros [H _]. simpl in H. exact (Qlt_irrefl 0 H).
Qed.

End Config.

(** ** The binary search *)

Section Bisect.
Import Resampling.

Lemma midpoint_between (lo hi : nat) :
  (lo < hi)%nat -> (lo <= Nat.div (lo + hi) 2 < hi)%nat.
Proof.
  intro H. split.
  - apply Nat.div_le_lower_bound; lia.
  - apply Nat.Div0.div_lt_upper_bound; lia.
Qed.

(** The fuel of [bisect] is enough: more of it changes nothing. *)
Lemma bisect_loop_fuel (a : list Sample) (x : Q) (fuel fuel' lo hi : nat) :
  (hi <= length a)%nat -> (hi - lo <= fuel)%nat -> (hi - lo <= fuel')%nat ->
  bisect_loop fuel a x lo hi = bisect_loop fuel' a x lo hi.
Proof.
  revert fuel' lo hi.
  induction fuel as [|fuel IH]; intros fuel' lo hi Hhi Hf Hf'.
  - destruct fuel'; cbn [bisect_loop]; [reflexivity|].
    destruct (Nat.ltb_spec lo hi); [lia|reflexivity].
  - destruct fuel'; cbn [bisect_loop].
    + destruct (Nat.ltb_spec lo hi); [lia|reflexivity].
    + destruct (Nat.ltb_spec lo hi) as [Hlt|]; [|reflexivity].
      destruct (midpoint_between lo hi Hlt) as [Hlo Hmid].
      destruct (a !! Nat.div (lo + hi) 2); [|reflexivity].
      destruct (negb _); apply IH; lia.
Qed.

(** On a buffer in timestamp order the search splits it at [x]: before
    the index it returns the timestamps are at most [x], from there on
    they are greater. *)
Lemma bisect_loop_sorted (a : list Sample) (x : Q) (fuel lo hi : nat) :
  sorted_by_timestamp a ->
  (lo <= hi <= length a)%nat -> (hi - lo <= fuel)%nat ->
  (forall i s, (i < lo)%nat -> a !! i = Some s -> (timestamp s <= x)%Q) ->
  (forall i s, (hi <= i)%nat -> a !! i = Some s -> (x < timestamp s)%Q) ->
  forall i s,
    a !! i = Some s ->
    ((i < bisect_loop fuel a x lo hi)%nat <-> (timestamp s <= x)%Q).
Proof.
  intro Hsorted. revert lo hi.
  induction fuel as [|fuel IH]; intros lo hi Hb Hf Hbelow Habove i s Hi.
  - cbn [bisect_loop]. assert (lo = hi) by lia. subst hi. split.
    + intro Hlt. eapply Hbelow; eassumption.
    + intro Hle. destruct (Nat.lt_ge_cases i lo) as [|Hge]; [assumption|].
      exfalso. eapply Qlt_not_le; [eapply Habove; eassumption|exact Hle].
  - cbn [bisect_loop]. destruct (Nat.ltb_spec lo hi) as [Hlt|Hge].
    + destruct (midpoint_between lo hi Hlt) as [Hlo Hmid].
      destruct (lookup_lt_is_Some_2 a (Nat.div (lo + hi) 2)) as (m & Hm);
        [lia|].
      rewrite Hm.
      destruct (Qle_bool (timestamp m) x) eqn:E; cbn [negb].
      * apply Qle_bool_iff in E.
        apply IH; try assumption; try lia.
        intros i' s' Hi' Hs'.
        eapply Qle_trans; [|exact E].
        eapply (Hsorted i' (Nat.div (lo + hi) 2)); [lia|eassumption..].
      * apply Qle_bool_false in E.
        apply IH; try assumption; try lia.
        intros i' s' Hi' Hs'.
        eapply Qlt_le_trans; [exact E|].
        eapply (Hsorted (Nat.div (lo + hi) 2) i'); [lia|eassumption..].
    + assert (lo = hi) by lia. subst hi. split.
      * intro Hlt. eapply Hbelow; eassumption.
      * intro Hle. destruct (Nat.lt_ge_cases i lo) as [|Hge']; [assumption|].
        exfalso. eapply Qlt_not_le; [eapply Habove; eassumption|exact Hle].
Qed.

Lemma bisect_sorted (a : list Sample) (x : Q) (i : nat) (s : Sample) :
  sorted_by_timestamp a ->
  a !! i = Some s ->
  ((i < bisect a x)%nat <-> (timestamp s <= x)%Q).
Proof.
  intros Hsorted Hi. unfold bisect.
  apply bisect_loop_sorted; try assumption; try lia.
  intros i' s' Hge Hs'. apply lookup_lt_Some in Hs'. lia.
Qed.

(** The window of [resample] on a buffer in timestamp order: the samples
    whose timestamps are after [lower] and not after [upper]. *)
Lemma islice_bisect_sorted (a : list Sample) (lower upper : Q) (s : Sample) :
  sorted_by_timestamp a ->
  s ∈ islice a (bisect a lower) (bisect a upper)
  <-> s ∈ a /\ (lower < timestamp s)%Q /\ (timestamp s <= upper)%Q.
Proof.
  intro Hsorted. unfold islice.
  rewrite list_elem_of_lookup. split.
  - intros (k & Hk).
    apply lookup_take_Some in Hk as [Hk Hlt].
    rewrite lookup_drop in Hk.
    split; [eapply list_elem_of_lookup_2, Hk|]. split.
    + apply Qnot_le_lt. intro Hle.
      apply (bisect_sorted a lower _ _ Hsorted Hk) in Hle. lia.
    + apply (bisect_sorted a upper _ _ Hsorted Hk). lia.
  - intros ((i & Hi)%list_elem_of_lookup & Hlo & Hup).
    apply (bisect_sorted a upper _ _ Hsorted Hi) in Hup.
    assert (Hge : (bisect a lower <= i)%nat).
    { destruct (Nat.lt_ge_cases i (bisect a lower)) as [Hlt|]; [|assumption].
      apply (bisect_sorted a lower _ _ Hsorted Hi) in Hlt.
      exfalso. exact (Qlt_not_le _ _ Hlo Hlt). }
    exists (i - bisect a lower)%nat.
    apply lookup_take_Some. split; [|lia].
    rewrite lookup_drop. replace (bisect a lower + (i - bisect a lower))%nat
      with i by lia. exact Hi.
Qed.

End Bisect.

(** ** The length of the resampling buffer *)

Section BufferLen.
Import Resampling.
Import _ResamplingHelper.

Lemma newest_all (n : Z) (l : list Sample) :
  (Z.of_nat (length l) <= n)%Z -> newest n l = l.
Proof.
  intro H. unfold newest.
  replace (length l - Z.to_nat n)%nat with 0%nat by lia. reflexivity.
Qed.

Lemma newest_length (n : Z) (l : list Sample) :
  (0 <= n)%Z -> (Z.of_nat (length (newest n l)) <= n)%Z.
Proof. intro H. unfold newest. rewrite length_drop. lia. Qed.

Lemma newest_app (n : Z) (a l : list Sample) :
  (0 <= n)%Z -> newest n (newest n a ++ l) = newest n (a ++ l).
Proof.
  intro Hn. unfold newest. rewrite !length_app, length_drop.
  destruct (Nat.le_gt_cases (length a) (Z.to_nat n)) as [Hle|Hgt].
  - replace (length a - Z.to_nat n)%nat with 0%nat by lia.
    simpl. f_equal. lia.
  - replace (length a - (length a - Z.to_nat n) + length l - Z.to_nat n)%nat
      with (length l) by lia.
    replace (length a + length l - Z.to_nat n)%nat
      with ((length a - Z.to_nat n) + length l)%nat by lia.
    rewrite <- drop_drop. f_equal.
    rewrite drop_app_le by lia. reflexivity.
Qed.

(** [append] keeps the newest samples that fit. *)
Lemma append_items (d : deque) (x : Sample) :
  (0 <= maxlen d)%Z ->
  (deque_len d <= maxlen d)%Z ->
  items (append d x) = newest (maxlen d) (items d ++ [x]).
Proof.
  unfold deque_len, append, newest. intros Hn Hlen. simpl.
  rewrite length_app. simpl.
  destruct (Z.ltb_spec (maxlen d) (Z.of_nat (length (items d) + 1))).
  - replace (length (items d) + 1 - Z.to_nat (maxlen d))%nat with 1%nat
      by lia.
    destruct (items d ++ [x]); reflexivity.
  - replace (length (items d) + 1 - Z.to_nat (maxlen d))%nat with 0%nat
      by lia.
    reflexivity.
Qed.

Lemma fold_append (l : list Sample) (d : deque) :
  (0 <= maxlen d)%Z ->
  (deque_len d <= maxlen d)%Z ->
  fold_left append l d
  = {| items := newest (maxlen d) (items d ++ l); maxlen := maxlen d |}.
Proof.
  revert d. induction l as [|x l IH]; intros d Hn Hlen.
  - simpl. rewrite app_nil_r, newest_all by exact Hlen.
    destruct d; reflexivity.
  - simpl. rewrite IH.
    + change (maxlen (append d x)) with (maxlen d). f_equal.
      rewrite append_items by assumption.
      rewrite newest_app by exact Hn.
      now rewrite <- app_assoc.
    + exact Hn.
    + change (maxlen (append d x)) with (maxlen d). unfold deque_len.
      rewrite append_items by assumption. now apply newest_length.
Qed.

(** [deque(samples, maxlen=n)] holds the newest [n] samples. *)
Lemma deque_new_newest (l : list Sample) (n : Z) :
  (0 <= n)%Z ->
  deque_new l n = Ok {| items := newest n l; maxlen := n |}.
Proof.
  intro Hn. unfold deque_new.
  destruct (Z.ltb_spec n 0); [lia|].
  rewrite fold_append; simpl; [reflexivity|lia|unfold deque_len; simpl; lia].
Qed.

(** What a successful inference of the input period establishes. *)
Lemma inferred_period (self self1 : state) (now : Q) :
  __post_init__ (_config self) = Ok tt ->
  _update_source_sample_period self now = Ok (true, self1) ->
  exists start,
    sampling_start (_source_properties self) = Some start
    /\ (start < now)%Q
    /\ (0 < received_samples (_source_properties self))%Z
    /\ self1 =
         {| _name := _name self;
            _config := _config self;
            _buffer := _buffer self;
            _source_properties :=
              {| sampling_start := Some start;
                 received_samples :=
                   received_samples (_source_properties self);
                 sampling_period_s :=
                   Some ((now - start)
                         / inject_Z
                             (received_samples (_source_properties self)))%Q
              |} |}.
Proof.
  intros Hvalid%post_init_accepts Hupd.
  destruct Hvalid as (HP & HM & _).
  unfold _update_source_sample_period in Hupd.
  destruct (negb (0 <? maxlen (_buffer self))%Z); [discriminate|].
  destruct (sampling_period_s (_source_properties self)); [discriminate|].
  destruct (sampling_start (_source_properties self)) as [start|] eqn:Es;
    [|discriminate].
  destruct (negb (Qle_bool _ _) || _ || Qle_bool now start) eqn:Ec;
    [discriminate|].
  apply orb_false_iff in Ec as [Ec Hnow].
  apply orb_false_iff in Ec as [Hrecv _].
  apply negb_false_iff, Qle_bool_iff in Hrecv.
  apply Qle_bool_false in Hnow.
  destruct (Z.eqb_spec (received_samples (_source_properties self)) 0)
    as [|Hne]; [discriminate|].
  inversion Hupd; subst self1; clear Hupd.
  exists start. repeat split; [exact Hnow|].
  assert (H0 : (0 <= inject_Z (received_samples (_source_properties self)))%Q).
  { eapply Qle_trans; [|exact Hrecv].
    apply Qmult_le_0_compat; [exact HP|].
    eapply Qle_trans; [|exact HM]. discriminate. }
  rewrite <- (Zle_Qle 0) in H0. lia.
Qed.

(** [_update_buffer_len] right after the inference of the input period. *)
Lemma update_buffer_len_inferred (self self1 : state) (now : Q) :
  __post_init__ (_config self) = Ok tt ->
  _update_source_sample_period self now = Ok (true, self1) ->
  exists input_period,
    sampling_period_s (_source_properties self1) = Some input_period
    /\ (0 < input_period)%Q
    /\ (1 <= capacity (_config self1) input_period
           <= max_buffer_len (_config self1))%Z
    /\ _update_buffer_len self1 =
         if (capacity (_config self1) input_period
             =? maxlen (_buffer self1))%Z
         then Ok (false, self1)
         else Ok (true,
                  {| _name := _name self1;
                     _config := _config self1;
                     _buffer :=
                       {| items :=
                            newest (capacity (_config self1) input_period)
                              (items (_buffer self1));
                          maxlen := capacity (_config self1) input_period |};
                     _source_properties := _source_properties self1 |}).
Proof.
  intros Hvalid Hupd.
  destruct (inferred_period self self1 now Hvalid Hupd)
    as (start & Hstart & Hnow & Hrecv & ->).
  apply post_init_accepts in Hvalid.
  destruct Hvalid as (_ & _ & _ & _ & Hwarn & Hmax).
  set (received := received_samples (_source_properties self)) in *.
  set (ip := ((now - start) / inject_Z received)%Q).
  assert (Hip : (0 < ip)%Q).
  { unfold ip. apply Qlt_shift_div_l.
    - rewrite <- (Zlt_Qlt 0). exact Hrecv.
    - rewrite Qmult_0_l. unfold Qminus. rewrite <- Qlt_minus_iff.
      exact Hnow. }
  exists ip. simpl. split; [reflexivity|]. split; [exact Hip|].
  split.
  { unfold capacity, clamp_capacity. lia. }
  unfold _update_buffer_len. simpl. fold received. fold ip.
  unfold capacity, clamp_capacity.
  assert (Hnz : Qeq_bool ip 0 = false).
  { destruct (Qeq_bool ip 0) eqn:E; [|reflexivity].
    apply Qeq_bool_iff in E. rewrite E in Hip.
    exfalso. exact (Qlt_irrefl 0 Hip). }
  destruct (Qle_bool ip (resampling_period_s (_config self))); simpl;
    rewrite ?Hnz; simpl.
  - set (m := Z.max 1 (Qceiling _)).
    replace (if (max_buffer_len (_config self) <? m)%Z
             then max_buffer_len (_config self) else m)
      with (Z.min m (max_buffer_len (_config self)))
      by (destruct (Z.ltb_spec (max_buffer_len (_config self)) m); lia).
    destruct (Z.eqb_spec (Z.min m (max_buffer_len (_config self)))
                (maxlen (_buffer self))); [reflexivity|].
    rewrite deque_new_newest by lia. reflexivity.
  - set (m := Z.max 1 (Qceiling _)).
    replace (if (max_buffer_len (_config self) <? m)%Z
             then max_buffer_len (_config self) else m)
      with (Z.min m (max_buffer_len (_config self)))
      by (destruct (Z.ltb_spec (max_buffer_len (_config self)) m); lia).
    destruct (Z.eqb_spec (Z.min m (max_buffer_len (_config self)))
                (maxlen (_buffer self))); [reflexivity|].
    rewrite deque_new_newest by lia. reflexivity.
Qed.

(** C8, as amended.  When the input period has just been inferred (under
    a configuration that [__post_init__] accepted), the period is
    positive and [_update_buffer_len] aims at [capacity]: the input
    period times [max_data_age_in_periods] if the input period is longer
    than the resampling period, otherwise (also when the two are equal)
    the resampling period divided by the input period, times
    [max_data_age_in_periods]; rounded up and brought into
    [1 .. max_buffer_len].  If that is the current capacity nothing
    changes; otherwise the buffer is rebuilt with the new capacity and
    holds the newest samples that fit. *)
Theorem update_buffer_len_after_inference (self self1 : state) (now : Q) :
  __post_init__ (_config self) = Ok tt ->
  _update_source_sample_period self now = Ok (true, self1) ->
  exists input_period,
    sampling_period_s (_source_properties self1) = Some input_period
    /\ (0 < input_period)%Q
    /\ (1 <= capacity (_config self1) input_period
           <= max_buffer_len (_config self1))%Z
    /\ _update_buffer_len self1 =
         if (capacity (_config self1) input_period
             =? maxlen (_buffer self1))%Z
         then Ok (false, self1)
         else Ok (true,
                  {| _name := _name self1;
                     _config := _config self1;
                     _buffer :=
                       {| items :=
                            newest (capacity (_config self1) input_period)
                              (items (_buffer self1));
                          maxlen := capacity (_config self1) input_period |};
                     _source_properties := _source_properties self1 |}).
Proof. exact (update_buffer_len_inferred self self1 now). Qed.

Lemma update_buffer_len_after_inference_witness :
  __post_init__ (_config Scenarios.helper_after_16) = Ok tt
  /\ _update_source_sample_period Scenarios.helper_after_16 32
     = Ok (true, Scenarios.helper_inferred)
  /\ exists input_period,
       sampling_period_s (_source_properties Scenarios.helper_inferred)
       = Some input_period
       /\ (1 <= capacity (_config Scenarios.helper_inferred) input_period)%Z.
Proof.
  assert (H1 : __post_init__ (_config Scenarios.helper_after_16) = Ok tt)
    by reflexivity.
  assert (H2 : _update_source_sample_period Scenarios.helper_after_16 32
               = Ok (true, Scenarios.helper_inferred))
    by (vm_compute; reflexivity).
  split; [exact H1|]. split; [exact H2|].
  destruct (update_buffer_len_after_inference
              Scenarios.helper_after_16 Scenarios.helper_inferred 32 H1 H2)
    as (ip & Hip & _ & [Hlo _] & _).
  exists ip. split; assumption.
Defined.

(** A source that delivers one sample every two seconds, resampled every
    two seconds with a data age of three periods: the period inferred
    after sixteen samples equals the resampling period, and the buffer is
    rebuilt with [3] slots ([2 / 2 * 3]), not with the [6] ([2 * 3]) of
    the formula for an input period at least the resampling period. *)
Lemma update_buffer_len_equal_periods :
  exists self1 self2 input_period,
    _update_source_sample_period Scenarios.helper_after_16 32
    = Ok (true, self1)
    /\ sampling_period_s (_source_properties self1) = Some input_period
    /\ (resampling_period_s (_config self1) <= input_period)%Q
    /\ _update_buffer_len self1 = Ok (true, self2)
    /\ maxlen (_buffer self2) = 3%Z
    /\ spec_capacity (_config self1) input_period = 6%Z
    /\ maxlen (_buffer self2) <> spec_capacity (_config self1) input_period.
Proof.
  do 3 eexists.
  split; [vm_compute; reflexivity|].
  split; [reflexivity|].
  split; [vm_compute; discriminate|].
  split; [vm_compute; reflexivity|].
  split; [reflexivity|].
  split; [vm_compute; reflexivity|].
  vm_compute. discriminate.
Qed.

End BufferLen.

(** ** The loop of the power distributing actor *)

Section Exceptions.

Lemma bind_Ok {A B : Type} (c : res A) (k : A -> res B) (b : B) :
  bind c k = Ok b -> exists a, c = Ok a /\ k a = Ok b.
Proof. destruct c; simpl; [eauto|discriminate]. Qed.

Lemma bind_Raise {A B : Type} (c : res A) (k : A -> res B) (e : Exn) :
  bind c k = Raise e -> c = Raise e \/ exists a, c = Ok a /\ k a = Raise e.
Proof. destruct c; simpl; [eauto|]. intro H. left. congruence. Qed.

Lemma for_each_Ok {A B : Type} (f : A -> res B) (xs : list A) (ys : list B) :
  for_each f xs = Ok ys -> Forall2 (fun x y => f x = Ok y) xs ys.
Proof.
  revert ys. induction xs as [|x xs IH]; simpl; intros ys H.
  - inversion H. constructor.
  - apply bind_Ok in H as (y & Hy & H).
    apply bind_Ok in H as (ys' & Hys & H).
    inversion H; subst. constructor; [exact Hy|]. apply IH, Hys.
Qed.

Lemma for_each_Raise {A B : Type} (f : A -> res B) (xs : list A) (e : Exn) :
  for_each f xs = Raise e -> exists x, x ∈ xs /\ f x = Raise e.
Proof.
  induction xs as [|x xs IH]; simpl; intro H; [discriminate|].
  apply bind_Raise in H as [H|(y & Hy & H)].
  - exists x. split; [left|exact H].
  - apply bind_Raise in H as [H|(ys & _ & H)]; [|discriminate].
    destruct (IH H) as (x' & Hin & Hx'). exists x'. split; [now right|exact Hx'].
Qed.

Lemma for_each_total {A B : Type} (f : A -> res B) (xs : list A) :
  (forall x, x ∈ xs -> exists y, f x = Ok y) ->
  exists ys, for_each f xs = Ok ys.
Proof.
  induction xs as [|x xs IH]; simpl; intro H; [eauto|].
  destruct (H x) as (y & ->); [left|].
  destruct IH as (ys & ->); [intros; apply H; now right|].
  simpl. eauto.
Qed.

Lemma getitem_Ok {V : Type} (m : gmap Z V) (k : Z) (v : V) :
  getitem m k = Ok v <-> m !! k = Some v.
Proof.
  unfold getitem. destruct (m !! k); split; intro H; inversion H; reflexivity.
Qed.

Lemma getitem_Raise {V : Type} (m : gmap Z V) (k : Z) (e : Exn) :
  getitem m k = Raise e -> e = KeyError (msg_key k) /\ m !! k = None.
Proof.
  unfold getitem. destruct (m !! k); intro H; inversion H. auto.
Qed.

End Exceptions.

Section RunRequest.
Import PowerDistributing.

Lemma get_all_from_map_Raise (source : gmap Z (gset Z)) (ks : gset Z) (e : Exn) :
  _get_all_from_map source ks = Raise e -> exists m, e = KeyError m.
Proof.
  unfold _get_all_from_map. intros [H|(vs & _ & H)]%bind_Raise; [|discriminate].
  apply for_each_Raise in H as (k & _ & [-> _]%getitem_Raise). eauto.
Qed.

Lemma get_all_from_map_Ok (source : gmap Z (gset Z)) (ks s : gset Z) :
  _get_all_from_map source ks = Ok s ->
  ks ⊆ dom source
  /\ forall x, x ∈ s <-> exists k v, k ∈ ks /\ source !! k = Some v /\ x ∈ v.
Proof.
  unfold _get_all_from_map. intros (vs & Hvs & H)%bind_Ok.
  inversion H; subst s; clear H. apply for_each_Ok in Hvs.
  assert (Hks : forall k, k ∈ ks <-> k ∈ elements ks)
    by (intro; now rewrite elem_of_elements).
  revert Hvs Hks. generalize (elements ks). intros l Hvs Hvs'.
  assert (Hl : forall k, k ∈ l -> exists v, source !! k = Some v /\ v ∈ vs).
  { clear Hvs'. induction Hvs as [|k v l vs Hk _ IH]; intros k' Hin.
    - inversion Hin.
    - apply elem_of_cons in Hin as [->|Hin].
      + exists v. split; [now apply getitem_Ok|left].
      + destruct (IH k' Hin) as (v' & ? & ?). exists v'. split; [auto|now right]. }
  assert (Hv : forall v, v ∈ vs -> exists k, k ∈ l /\ source !! k = Some v).
  { clear Hvs' Hl. induction Hvs as [|k v l vs Hk _ IH]; intros v' Hin.
    - inversion Hin.
    - apply elem_of_cons in Hin as [->|Hin].
      + exists k. split; [left|now apply getitem_Ok].
      + destruct (IH v' Hin) as (k' & ? & ?). exists k'. split; [now right|auto]. }
  split.
  - intros k Hk. apply Hvs', Hl in Hk as (v & Hv' & _).
    apply elem_of_dom. eauto.
  - intro x. rewrite elem_of_union_list. split.
    + intros (v & Hin & Hx). destruct (Hv v Hin) as (k & Hk & Hsrc).
      exists k, v. rewrite Hvs'. auto.
    + intros (k & v & Hk & Hsrc & Hx). apply Hvs', Hl in Hk as (v' & Hv' & Hin).
      exists v'. split; [exact Hin|]. congruence.
Qed.

(** What [_check_request] can answer. *)
Lemma check_request_answers (self : Actor) (request : Request)
    (pairs_data : list InvBatPair) (r : Result) :
  _check_request self request pairs_data = Some r ->
  (exists m, r = Error request m)
  \/ r = OutOfBounds request (_get_bounds pairs_data).
Proof.
  unfold _check_request.
  repeat match goal with
         | |- context [if ?b then _ else _] => destruct b
         | |- context [match ?o with Some _ => _ | None => _ end] => destruct o
         end; intro H; inversion H; eauto.
Qed.

(** The ways through the body of the loop. *)
Lemma run_request_cases (self : Actor) (request : Request)
    (effects : list Effect) :
  _run_request self request = Ok effects ->
  (exists m, effects = [send_awaited (Error request m)])
  \/ (exists pairs_data,
        _get_components_data self (batteries request) = Ok pairs_data
        /\ pairs_data <> []
        /\ effects =
             [send_awaited (OutOfBounds request (_get_bounds pairs_data))]
        /\ _check_request self request pairs_data
           = Some (OutOfBounds request (_get_bounds pairs_data)))
  \/ (exists d failed_power failed_batteries battery_distribution,
        distributed self request d failed_power failed_batteries
        /\ battery_distribution_of self (map_to_list (distribution d)) ∅
           = Ok battery_distribution
        /\ effects =
             [ set_power_awaited (map_to_list (distribution d))
                 (request_timeout request);
               gather_not_awaited
                 (if Nat.ltb 0 (size failed_batteries)
                  then dom battery_distribution ∖ failed_batteries
                  else dom battery_distribution)
                 failed_batteries
                 (if Nat.ltb 0 (size failed_batteries)
                  then PartialFailure request
                         (fsub (fsub (power request) (remaining_power d))
                            failed_power)
                         (dom battery_distribution ∖ failed_batteries)
                         failed_power failed_batteries (remaining_power d)
                  else Success request
                         (fsub (power request) (remaining_power d))
                         (dom battery_distribution) (remaining_power d)) ]).
Proof.
  unfold _run_request.
  destruct (_get_components_data self (batteries request))
    as [pairs_data|e] eqn:Hdata.
  2:{ destruct e; intro H; inversion H. left. eauto. }
  destruct pairs_data as [|p ps].
  { intro H; inversion H. left. eauto. }
  cbv iota.
  assert (Hne : p :: ps <> []) by discriminate.
  revert Hdata Hne. generalize (p :: ps). intros pairs_data Hdata Hne.
  destruct (_check_request self request pairs_data) as [r|] eqn:Hcheck.
  { intro H; inversion H; subst effects.
    destruct (check_request_answers _ _ _ _ Hcheck) as [(m & ->)| ->].
    - left. eauto.
    - right. left. exists pairs_data. auto. }
  destruct (_get_power_distribution self request pairs_data) as [d|e] eqn:Hd.
  2:{ destruct e; intro H; inversion H. left. eauto. }
  intros (bd & Hbd & H)%bind_Ok.
  apply bind_Ok in H as ([fp fb] & Hset & H).
  right. right. exists d, fp, fb, bd.
  split; [exists pairs_data; auto|]. split; [exact Hbd|].
  destruct (Nat.ltb 0 (size fb)); inversion H; reflexivity.
Qed.

(** The keys of [battery_distribution] are the batteries behind the
    commanded inverters. *)
Lemma fold_insert_dom (g : gmap Z pyfloat -> Z -> pyfloat) (l : list Z)
    (acc : gmap Z pyfloat) :
  dom (fold_left (fun acc b => <[ b := g acc b ]> acc) l acc)
  = dom acc ∪ list_to_set l.
Proof.
  revert acc. induction l as [|b l IH]; intro acc; simpl.
  - set_solver.
  - rewrite IH, dom_insert_L. set_solver.
Qed.

Lemma battery_distribution_dom (self : Actor) (items : list (Z * pyfloat))
    (acc bd : gmap Z pyfloat) :
  battery_distribution_of self items acc = Ok bd ->
  dom bd
  = dom acc ∪ ⋃ (omap (fun kv => _inv_bats_map self !! fst kv) items).
Proof.
  revert acc. induction items as [|[i dist] items IH]; intros acc; simpl.
  - intro H; inversion H. set_solver.
  - intros (bats & Hb%getitem_Ok & H)%bind_Ok.
    apply IH in H. rewrite H, Hb. simpl.
    rewrite (fold_insert_dom (fun acc b => fadd (default (Fin 0) (acc !! b)) dist)).
    rewrite list_to_set_elements_L. set_solver.
Qed.

Lemma fsub_fadd_back (p r : pyfloat) :
  isnan (fsub p r) = false -> feq (fadd (fsub p r) r) p.
Proof.
  destruct p, r; simpl; try discriminate. intros _. ring.
Qed.

Lemma fsub_fsub_fadd_back (p r f : pyfloat) :
  isnan (fsub (fsub p r) f) = false ->
  feq (fadd (fadd (fsub (fsub p r) f) f) r) p.
Proof.
  destruct p, r, f; simpl; try discriminate. intros _. ring.
Qed.

Lemma size_positive_nonempty (s : gset Z) :
  Nat.ltb 0 (size s) = true <-> s <> ∅.
Proof.
  rewrite Nat.ltb_lt. split.
  - intros H ->. rewrite size_empty in H. lia.
  - intro H. destruct (size s) eqn:E; [|lia].
    apply size_empty_inv in E. exfalso. apply H. now apply leibniz_equiv.
Qed.

(** C3.  Of a request that passes through the loop: a [Success] carries
    [succeeded_power + excess_power = request.power] and is sent when no
    battery failed, with the batteries of the distribution as succeeded;
    a [PartialFailure] carries [succeeded_power + failed_power +
    excess_power = request.power] and is sent when some battery failed,
    with the batteries of the distribution minus the failed ones as
    succeeded; and a distributed request is answered by [Success] if
    [failed_batteries] is empty and by [PartialFailure] otherwise.  (The
    sums are stated for powers that are numbers; they are exact here.) *)
Theorem result_accounting (self : Actor) (request : Request)
    (effects : list Effect) :
  _run_request self request = Ok effects ->
  (forall r, In r (sent_results effects) ->
     match r with
     | Success q sp sb ep =>
         q = request
         /\ (isnan sp = false -> feq (fadd sp ep) (power request))
         /\ exists d fp,
              distributed self request d fp ∅
              /\ sb = distribution_batteries self d
     | PartialFailure q sp sb fp fb ep =>
         q = request
         /\ (isnan sp = false -> feq (fadd (fadd sp fp) ep) (power request))
         /\ fb <> ∅
         /\ exists d,
              distributed self request d fp fb
              /\ sb = distribution_batteries self d ∖ fb
     | _ => True
     end)
  /\ (forall d fp fb,
        distributed self request d fp fb ->
        exists r,
          sent_results effects = [r]
          /\ (fb = ∅ -> exists sp sb ep, r = Success request sp sb ep)
          /\ (fb <> ∅ ->
              exists sp sb ep, r = PartialFailure request sp sb fp fb ep)).
Proof.
  intro Hrun. split.
  - intros r Hin.
    destruct (run_request_cases _ _ _ Hrun)
      as [(m & ->)|[(ps & _ & _ & -> & _)|(d & fp & fb & bd & Hd & Hbd & ->)]].
    + simpl in Hin. destruct Hin as [<-|[]]. exact I.
    + simpl in Hin. destruct Hin as [<-|[]]. exact I.
    + apply battery_distribution_dom in Hbd.
      rewrite dom_empty_L, (left_id_L ∅ (∪)) in Hbd.
      fold (distribution_batteries self d) in Hbd.
      simpl in Hin. destruct Hin as [<-|[]].
      destruct (Nat.ltb 0 (size fb)) eqn:Hfb.
      * apply size_positive_nonempty in Hfb.
        split; [reflexivity|]. split; [apply fsub_fsub_fadd_back|].
        split; [exact Hfb|]. exists d. rewrite Hbd. auto.
      * assert (fb = ∅) as ->.
        { destruct (decide (fb = ∅)) as [|Hne]; [assumption|].
          apply size_positive_nonempty in Hne. congruence. }
        split; [reflexivity|]. split; [apply fsub_fadd_back|].
        exists d, fp. rewrite Hbd. auto.
  - intros d fp fb (ps & Hps & Hne & Hcheck & Hd & Hset).
    unfold _run_request in Hrun. rewrite Hps in Hrun.
    destruct ps as [|p ps]; [congruence|]. rewrite Hcheck, Hd in Hrun.
    apply bind_Ok in Hrun as (bd & _ & Hrun). rewrite Hset in Hrun.
    simpl in Hrun.
    destruct (Nat.ltb 0 (size fb)) eqn:Hfb; inversion Hrun; subst effects;
      simpl; eexists; (split; [reflexivity|]); split; intro Hfb'.
    + subst fb. rewrite size_empty in Hfb. discriminate.
    + eauto.
    + eauto.
    + apply size_positive_nonempty in Hfb'. congruence.
Qed.

Lemma result_accounting_witness :
  let self := Scenarios.two_batteries Scenarios.second_hangs in
  let request := Scenarios.request_for {[ 1; 2 ]} 400 false in
  let effects := Scenarios.effects_of (_run_request self request) in
  _run_request self request = Ok effects
  /\ forall d fp fb,
       distributed self request d fp fb ->
       exists r,
         sent_results effects = [r]
         /\ (fb = ∅ -> exists sp sb ep, r = Success request sp sb ep)
         /\ (fb <> ∅ ->
             exists sp sb ep, r = PartialFailure request sp sb fp fb ep).
Proof.
  intros self request effects.
  assert (H : _run_request self request = Ok effects)
    by (vm_compute; reflexivity).
  split; [exact H|].
  exact (proj2 (result_accounting self request effects H)).
Defined.

Lemma for_each_Ok_elem {A B : Type} (f : A -> res B) (xs : list A)
    (ys : list B) (x : A) :
  for_each f xs = Ok ys -> x ∈ xs -> exists y, f x = Ok y.
Proof.
  intros H%for_each_Ok Hx. induction H as [|x' y xs ys Hxy _ IH].
  - inversion Hx.
  - apply elem_of_cons in Hx as [->|Hx]; [eauto|auto].
Qed.

Lemma get_all_from_map_missing (source : gmap Z (gset Z)) (ks : gset Z)
    (e : Exn) :
  _get_all_from_map source ks = Raise e ->
  exists k, k ∈ ks /\ source !! k = None /\ e = KeyError (msg_key k).
Proof.
  unfold _get_all_from_map. intros [H|(vs & _ & H)]%bind_Raise; [|discriminate].
  apply for_each_Raise in H as (k & Hk%elem_of_elements & Hget).
  apply getitem_Raise in Hget as [-> Hnone]. eauto.
Qed.

(** What the loop does with a [KeyError] of [_get_components_data]: it
    sends one [Error] with its message and goes on with the next
    request. *)
Lemma components_data_KeyError_loop (self : Actor) (request : Request)
    (m : ErrorMsg) :
  _get_components_data self (batteries request) = Raise (KeyError m) ->
  _run_request self request = Ok [send_awaited (Error request m)]
  /\ forall rest,
       _run ((self, request) :: rest)
       = (send_awaited (Error request m) :: fst (_run rest),
          snd (_run rest)).
Proof.
  intro Hdata.
  assert (Hrun : _run_request self request
                 = Ok [send_awaited (Error request m)])
    by (unfold _run_request; now rewrite Hdata).
  split; [exact Hrun|]. intro rest. cbn [_run]. rewrite Hrun.
  now destruct (_run rest).
Qed.

(** C2, as amended.  A request whose batteries, expanded through the
    topology (their inverters, then the batteries of those inverters), give
    another set than the requested one is not distributed:
    [_get_components_data] raises a [KeyError], the body of the loop sends
    one [Error] with the message of that [KeyError] and does nothing else,
    and the loop goes on with the next request.  The [KeyError] is the one
    that names the inverters and the extra batteries when every working
    battery of the request has a receiver and every extra battery is a key
    of the battery-to-inverters map; it is the [KeyError] of an extra
    battery that is no such key when the receivers are there; and it is
    the one about a working battery without a receiver otherwise. *)
Theorem leaking_request_refused (self : Actor) (request : Request)
    (connected_inverters batteries_from_inverters : gset Z) :
  _get_all_from_map (_bat_invs_map self) (batteries request)
  = Ok connected_inverters ->
  _get_all_from_map (_inv_bats_map self) connected_inverters
  = Ok batteries_from_inverters ->
  batteries_from_inverters <> batteries request ->
  let working_batteries := get_working_batteries self (batteries request) in
  let extra_batteries := batteries_from_inverters ∖ batteries request in
  exists m,
    _get_components_data self (batteries request) = Raise (KeyError m)
    /\ _run_request self request = Ok [send_awaited (Error request m)]
    /\ (forall rest,
          _run ((self, request) :: rest)
          = (send_awaited (Error request m) :: fst (_run rest),
             snd (_run rest)))
    /\ (working_batteries ⊆ dom (_battery_receivers self) ->
        extra_batteries ⊆ dom (_bat_invs_map self) ->
        exists inverters,
          _get_all_from_map (_bat_invs_map self) extra_batteries
          = Ok inverters
          /\ m = msg_not_requested inverters extra_batteries)
    /\ (working_batteries ⊆ dom (_battery_receivers self) ->
        ~ extra_batteries ⊆ dom (_bat_invs_map self) ->
        exists battery,
          battery ∈ extra_batteries
          /\ _bat_invs_map self !! battery = None
          /\ m = msg_key battery)
    /\ (~ working_batteries ⊆ dom (_battery_receivers self) ->
        exists battery,
          battery ∈ working_batteries
          /\ _battery_receivers self !! battery = None
          /\ m = msg_no_battery battery (keys (_battery_receivers self))).
Proof.
  intros Hinv Hbat Hne. cbv zeta.
  destruct (for_each
              (fun battery_id =>
                 if contains (_battery_receivers self) battery_id then Ok tt
                 else Raise (KeyError
                               (msg_no_battery battery_id
                                  (keys (_battery_receivers self)))))
              (elements (get_working_batteries self (batteries request))))
    as [u|e] eqn:Hw.
  - assert (Hrecv : get_working_batteries self (batteries request)
                    ⊆ dom (_battery_receivers self)).
    { intros b Hb%elem_of_elements.
      destruct (for_each_Ok_elem _ _ _ b Hw Hb) as (y & Hy).
      unfold contains in Hy. apply elem_of_dom.
      destruct (_battery_receivers self !! b); [eauto|discriminate]. }
    destruct (_get_all_from_map (_bat_invs_map self)
                (batteries_from_inverters ∖ batteries request))
      as [inverters|e] eqn:Hextra.
    + exists (msg_not_requested inverters
                (batteries_from_inverters ∖ batteries request)).
      assert (Hdata : _get_components_data self (batteries request)
                      = Raise (KeyError
                                 (msg_not_requested inverters
                                    (batteries_from_inverters
                                     ∖ batteries request)))).
      { unfold _get_components_data. rewrite Hw.
        simpl. rewrite Hinv. simpl. rewrite Hbat. simpl.
        rewrite bool_decide_eq_true_2 by exact Hne. now rewrite Hextra. }
      split; [exact Hdata|].
      destruct (components_data_KeyError_loop _ _ _ Hdata) as [Hrun Hrest].
      split; [exact Hrun|]. split; [exact Hrest|]. split; [|split].
      * intros _ _. exists inverters. split; reflexivity.
      * intros _ Hmissing. exfalso.
        apply Hmissing, (get_all_from_map_Ok _ _ _ Hextra).
      * intros Hmissing. contradiction.
    + destruct (get_all_from_map_missing _ _ _ Hextra)
        as (k & Hk & Hnone & ->).
      exists (msg_key k).
      assert (Hdata : _get_components_data self (batteries request)
                      = Raise (KeyError (msg_key k))).
      { unfold _get_components_data. rewrite Hw.
        simpl. rewrite Hinv. simpl. rewrite Hbat. simpl.
        rewrite bool_decide_eq_true_2 by exact Hne. now rewrite Hextra. }
      split; [exact Hdata|].
      destruct (components_data_KeyError_loop _ _ _ Hdata) as [Hrun Hrest].
      split; [exact Hrun|]. split; [exact Hrest|]. split; [|split].
      * intros _ Hsub. exfalso.
        apply Hsub, elem_of_dom in Hk as (v & Hv). congruence.
      * intros _ _. exists k. auto.
      * intros Hmissing. contradiction.
  - pose proof Hw as Hraise.
    apply for_each_Raise in Hraise as (b & Hb%elem_of_elements & Hraise).
    unfold contains in Hraise.
    destruct (_battery_receivers self !! b) eqn:Hnone; [discriminate|].
    simpl in Hraise. inversion Hraise; subst e; clear Hraise.
    exists (msg_no_battery b (keys (_battery_receivers self))).
    assert (Hdata : _get_components_data self (batteries request)
                    = Raise (KeyError
                               (msg_no_battery b
                                  (keys (_battery_receivers self))))).
    { unfold _get_components_data. now rewrite Hw. }
    split; [exact Hdata|].
    destruct (components_data_KeyError_loop _ _ _ Hdata) as [Hrun Hrest].
    split; [exact Hrun|]. split; [exact Hrest|]. split; [|split].
    + intros Hsub _. exfalso.
      apply Hsub, elem_of_dom in Hb as (v & Hv). congruence.
    + intros Hsub _. exfalso.
      apply Hsub, elem_of_dom in Hb as (v & Hv). congruence.
    + intros _. exists b. auto.
Qed.

Lemma leaking_request_refused_witness :
  let self := Scenarios.shared_inverter in
  let request := Scenarios.request_for {[ 1 ]} 100 false in
  _get_all_from_map (_bat_invs_map self) (batteries request) = Ok {[ 101 ]}
  /\ _get_all_from_map (_inv_bats_map self) {[ 101 ]} = Ok {[ 1; 2 ]}
  /\ ({[ 1; 2 ]} : gset Z) <> batteries request
  /\ get_working_batteries self (batteries request)
     ⊆ dom (_battery_receivers self)
  /\ ({[ 1; 2 ]} : gset Z) ∖ batteries request ⊆ dom (_bat_invs_map self)
  /\ exists inverters,
       _get_components_data self (batteries request)
       = Raise (KeyError
                  (msg_not_requested inverters
                     ({[ 1; 2 ]} ∖ batteries request)))
       /\ _run_request self request
          = Ok [send_awaited
                  (Error request
                     (msg_not_requested inverters
                        ({[ 1; 2 ]} ∖ batteries request)))].
Proof.
  intros self request.
  assert (H1 : _get_all_from_map (_bat_invs_map self) (batteries request)
               = Ok {[ 101 ]})
    by (vm_compute; reflexivity).
  assert (H2 : _get_all_from_map (_inv_bats_map self) {[ 101 ]}
               = Ok {[ 1; 2 ]})
    by (vm_compute; reflexivity).
  assert (H3 : ({[ 1; 2 ]} : gset Z) <> batteries request)
    by (vm_compute; discriminate).
  assert (H4 : get_working_batteries self (batteries request)
               ⊆ dom (_battery_receivers self))
    by (apply (bool_decide_unpack _); vm_compute; exact I).
  assert (H5 : ({[ 1; 2 ]} : gset Z) ∖ batteries request
               ⊆ dom (_bat_invs_map self))
    by (apply (bool_decide_unpack _); vm_compute; exact I).
  split; [exact H1|]. split; [exact H2|]. split; [exact H3|].
  split; [exact H4|]. split; [exact H5|].
  destruct (leaking_request_refused self request _ _ H1 H2 H3)
    as (m & Hdata & Hrun & _ & Hnamed & _).
  destruct (Hnamed H4 H5) as (inverters & _ & ->).
  exists inverters. split; assumption.
Defined.

(** Batteries 1 and 2 share inverter 101.  A request for battery 1 alone
    expands to both batteries; it is answered with an [Error] that names
    inverter 101 and battery 2, and no power is set. *)
Lemma leaking_request_gets_error :
  let request := Scenarios.request_for {[ 1 ]} 100 false in
  _get_all_from_map (_bat_invs_map Scenarios.shared_inverter)
    (batteries request) = Ok {[ 101 ]}
  /\ _get_all_from_map (_inv_bats_map Scenarios.shared_inverter) {[ 101 ]}
     = Ok {[ 1; 2 ]}
  /\ ({[ 1; 2 ]} : gset Z) <> batteries request
  /\ _run_request Scenarios.shared_inverter request
     = Ok [send_awaited
             (Error request (msg_not_requested {[ 101 ]} {[ 2 ]}))].
Proof.
  intro request.
  split; [vm_compute; reflexivity|].
  split; [vm_compute; reflexivity|].
  split; [vm_compute; discriminate|].
  vm_compute. reflexivity.
Qed.

(** Which sends the loop waits for: those of [Error] and [OutOfBounds],
    and not the one of a request that was distributed. *)
Lemma awaited_or_distributed (self : Actor) (request : Request)
    (effects : list Effect) :
  _run_request self request = Ok effects ->
  (awaited_results effects = sent_results effects
   /\ forall d fp fb, ~ distributed self request d fp fb)
  \/ (awaited_results effects = []
      /\ exists d fp fb, distributed self request d fp fb).
Proof.
  intros Hrun.
  destruct (run_request_cases _ _ _ Hrun)
    as [(m & ->)|[(ps & Hps & Hne & -> & Hc)|(d & fp & fb & bd & Hd & _ & ->)]].
  - left. split; [reflexivity|].
    intros d fp fb (ps & Hps & Hne & Hcheck & Hd & Hset).
    unfold _run_request in Hrun. rewrite Hps in Hrun.
    destruct ps as [|p ps]; [congruence|]. rewrite Hcheck, Hd in Hrun.
    apply bind_Ok in Hrun as (bd & _ & Hrun). rewrite Hset in Hrun.
    simpl in Hrun. destruct (Nat.ltb 0 (size fb)); discriminate.
  - left. split; [reflexivity|].
    intros d fp fb (ps' & Hps' & _ & Hcheck & _).
    rewrite Hps in Hps'. inversion Hps'; subst ps'. congruence.
  - right. split; [reflexivity|]. eauto.
Qed.

(** C7.  Both batteries answer a request for 400 W: the fan-out is
    awaited, but the [Success] is handed to [asyncio.gather] without
    [await], so the loop goes on to the next request without waiting for
    the result to be sent; among the results sent, none is awaited. *)
Theorem success_send_not_awaited :
  let self := Scenarios.two_batteries Scenarios.all_respond in
  let request := Scenarios.request_for {[ 1; 2 ]} 400 false in
  exists commands succeeded response,
    _run_request self request
    = Ok [ set_power_awaited commands (request_timeout request);
           gather_not_awaited succeeded ∅ response ]
    /\ response = Success request (Scenarios.W 400) {[ 1; 2 ]} (Fin 0)
    /\ sent_results (Scenarios.effects_of (_run_request self request))
       = [response]
    /\ awaited_results (Scenarios.effects_of (_run_request self request))
       = [].
Proof.
  intros self request. do 3 eexists.
  split; [vm_compute; reflexivity|].
  split; [reflexivity|].
  split; vm_compute; reflexivity.
Qed.

End RunRequest.

(** ** The loop in well-formed surroundings *)

Section WellFormed.
Import PowerDistributing.

Lemma omap_id_all_some {A : Type} (l : list (option A)) :
  forallb is_some l = true -> length (omap id l) = length l.
Proof.
  induction l as [|[a|] l IH]; simpl; intro H; [reflexivity| |discriminate].
  f_equal. apply IH, H.
Qed.

Lemma battery_inverter_data_Raise (self : Actor) (bids iids : gset Z) (e : Exn) :
  _get_battery_inverter_data self bids iids = Raise e -> exists m, e = KeyError m.
Proof.
  unfold _get_battery_inverter_data.
  intros [H|(bdn & _ & H)]%bind_Raise.
  { apply for_each_Raise in H as (k & _ & [-> _]%getitem_Raise). eauto. }
  apply bind_Raise in H as [H|(idn & _ & H)].
  { apply for_each_Raise in H as (k & _ & [-> _]%getitem_Raise). eauto. }
  repeat match type of H with
         | (if ?b then _ else _) = _ => destruct b
         end; discriminate.
Qed.

(** A pair that [_get_battery_inverter_data] returns: its battery is the
    aggregate of the data of the given batteries, in the order of the set,
    and it has one inverter datum for each given inverter. *)
Lemma battery_inverter_data_Some (self : Actor) (bids iids : gset Z)
    (pair : InvBatPair) :
  _get_battery_inverter_data self bids iids = Ok (Some pair) ->
  exists bds,
    Forall2 (fun b d => _battery_receivers self !! b = Some (Some d))
      (elements bids) bds
    /\ battery pair = aggregated_battery_data bds
    /\ length (inverter pair) = length (elements iids).
Proof.
  unfold _get_battery_inverter_data.
  intros (bdn & Hb%for_each_Ok & H)%bind_Ok.
  apply bind_Ok in H as (idn & Hi%for_each_Ok & H).
  destruct (forallb is_some bdn) eqn:Eb; [|discriminate].
  destruct (forallb is_some idn) eqn:Ei; [|discriminate].
  simpl in H.
  destruct (nan_metric_in_list (omap id bdn) crucial_metrics_bat);
    [discriminate|].
  destruct (nan_metric_in_list (omap id idn) crucial_metrics_inv);
    [discriminate|].
  inversion H; subst pair; clear H. simpl.
  exists (omap id bdn). split; [|split; [reflexivity|]].
  - clear Hi Ei. induction Hb as [|b [d|] bs bdn Hd _ IH]; simpl in *.
    + constructor.
    + constructor; [now apply getitem_Ok|]. apply IH, Eb.
    + discriminate.
  - rewrite omap_id_all_some by exact Ei.
    symmetry. eapply Forall2_length, Hi.
Qed.

Lemma elements_nonempty (s : gset Z) : s <> ∅ -> elements s <> [].
Proof.
  intros Hne He. apply Hne. apply elements_empty_inv in He.
  now apply leibniz_equiv.
Qed.

Lemma pair_of_battery_set_Raise (self : Actor) (bids : gset Z) (e : Exn) :
  well_formed self -> bids <> ∅ ->
  pair_of_battery_set self bids = Raise e -> exists m, e = KeyError m.
Proof.
  intros Hwf Hne. unfold pair_of_battery_set.
  destruct (elements bids) as [|b0 rest] eqn:El.
  { exfalso. now apply (elements_nonempty bids). }
  simpl. intros [H|(iids & Hiids%getitem_Ok & H)]%bind_Raise.
  { apply getitem_Raise in H as [-> _]. eauto. }
  apply bind_Raise in H as [H|(data & Hdata & H)].
  { eapply battery_inverter_data_Raise, H. }
  destruct data as [pair|]; [|discriminate].
  apply battery_inverter_data_Some in Hdata as (_ & _ & _ & Hlen).
  assert (Hi : iids <> ∅)
    by exact (wf_bat_invs_nonempty self Hwf b0 iids Hiids).
  apply elements_nonempty in Hi.
  destruct (elements iids); [congruence|].
  rewrite Hlen in H. discriminate.
Qed.

Lemma pair_of_battery_set_id (self : Actor) (bids : gset Z) (pair : InvBatPair) :
  well_formed self ->
  pair_of_battery_set self bids = Ok (Some pair) ->
  component_id (battery pair) ∈ dom (_bat_bats_map self).
Proof.
  intros Hwf. unfold pair_of_battery_set.
  destruct (elements bids) as [|b0 rest] eqn:El; [discriminate|].
  simpl. intros (iids & _ & H)%bind_Ok.
  apply bind_Ok in H as (data & Hdata & H).
  destruct data as [pair'|]; [|discriminate].
  destruct (Nat.ltb 0 (length (inverter pair'))); [|discriminate].
  inversion H; subst pair'; clear H.
  apply battery_inverter_data_Some in Hdata as (bds & Hb & -> & _).
  rewrite El in Hb. inversion Hb as [|? d ? bds' Hd _]; subst. simpl.
  assert (Hid := wf_receivers_ids self Hwf b0 (Some d) Hd). simpl in Hid.
  rewrite Hid. apply (wf_receivers_known self Hwf).
  apply elem_of_dom. eauto.
Qed.

Lemma Forall2_elem_r {A B : Type} (R : A -> B -> Prop) (xs : list A)
    (ys : list B) (y : B) :
  Forall2 R xs ys -> y ∈ ys -> exists x, x ∈ xs /\ R x y.
Proof.
  induction 1 as [|x y' xs ys Hxy _ IH]; intro Hin.
  - inversion Hin.
  - apply elem_of_cons in Hin as [->|Hin].
    + exists x. split; [left|exact Hxy].
    + destruct (IH Hin) as (x' & ? & ?). exists x'. split; [now right|auto].
Qed.

Lemma get_components_data_Raise (self : Actor) (bs : gset Z) (e : Exn) :
  well_formed self ->
  _get_components_data self bs = Raise e -> exists m, e = KeyError m.
Proof.
  intros Hwf. unfold _get_components_data.
  intros [H|(u & _ & H)]%bind_Raise.
  { apply for_each_Raise in H as (b & _ & Hb).
    destruct (contains (_battery_receivers self) b); inversion Hb. eauto. }
  apply bind_Raise in H as [H|(ci & _ & H)].
  { eapply get_all_from_map_Raise, H. }
  apply bind_Raise in H as [H|(bfi & _ & H)].
  { eapply get_all_from_map_Raise, H. }
  destruct (bool_decide (bfi <> bs)).
  { apply bind_Raise in H as [H|(invs & _ & H)].
    - eapply get_all_from_map_Raise, H.
    - inversion H. eauto. }
  apply bind_Raise in H as [H|(sets & Hsets%for_each_Ok & H)].
  { apply for_each_Raise in H as (k & _ & [-> _]%getitem_Raise). eauto. }
  apply bind_Raise in H as [H|(data & _ & H)]; [|discriminate].
  apply for_each_Raise in H as (bids & Hin & H).
  apply elem_of_elements, elem_of_list_to_set in Hin.
  destruct (Forall2_elem_r _ _ _ _ Hsets Hin) as (wb & _ & Hwb%getitem_Ok).
  eapply pair_of_battery_set_Raise; [exact Hwf| |exact H].
  exact (wf_bat_bats_nonempty self Hwf wb bids Hwb).
Qed.

Lemma get_components_data_Ok (self : Actor) (bs : gset Z)
    (pairs : list InvBatPair) :
  _get_components_data self bs = Ok pairs ->
  bs ⊆ dom (_bat_invs_map self)
  /\ (pairs <> [] -> bs <> ∅)
  /\ (well_formed self ->
      Forall (fun pair => component_id (battery pair)
                          ∈ dom (_bat_bats_map self)) pairs).
Proof.
  unfold _get_components_data.
  intros (u & _ & H)%bind_Ok.
  apply bind_Ok in H as (ci & Hci & H).
  apply bind_Ok in H as (bfi & _ & H).
  destruct (bool_decide (bfi <> bs)).
  { apply bind_Ok in H as (invs & _ & H). discriminate. }
  apply bind_Ok in H as (sets & Hsets & H).
  apply bind_Ok in H as (data & Hdata%for_each_Ok & H).
  inversion H; subst pairs; clear H.
  split; [apply get_all_from_map_Ok in Hci; tauto|]. split.
  - intros Hne ->. apply Hne.
    unfold get_working_batteries in Hsets.
    rewrite (left_absorb_L ∅ (∩)), elements_empty in Hsets.
    simpl in Hsets. inversion Hsets; subst sets.
    simpl in Hdata. rewrite elements_empty in Hdata.
    inversion Hdata. reflexivity.
  - intro Hwf. apply List.Forall_forall. intros pair Hin.
    apply list_elem_of_In, list_elem_of_omap in Hin as ([p|] & Hin & Hp);
      inversion Hp; subst p.
    destruct (Forall2_elem_r _ _ _ _ Hdata Hin) as (bids & _ & Hpair).
    eapply pair_of_battery_set_id; eassumption.
Qed.

Lemma get_all_from_map_total (source : gmap Z (gset Z)) (ks : gset Z) :
  ks ⊆ dom source -> exists s, _get_all_from_map source ks = Ok s.
Proof.
  intro Hks. unfold _get_all_from_map.
  destruct (for_each_total (getitem source) (elements ks)) as (vs & ->).
  - intros k Hk%elem_of_elements. apply Hks, elem_of_dom in Hk as (v & Hv).
    exists v. now apply getitem_Ok.
  - simpl. eauto.
Qed.

(** In well-formed surroundings the lookups of
    [_get_power_distribution] succeed: what is left is the algorithm. *)
Lemma get_power_distribution_eq (self : Actor) (request : Request)
    (pairs : list InvBatPair) :
  well_formed self ->
  _get_components_data self (batteries request) = Ok pairs ->
  _get_power_distribution self request pairs
  = distribute_power self (power request) pairs.
Proof.
  intros Hwf (Hbs & _ & Hids)%get_components_data_Ok.
  specialize (Hids Hwf). unfold _get_power_distribution.
  destruct (get_all_from_map_total (_bat_bats_map self)
              (list_to_set (map (fun pair => component_id (battery pair))
                              pairs))) as (available & ->).
  { intros k Hk%elem_of_list_to_set.
    apply list_elem_of_In, in_map_iff in Hk as (pair & <- & Hin).
    rewrite List.Forall_forall in Hids. now apply Hids. }
  simpl.
  destruct (for_each_total (getitem (_bat_invs_map self))
              (elements (batteries request ∖ available))) as (invs & ->).
  { intros k Hk%elem_of_elements.
    assert (Hd : k ∈ dom (_bat_invs_map self)) by set_solver.
    apply elem_of_dom in Hd as (v & Hv). exists v. now apply getitem_Ok. }
  reflexivity.
Qed.

Lemma battery_distribution_total (self : Actor) (items : list (Z * pyfloat))
    (acc : gmap Z pyfloat) :
  (forall kv, kv ∈ items -> fst kv ∈ dom (_inv_bats_map self)) ->
  exists bd, battery_distribution_of self items acc = Ok bd.
Proof.
  revert acc. induction items as [|[i dist] items IH]; intros acc Hk; simpl.
  - eauto.
  - assert (Hd : i ∈ dom (_inv_bats_map self))
      by (apply (Hk (i, dist)); left).
    apply elem_of_dom in Hd as (bats & Hb). rewrite (proj2 (getitem_Ok _ _ _) Hb). simpl.
    apply IH. intros kv Hin. apply Hk. now right.
Qed.

Lemma parse_result_total (self : Actor) (tasks : list (Z * TaskOutcome))
    (d : gmap Z pyfloat) (fp : pyfloat) (fb : gset Z) :
  (forall kv, kv ∈ tasks ->
     fst kv ∈ dom (_inv_bats_map self) /\ fst kv ∈ dom d) ->
  exists r, _parse_result self tasks d fp fb = Ok r.
Proof.
  revert fp fb. induction tasks as [|[i aws] tasks IH]; intros fp fb Hk; simpl.
  - eauto.
  - assert (Hd : i ∈ dom (_inv_bats_map self) /\ i ∈ dom d)
      by (apply (Hk (i, aws)); left).
    destruct Hd as [(bats & Hb)%elem_of_dom (v & Hv)%elem_of_dom]. rewrite (proj2 (getitem_Ok _ _ _) Hb). simpl.
    assert (Hk' : forall kv, kv ∈ tasks ->
               fst kv ∈ dom (_inv_bats_map self) /\ fst kv ∈ dom d)
      by (intros kv Hin; apply Hk; now right).
    destruct aws; try (rewrite (proj2 (getitem_Ok _ _ _) Hv); simpl);
      apply IH, Hk'.
Qed.

Lemma set_distributed_power_total (self : Actor) (d : DistributionResult) :
  distribution d <> ∅ ->
  dom (distribution d) ⊆ dom (_inv_bats_map self) ->
  exists r, _set_distributed_power self d = Ok r.
Proof.
  intros Hne Hdom. unfold _set_distributed_power.
  destruct (map_to_list (distribution d)) as [|kv l] eqn:El.
  { apply map_to_list_empty_iff in El. contradiction. }
  rewrite <- El. clear kv l El.
  destruct (map _ (map_to_list (distribution d))) as [|t ts] eqn:Et.
  { apply map_eq_nil in Et. apply map_to_list_empty_iff in Et.
    contradiction. }
  rewrite <- Et. apply parse_result_total.
  intros [i aws] Hin. simpl.
  apply list_elem_of_In, in_map_iff in Hin as ([i' v] & Heq & Hin).
  inversion Heq; subst. apply list_elem_of_In, elem_of_map_to_list in Hin.
  assert (i ∈ dom (distribution d)) by (apply elem_of_dom; eauto).
  auto.
Qed.

(** In well-formed surroundings no exception leaves the body of the
    loop. *)
Lemma run_request_total (self : Actor) (request : Request) :
  well_formed self -> exists effects, _run_request self request = Ok effects.
Proof.
  intro Hwf. unfold _run_request.
  destruct (_get_components_data self (batteries request))
    as [pairs|e] eqn:Hdata.
  2:{ apply (get_components_data_Raise _ _ _ Hwf) in Hdata as (m & ->). eauto. }
  destruct pairs as [|p ps]; [eauto|].
  destruct (_check_request self request (p :: ps)); [eauto|].
  rewrite (get_power_distribution_eq _ _ _ Hwf Hdata).
  destruct (distribute_power self (power request) (p :: ps)) as [d|e] eqn:Hd.
  2:{ apply (wf_distribute_raises self Hwf) in Hd as (m & ->). eauto. }
  assert (Hps : p :: ps <> []) by discriminate.
  destruct (wf_distribute_keys self Hwf _ _ _ Hps Hd) as [Hne Hdom].
  destruct (battery_distribution_total self
              (map_to_list (distribution d)) ∅) as (bd & ->).
  { intros [i v] Hin%elem_of_map_to_list. simpl.
    apply Hdom, elem_of_dom. eauto. }
  destruct (set_distributed_power_total self d Hne Hdom) as ([fp fb] & ->).
  simpl. destruct (Nat.ltb 0 (size fb)); eauto.
Qed.

(** Every way through the body of the loop hands exactly one result to
    the sender, and it is a result for the request at hand. *)
Lemma run_request_one_result (self : Actor) (request : Request)
    (effects : list Effect) :
  _run_request self request = Ok effects ->
  exists r, sent_results effects = [r] /\ result_request r = request.
Proof.
  intros [(m & ->)|[(ps & _ & _ & -> & _)|(d & fp & fb & bd & _ & _ & ->)]]
    %run_request_cases; simpl; eexists; (split; [reflexivity|]);
    try reflexivity.
  destruct (Nat.ltb 0 (size fb)); reflexivity.
Qed.

Lemma sent_results_app (e1 e2 : list Effect) :
  sent_results (e1 ++ e2) = sent_results e1 ++ sent_results e2.
Proof. unfold sent_results. apply flat_map_app. Qed.

(** C4.  Whatever requests the loop consumes, in surroundings that are
    well-formed each time: the loop goes through all of them, and the
    results it hands to the sender (in an awaited [send], or in the [send]
    that it passes to [asyncio.gather]) are, in order, one for each
    request, each carrying its request. *)
Theorem one_result_per_request (requests : list (Actor * Request)) :
  Forall (fun ar => well_formed (fst ar)) requests ->
  exists effects,
    _run requests = (effects, None)
    /\ map result_request (sent_results effects) = map snd requests.
Proof.
  induction 1 as [|[self request] requests Hwf _ (effects' & Hrun & Hres)];
    simpl.
  - exists []. split; reflexivity.
  - simpl in Hwf.
    destruct (run_request_total self request Hwf) as (effects & Heff).
    rewrite Heff, Hrun. exists (effects ++ effects'). split; [reflexivity|].
    destruct (run_request_one_result _ _ _ Heff) as (r & Hr & Hreq).
    rewrite sent_results_app, map_app, Hr, Hres. simpl. now rewrite Hreq.
Qed.

Ltac concrete_map_Forall :=
  apply map_Forall_to_list; vm_compute;
  repeat (constructor; [first [reflexivity | discriminate | exact I]|]);
  constructor.

Lemma equal_split_keys (self : Actor) :
  dom (_inv_bats_map self) = {[ 101; 102 ]} ->
  forall p pairs d,
    pairs <> [] ->
    Scenarios.equal_split p pairs = Ok d ->
    distribution d <> ∅
    /\ dom (distribution d) ⊆ dom (_inv_bats_map self).
Proof.
  intros Hdom p pairs d _ H. inversion H; subst d; clear H. simpl. split.
  - apply insert_non_empty.
  - rewrite Hdom, !dom_insert_L. set_solver.
Qed.

Lemma two_batteries_well_formed (devices : Z -> pyfloat -> TaskOutcome) :
  well_formed (Scenarios.two_batteries devices).
Proof.
  constructor; simpl.
  - apply (bool_decide_unpack _). vm_compute. exact I.
  - apply (bool_decide_unpack _). vm_compute. exact I.
  - concrete_map_Forall.
  - concrete_map_Forall.
  - concrete_map_Forall.
  - intros p pairs e H. discriminate.
  - apply (equal_split_keys (Scenarios.two_batteries devices)).
    apply (bool_decide_unpack _). vm_compute. exact I.
Qed.

Lemma one_result_per_request_witness :
  let requests :=
    [ (Scenarios.two_batteries Scenarios.all_respond,
       Scenarios.request_for {[ 1; 2 ]} 400 false);
      (Scenarios.two_batteries Scenarios.second_hangs,
       Scenarios.request_for {[ 1; 2 ]} 5 false);
      (Scenarios.two_batteries Scenarios.second_hangs,
       Scenarios.request_for {[ 1; 2 ]} (-300) true) ] in
  Forall (fun ar => well_formed (fst ar)) requests
  /\ exists effects,
       _run requests = (effects, None)
       /\ map result_request (sent_results effects) = map snd requests.
Proof.
  intro requests.
  assert (H : Forall (fun ar => well_formed (fst ar)) requests)
    by (repeat (apply List.Forall_cons; [apply two_batteries_well_formed|]);
        apply List.Forall_nil).
  split; [exact H|]. exact (one_result_per_request requests H).
Defined.

End WellFormed.

(** ** The surroundings that the constructor builds *)

Section Construction.
Import PowerDistributing.

Variable component_graph : ComponentGraph.

(** The graph is consistent: a battery is a successor of its inverters. *)
Hypothesis graph_consistent :
  forall battery_id c,
    In c (predecessors component_graph battery_id) ->
    is_inverter c = true ->
    In battery_id
      (map graph_component_id
         (successors component_graph (graph_component_id c))).

Lemma fold_inverters_fst (battery_id : Z) (seen : gset Z) (l : list Z)
    (acc : option (gmap Z (gset Z)) * option (gmap Z (gset Z))) :
  is_Some (fst acc) ->
  is_Some
    (fst (fold_left
            (fun (acc : option (gmap Z (gset Z)) * option (gmap Z (gset Z)))
                 inverter =>
               (option_map
                  (fun d => setdefault_update d inverter {[ battery_id ]})
                  (fst acc),
                option_map
                  (fun d => setdefault_update d inverter seen)
                  (snd acc)))
            l acc)).
Proof.
  revert acc. induction l as [|i l IH]; intros acc Hacc; simpl; [exact Hacc|].
  apply IH. simpl. destruct Hacc as (d & ->). simpl. eauto.
Qed.

Lemma map_battery_ok (maps : Mappings) (battery_id : Z) :
  mappings_ok maps -> mappings_ok (map_battery component_graph maps battery_id).
Proof.
  intros (ib & bb & Hib & Hbb & Hdom & Hne & Hself).
  unfold map_battery.
  set (inverters := list_to_set _ : gset Z).
  destruct (Nat.eqb_spec (size inverters) 0) as [|Hsize].
  { exists ib, bb. auto. }
  assert (Hinv : inverters <> ∅).
  { intros He. apply Hsize. rewrite He. apply size_empty. }
  destruct (fold_inverters_fst battery_id
              (dom (<[battery_id := inverters]> (bat_invs maps)))
              (elements inverters) (inv_bats maps, inv_invs maps))
    as (ib' & Hib'); [simpl; rewrite Hib; eauto|].
  unfold mappings_ok. simpl. rewrite Hib', Hbb. simpl.
  eexists _, _. split; [reflexivity|]. split; [reflexivity|].
  unfold setdefault_update. split; [|split].
  - rewrite !dom_insert_L. now rewrite Hdom.
  - apply map_Forall_insert_2; assumption.
  - apply map_Forall_insert_2.
    + apply set_choose_L in Hinv as (i & Hi).
      apply elem_of_union_r, elem_of_list_to_set, list_elem_of_In, in_flat_map.
      exists i. split; [now apply list_elem_of_In, elem_of_elements|].
      apply elem_of_list_to_set, list_elem_of_In, in_map_iff in Hi
        as (c & <- & Hc).
      apply filter_In in Hc as [Hc Hcat].
      eapply graph_consistent; eassumption.
    + exact Hself.
Qed.

Lemma mappings_all_ok (batteries : list Z) :
  mappings_ok
    (_get_battery_inverter_mappings component_graph batteries true true true).
Proof.
  unfold _get_battery_inverter_mappings.
  set (start := {| bat_invs := ∅; inv_bats := _; bat_bats := _;
                   inv_invs := _ |}).
  assert (Hstart : mappings_ok start).
  { exists ∅, ∅. simpl. repeat split; try reflexivity;
      apply map_Forall_empty. }
  revert Hstart. generalize start. clear start.
  induction batteries as [|b bs IH]; intros maps Hok; simpl; [exact Hok|].
  apply IH, map_battery_ok, Hok.
Qed.

(** The battery receivers that [_create_channels] leaves behind: one for
    every key of the battery-to-inverters map, holding the latest data of
    that battery. *)
Lemma create_channels_fold (latest_battery : Z -> option BatteryData)
    (latest_inverter : Z -> option InverterData)
    (l : list (Z * gset Z))
    (receivers : gmap Z (option BatteryData) * gmap Z (option InverterData))
    (b : Z) :
  fst (fold_left
         (fun receivers kv =>
            (<[ fst kv := latest_battery (fst kv) ]> (fst receivers),
             fold_left
               (fun inverter_receivers inverter_id =>
                  <[ inverter_id := latest_inverter inverter_id ]>
                    inverter_receivers)
               (elements (snd kv)) (snd receivers)))
         l receivers) !! b
  = if bool_decide (b ∈ map fst l) then Some (latest_battery b)
    else fst receivers !! b.
Proof.
  revert receivers. induction l as [|[k v] l IH]; intro receivers; simpl.
  - reflexivity.
  - rewrite IH. simpl.
    destruct (bool_decide (b ∈ map fst l)) eqn:E.
    + apply bool_decide_eq_true_1 in E.
      rewrite bool_decide_eq_true_2; [reflexivity|now right].
    + apply bool_decide_eq_false_1 in E.
      destruct (decide (b = k)) as [->|Hbk].
      * rewrite lookup_insert_eq.
        rewrite bool_decide_eq_true_2; [reflexivity|left].
      * rewrite lookup_insert_ne by congruence.
        rewrite bool_decide_eq_false_2; [reflexivity|].
        intros [?|?]%elem_of_cons; congruence.
Qed.

Lemma create_channels_lookup (bat_invs_map : gmap Z (gset Z))
    (latest_battery : Z -> option BatteryData)
    (latest_inverter : Z -> option InverterData) (b : Z) :
  fst (_create_channels bat_invs_map latest_battery latest_inverter) !! b
  = if bool_decide (b ∈ dom bat_invs_map) then Some (latest_battery b)
    else None.
Proof.
  unfold _create_channels. rewrite create_channels_fold. simpl.
  assert (Hiff : b ∈ map fst (map_to_list bat_invs_map)
                 <-> b ∈ dom bat_invs_map).
  { rewrite elem_of_dom. split.
    - intros ([k v] & <- & Hin%list_elem_of_In%elem_of_map_to_list)
        %list_elem_of_In%in_map_iff.
      simpl. eauto.
    - intros (v & Hv). apply list_elem_of_In, in_map_iff.
      exists (b, v). split; [reflexivity|].
      now apply list_elem_of_In, elem_of_map_to_list. }
  destruct (bool_decide (b ∈ dom bat_invs_map)) eqn:E.
  - apply bool_decide_eq_true_1, Hiff in E.
    now rewrite bool_decide_eq_true_2.
  - apply bool_decide_eq_false_1 in E.
    rewrite bool_decide_eq_false_2; [apply lookup_empty|now rewrite Hiff].
Qed.

(** X15.  The actor that [__init__] and [_create_channels] set up is
    well-formed, provided the streams deliver the data of the component
    they were opened for and the distribution algorithm keeps to its
    contract. *)
Lemma init_well_formed (batteries : list Z)
    (latest_battery : Z -> option BatteryData)
    (latest_inverter : Z -> option InverterData)
    (working_set : gset Z)
    (algorithm : pyfloat -> list InvBatPair -> res DistributionResult)
    (devices : Z -> pyfloat -> TaskOutcome) :
  let self :=
    __init__ component_graph batteries latest_battery latest_inverter
      working_set algorithm devices in
  (forall b d, latest_battery b = Some d -> bat_component_id d = b) ->
  (forall p pairs e, algorithm p pairs = Raise e -> exists m, e = ValueError m) ->
  (forall p pairs d,
     pairs <> [] -> algorithm p pairs = Ok d ->
     distribution d <> ∅ /\ dom (distribution d) ⊆ dom (_inv_bats_map self)) ->
  well_formed self.
Proof.
  intros self Hids Hraises Hkeys.
  destruct (mappings_all_ok batteries)
    as (ib & bb & Hib & Hbb & Hdom & Hne & Hself).
  assert (Hrecv : dom (_battery_receivers self) = dom (_bat_invs_map self)).
  { apply set_eq. intro b. rewrite !elem_of_dom. unfold self; simpl.
    rewrite create_channels_lookup.
    destruct (bool_decide _) eqn:E.
    - apply bool_decide_eq_true_1, elem_of_dom in E. split; eauto.
    - apply bool_decide_eq_false_1 in E. rewrite elem_of_dom in E.
      split; [intros (? & ?); discriminate|contradiction]. }
  constructor.
  - rewrite Hrecv. unfold self; simpl. rewrite Hbb. simpl. now rewrite Hdom.
  - now rewrite Hrecv.
  - unfold self; simpl. rewrite Hbb. simpl.
    intros b s' Hs' ->. specialize (Hself b ∅ Hs'). simpl in Hself.
    set_solver.
  - exact Hne.
  - intros b data Hb. unfold self in Hb; simpl in Hb.
    rewrite create_channels_lookup in Hb.
    destruct (bool_decide _); [|discriminate].
    inversion Hb; subst data. destruct (latest_battery b) eqn:El; [|exact I].
    now apply Hids.
  - exact Hraises.
  - exact Hkeys.
Qed.

End Construction.

(** ** The admissibility check *)

Section CheckRequest.
Import PowerDistributing.

Lemma close_to_zero_0 (p : pyfloat) :
  feq p (Fin 0) -> is_close_to_zero p = true.
Proof.
  destruct p as [|q]; simpl; [tauto|]. intro Hq.
  apply Qle_bool_iff. rewrite Hq. discriminate.
Qed.

(** [OutOfBounds] is only ever the answer of the two range tests. *)
Lemma check_request_out_of_bounds (self : Actor) (request q : Request)
    (pairs_data : list InvBatPair) (b : PowerBounds) :
  _check_request self request pairs_data = Some (OutOfBounds q b) ->
  q = request /\ b = _get_bounds pairs_data
  /\ spec_out_of_bounds (_get_bounds pairs_data) request.
Proof.
  unfold _check_request, spec_out_of_bounds, strictly_inside_deadband,
    in_permitted_ranges.
  destruct (bool_decide (batteries request = ∅)); [discriminate|].
  destruct (List.find _ _); [discriminate|].
  destruct (is_close_to_zero (power request)); [discriminate|].
  destruct (adjust_power request).
  - destruct (_ && _) eqn:E; [|discriminate].
    intro H; inversion H; subst.
    do 3 (split; [reflexivity|]). left. split; reflexivity.
  - destruct (negb _) eqn:E; [|discriminate].
    apply negb_true_iff in E.
    intro H; inversion H; subst.
    do 3 (split; [reflexivity|]). right. split; [reflexivity|]. first [exact E | now rewrite E].
Qed.

Lemma find_none_all {A : Type} (f : A -> bool) (l : list A) :
  (forall x, x ∈ l -> f x = false) -> List.find f l = None.
Proof.
  induction l as [|x l IH]; simpl; intro H; [reflexivity|].
  rewrite (H x) by left. apply IH. intros; apply H; now right.
Qed.

(** Past the two tests on the battery identifiers, [_check_request] is the
    test on the power. *)
Lemma check_request_guarded (self : Actor) (request : Request)
    (pairs_data : list InvBatPair) :
  batteries request <> ∅ ->
  batteries request ⊆ dom (_battery_receivers self) ->
  spec_out_of_bounds (_get_bounds pairs_data) request ->
  _check_request self request pairs_data
  = Some (OutOfBounds request (_get_bounds pairs_data)).
Proof.
  intros Hne Hknown (Hzero & Hrange).
  unfold _check_request.
  rewrite bool_decide_eq_false_2 by exact Hne.
  rewrite find_none_all.
  2:{ intros b Hb%elem_of_elements. apply Hknown, elem_of_dom in Hb as (v & Hv).
      unfold contains. now rewrite Hv. }
  rewrite Hzero.
  unfold strictly_inside_deadband, in_permitted_ranges in Hrange.
  destruct Hrange as [[-> ->]|[-> ->]]; reflexivity.
Qed.

(** C5.  A request whose power is zero is never answered with
    [OutOfBounds]; and given a snapshot (in well-formed surroundings), the
    request is answered with [OutOfBounds], carrying the aggregate bounds
    of the snapshot, exactly if its power is not close to zero and either
    [adjust_power] is set and the power lies strictly between the
    exclusion bounds, or [adjust_power] is not set and the power lies
    neither in [inclusion_lower .. exclusion_lower] nor in
    [exclusion_upper .. inclusion_upper]. *)
Theorem out_of_bounds_iff (self : Actor) (request : Request) :
  (feq (power request) (Fin 0) ->
   forall bounds, ~ answered_out_of_bounds self request bounds)
  /\ (forall pairs_data,
        well_formed self ->
        _get_components_data self (batteries request) = Ok pairs_data ->
        pairs_data <> [] ->
        (answered_out_of_bounds self request (_get_bounds pairs_data)
         <-> spec_out_of_bounds (_get_bounds pairs_data) request)
        /\ (forall bounds,
              answered_out_of_bounds self request bounds ->
              bounds = _get_bounds pairs_data)).
Proof.
  assert (Hinv : forall bounds,
             answered_out_of_bounds self request bounds ->
             exists pairs_data,
               _get_components_data self (batteries request) = Ok pairs_data
               /\ bounds = _get_bounds pairs_data
               /\ spec_out_of_bounds (_get_bounds pairs_data) request).
  { intros bounds (effects & Hrun & Hin).
    destruct (run_request_cases _ _ _ Hrun)
      as [(m & ->)|[(ps & Hps & _ & -> & Hc)|(d & fp & fb & bd & _ & _ & ->)]];
      simpl in Hin.
    - destruct Hin as [H|[]]; discriminate.
    - destruct Hin as [H|[]]. inversion H; subst bounds.
      apply check_request_out_of_bounds in Hc as (_ & _ & Hspec). eauto.
    - destruct (Nat.ltb 0 (size fb)); destruct Hin as [H|[]]; discriminate. }
  split.
  - intros Hzero bounds (ps & _ & _ & Hclose & _)%Hinv.
    rewrite (close_to_zero_0 _ Hzero) in Hclose. discriminate.
  - intros pairs_data Hwf Hdata Hne. split; [split|].
    + intros (ps & Hps & _ & Hspec)%Hinv.
      rewrite Hdata in Hps. inversion Hps; subst ps. exact Hspec.
    + intro Hspec.
      destruct (get_components_data_Ok _ _ _ Hdata) as (Hbs & Hnonempty & _).
      assert (Hcheck := check_request_guarded self request pairs_data
                          (Hnonempty Hne)
                          (transitivity Hbs (wf_batteries_received self Hwf))
                          Hspec).
      exists [send_awaited (OutOfBounds request (_get_bounds pairs_data))].
      split; [|left; reflexivity].
      unfold _run_request. rewrite Hdata.
      destruct pairs_data; [congruence|]. now rewrite Hcheck.
    + intros bounds (ps & Hps & -> & _)%Hinv.
      rewrite Hdata in Hps. now inversion Hps.
Qed.

Lemma out_of_bounds_iff_witness :
  let self := Scenarios.two_batteries Scenarios.all_respond in
  let request := Scenarios.request_for {[ 1; 2 ]} 5 false in
  let pairs_data :=
    Scenarios.pairs_of (_get_components_data self (batteries request)) in
  well_formed self
  /\ _get_components_data self (batteries request) = Ok pairs_data
  /\ pairs_data <> []
  /\ spec_out_of_bounds (_get_bounds pairs_data) request
  /\ answered_out_of_bounds self request (_get_bounds pairs_data)
  /\ feq (power (Scenarios.request_for {[ 1; 2 ]} 0 false)) (Fin 0)
  /\ forall bounds,
       ~ answered_out_of_bounds self
           (Scenarios.request_for {[ 1; 2 ]} 0 false) bounds.
Proof.
  intros self request pairs_data.
  assert (H0 : feq (power (Scenarios.request_for {[ 1; 2 ]} 0 false)) (Fin 0))
    by reflexivity.
  assert (H1 : well_formed self) by apply two_batteries_well_formed.
  assert (H2 : _get_components_data self (batteries request) = Ok pairs_data)
    by (vm_compute; reflexivity).
  assert (H3 : pairs_data <> []) by (vm_compute; discriminate).
  assert (H4 : spec_out_of_bounds (_get_bounds pairs_data) request).
  { split; [vm_compute; reflexivity|]. right. split; vm_compute; reflexivity. }
  split; [exact H1|]. split; [exact H2|]. split; [exact H3|].
  split; [exact H4|].
  split; [exact (proj2 (proj1 (proj2 (out_of_bounds_iff self request)
                                pairs_data H1 H2 H3)) H4)|].
  split; [exact H0|].
  exact (proj1 (out_of_bounds_iff self
                  (Scenarios.request_for {[ 1; 2 ]} 0 false)) H0).
Defined.

End CheckRequest.

(** ** The loop of the resampler *)

Section ResamplerLoop.
Import Resampling.

Lemma deliver_keys (rs : list (Z * _StreamingHelper.state))
    (a : Z * _StreamingHelper.source_event) :
  map fst (Resampler.deliver rs a) = map fst rs.
Proof.
  unfold Resampler.deliver. rewrite map_map. apply map_ext.
  intros [k h]. simpl. destruct (k =? fst a)%Z; reflexivity.
Qed.

Lemma fold_deliver_keys (l : list (Z * _StreamingHelper.source_event))
    (rs : list (Z * _StreamingHelper.state)) :
  map fst (fold_left Resampler.deliver l rs) = map fst rs.
Proof.
  revert rs. induction l as [|a l IH]; intro rs; simpl; [reflexivity|].
  now rewrite IH, deliver_keys.
Qed.

(** The sample that a helper returns carries the timestamp it was asked
    for. *)
Lemma helper_resample_timestamp (self : _ResamplingHelper.state) (t : Q)
    (sample : Sample) :
  _ResamplingHelper.returned (_ResamplingHelper.resample self t) = Ok sample ->
  timestamp sample = t.
Proof.
  unfold _ResamplingHelper.resample.
  destruct (_ResamplingHelper._update_source_sample_period self t)
    as [[changed self1]|e]; [|discriminate].
  destruct (if changed then _ else _) as [[b self2]|e]; [|discriminate].
  destruct (_ResamplingHelper.relevant_samples self2 t); simpl.
  - intro H; inversion H. reflexivity.
  - intros (v & _ & H)%bind_Ok. inversion H. reflexivity.
Qed.

Lemma streaming_sent_timestamp (self : _StreamingHelper.state) (t : Q)
    (sample : Sample) :
  _StreamingHelper.sent (_StreamingHelper.resample self t) = Some sample ->
  timestamp sample = t.
Proof.
  unfold _StreamingHelper.resample.
  destruct (_StreamingHelper._receiving_task self); try discriminate.
  destruct (_ResamplingHelper.returned _) as [s|e] eqn:E; simpl;
    [|discriminate].
  intro H; inversion H; subst s. eapply helper_resample_timestamp, E.
Qed.

(** C6.  However long [resample] runs and however it ends, after [n]
    passes through its loop (the one that raises [ResamplingError]
    included) [_window_end] is its initial value plus [n] times
    [resampling_period_s], whatever the clock showed; in pass [k]
    (counting from [0]) every registered helper is given the timestamp
    [t0 + k * resampling_period_s], where [t0] is the initial
    [_window_end], and every sample that reaches a sink carries the
    timestamp of its pass. *)
Theorem window_end_progression (one_shot : bool) (periods : list Resampler.period_env)
    (self final : Resampler.state) (passes : list Resampler.pass)
    (out : Resampler.outcome) :
  Resampler.resample one_shot periods self = (final, passes, out) ->
  let P := resampling_period_s (Resampler._config self) in
  (Resampler._window_end final
   == Resampler._window_end self + inject_Z (Z.of_nat (length passes)) * P)%Q
  /\ map fst (Resampler._resamplers final)
     = map fst (Resampler._resamplers self)
  /\ forall k pass,
       passes !! k = Some pass ->
       map (fun c => fst (fst c)) (Resampler.calls pass)
       = map fst (Resampler._resamplers self)
       /\ Forall
            (fun c =>
               (snd (fst c)
                == Resampler._window_end self + inject_Z (Z.of_nat k) * P)%Q
               /\ forall sample,
                    _StreamingHelper.sent (snd c) = Some sample ->
                    (timestamp sample
                     == Resampler._window_end self
                        + inject_Z (Z.of_nat k) * P)%Q)
            (Resampler.calls pass).
Proof.
  revert self final passes out.
  induction periods as [|env periods IH]; intros self final passes out; simpl.
  { intro H; inversion H; subst. simpl. split; [ring|]. split; [reflexivity|].
    intros k pass Hk. inversion Hk. }
  set (resamplers := fold_left Resampler.deliver (Resampler.arrivals env)
                       (Resampler._resamplers self)).
  set (results := map _ resamplers).
  set (self' := {| Resampler._config := Resampler._config self;
                   Resampler._resamplers := _;
                   Resampler._window_end := _ |}).
  set (this := {| Resampler.slept := _; Resampler.calls := results |}).
  assert (Hkeys : map (fun c => fst (fst c)) results
                  = map fst (Resampler._resamplers self)).
  { unfold results. rewrite map_map. simpl.
    apply (fold_deliver_keys (Resampler.arrivals env)). }
  assert (Hkeys' : map fst (Resampler._resamplers self')
                   = map fst (Resampler._resamplers self)).
  { simpl. rewrite map_map. exact Hkeys. }
  assert (Hthis : Forall
            (fun c =>
               (snd (fst c) == Resampler._window_end self + inject_Z 0 * 
                  resampling_period_s (Resampler._config self))%Q
               /\ forall sample,
                    _StreamingHelper.sent (snd c) = Some sample ->
                    (timestamp sample
                     == Resampler._window_end self + inject_Z 0 *
                        resampling_period_s (Resampler._config self))%Q)
            results).
  { unfold results. apply List.Forall_forall. intros c Hin.
    apply in_map_iff in Hin as ([src h] & <- & _). simpl. split; [ring|].
    intros sample Hs%streaming_sent_timestamp. rewrite Hs. ring. }
  assert (Hone : forall k pass,
             [this] !! k = Some pass ->
             map (fun c => fst (fst c)) (Resampler.calls pass)
             = map fst (Resampler._resamplers self)
             /\ Forall
                  (fun c =>
                     (snd (fst c)
                      == Resampler._window_end self + inject_Z (Z.of_nat k) *
                         resampling_period_s (Resampler._config self))%Q
                     /\ forall sample,
                          _StreamingHelper.sent (snd c) = Some sample ->
                          (timestamp sample
                           == Resampler._window_end self
                              + inject_Z (Z.of_nat k) *
                                resampling_period_s (Resampler._config self))%Q)
                  (Resampler.calls pass)).
  { intros [|k] pass Hk; inversion Hk; subst pass. split; assumption. }
  assert (Hend : (Resampler._window_end self'
                  == Resampler._window_end self + inject_Z (Z.of_nat 1) *
                     resampling_period_s (Resampler._config self))%Q)
    by (simpl; ring).
  destruct (Resampler.exceptions_of results) as [|ex exs].
  2:{ intro H; inversion H; subst. auto. }
  destruct one_shot.
  { intro H; inversion H; subst. auto. }
  destruct (Resampler.resample false periods self')
    as [[final' passes'] out'] eqn:Hrec.
  intro H; inversion H; subst final' out' passes; clear H.
  destruct (IH _ _ _ _ Hrec) as (Hw & Hk & Hpasses).
  change (Resampler._config self') with (Resampler._config self) in *.
  split; [|split].
  - rewrite Hw. simpl length. rewrite Nat2Z.inj_succ, <- Z.add_1_r.
    rewrite inject_Z_plus. simpl Resampler._window_end. ring.
  - now rewrite Hk.
  - intros [|k] pass Hlookup.
    + apply (Hone 0%nat). exact Hlookup.
    + simpl in Hlookup. destruct (Hpasses k pass Hlookup) as [Hsrc Hts].
      split; [now rewrite Hsrc|].
      eapply List.Forall_impl; [|exact Hts]. intros c [Hc Hsent].
      assert (Heq : (Resampler._window_end self' + inject_Z (Z.of_nat k) *
                       resampling_period_s (Resampler._config self)
                     == Resampler._window_end self
                        + inject_Z (Z.of_nat (S k)) *
                          resampling_period_s (Resampler._config self))%Q).
      { rewrite Nat2Z.inj_succ, <- Z.add_1_r, inject_Z_plus.
        simpl Resampler._window_end. ring. }
      split; [now rewrite Hc|]. intros sample Hs. now rewrite (Hsent _ Hs).
Qed.

Lemma window_end_progression_witness :
  let final := fst (fst Scenarios.meter_run) in
  let passes := snd (fst Scenarios.meter_run) in
  let out := snd Scenarios.meter_run in
  Resampler.resample false Scenarios.three_periods Scenarios.meter_resampler
  = (final, passes, out)
  /\ length passes = 3%nat
  /\ out = Resampler.raises_ResamplingError [(7, SourceStoppedError 7)]
  /\ (Resampler._window_end final
      == Resampler._window_end Scenarios.meter_resampler
         + inject_Z (Z.of_nat (length passes))
           * resampling_period_s
               (Resampler._config Scenarios.meter_resampler))%Q.
Proof.
  intros final passes out.
  assert (H : Resampler.resample false Scenarios.three_periods
                Scenarios.meter_resampler = (final, passes, out)).
  { unfold final, passes, out, Scenarios.meter_run.
    destruct (Resampler.resample _ _ _) as [[? ?] ?]. reflexivity. }
  split; [exact H|].
  split; [vm_compute; reflexivity|].
  split; [vm_compute; reflexivity|].
  exact (proj1 (window_end_progression false Scenarios.three_periods
                  Scenarios.meter_resampler final passes out H)).
Defined.

End ResamplerLoop.

(** ** What reaches the resampling function *)

Section ResamplingFunctionInputs.
Import Resampling.
Import Pipeline.

Lemma init_ok (name : string) (config : ResamplerConfig)
    (h : _ResamplingHelper.state) :
  __post_init__ config = Ok tt ->
  _ResamplingHelper.__init__ name config = Ok h ->
  helper_ok config h.
Proof.
  intros Hvalid%post_init_accepts Hinit.
  unfold _ResamplingHelper.__init__ in Hinit.
  rewrite deque_new_newest in Hinit by lia. simpl in Hinit.
  inversion Hinit; subst h; clear Hinit. unfold helper_ok; simpl.
  split; [reflexivity|]. split; [lia|]. split; [constructor|].
  split; [lia|]. split; [congruence|]. discriminate.
Qed.

Lemma append_has_number (d : deque) (x : Sample) :
  Forall has_number (items d) -> has_number x ->
  Forall has_number (items (append d x)).
Proof.
  intros Hd Hx. unfold append; simpl.
  assert (Hall : Forall has_number (items d ++ [x])).
  { apply List.Forall_app. split; [exact Hd|].
    constructor; [exact Hx|constructor]. }
  destruct (_ <? _)%Z; [|exact Hall].
  destruct (items d ++ [x]); simpl; [constructor|].
  now inversion Hall.
Qed.

Lemma add_sample_ok (config : ResamplerConfig) (h : _ResamplingHelper.state)
    (x : Sample) :
  helper_ok config h -> has_number x ->
  helper_ok config (_ResamplingHelper.add_sample h x).
Proof.
  intros (Hc & Hlen & Hitems & Hnn & Hrecv & Hper) Hx.
  unfold helper_ok, _ResamplingHelper.add_sample; simpl.
  split; [exact Hc|]. split; [exact Hlen|].
  split; [now apply append_has_number|].
  split; [lia|]. split; [intros _; lia|exact Hper].
Qed.

Lemma receive_samples_ok (config : ResamplerConfig)
    (st : _StreamingHelper.state) (ev : _StreamingHelper.source_event) :
  helper_ok config (_StreamingHelper._helper st) ->
  helper_ok config
    (_StreamingHelper._helper (_StreamingHelper._receive_samples st ev)).
Proof.
  intro Hok. unfold _StreamingHelper._receive_samples.
  destruct (_StreamingHelper._receiving_task st); try exact Hok.
  destruct ev as [sample| |e]; try exact Hok.
  destruct (value sample) as [v|] eqn:Ev; [|exact Hok].
  destruct v as [|q]; simpl; [exact Hok|].
  apply add_sample_ok; [exact Hok|]. exists q. exact Ev.
Qed.

(** Under an accepted configuration the inference of the input period
    neither fails nor spoils the helper. *)
Lemma update_period_ok (config : ResamplerConfig)
    (h : _ResamplingHelper.state) (now : Q) :
  __post_init__ config = Ok tt ->
  helper_ok config h ->
  exists changed h1,
    _ResamplingHelper._update_source_sample_period h now = Ok (changed, h1)
    /\ helper_ok config h1.
Proof.
  intros Hvalid Hok.
  destruct (_ResamplingHelper._update_source_sample_period h now)
    as [[changed h1]|e] eqn:Hupd.
  - exists changed, h1. split; [reflexivity|].
    destruct changed.
    + destruct Hok as (Hc & Hlen & Hitems & Hnn & Hrecv & Hper).
      rewrite <- Hc in Hvalid.
      destruct (inferred_period h h1 now Hvalid Hupd)
        as (start & Hstart & Hnow & Hpos & ->).
      unfold helper_ok; simpl. repeat split; try assumption.
      * intros _. exact Hpos.
      * intros ip Hip. inversion Hip; subst ip.
        apply Qlt_shift_div_l.
        -- rewrite <- (Zlt_Qlt 0). exact Hpos.
        -- rewrite Qmult_0_l. unfold Qminus. rewrite <- Qlt_minus_iff.
           exact Hnow.
    + unfold _ResamplingHelper._update_source_sample_period in Hupd.
      repeat match type of Hupd with
             | (if ?b then _ else _) = _ => destruct b
             | match ?o with Some _ => _ | None => _ end = _ => destruct o
             end; inversion Hupd; subst; exact Hok.
  - exfalso.
    destruct Hok as (Hc & Hlen & Hitems & Hnn & Hrecv & Hper).
    unfold _ResamplingHelper._update_source_sample_period in Hupd.
    destruct (Z.ltb_spec 0 (maxlen (_ResamplingHelper._buffer h))); [|lia].
    simpl in Hupd.
    destruct (sampling_period_s (_ResamplingHelper._source_properties h));
      [discriminate|].
    destruct (sampling_start (_ResamplingHelper._source_properties h))
      eqn:Es; [|discriminate].
    destruct (_ || _); [discriminate|].
    destruct (Z.eqb_spec
                (received_samples (_ResamplingHelper._source_properties h)) 0)
      as [Hz|]; [|discriminate].
    assert (0 < received_samples (_ResamplingHelper._source_properties h))%Z
      by (apply Hrecv; congruence).
    lia.
Qed.

Lemma newest_has_number (n : Z) (l : list Sample) :
  Forall has_number l -> Forall has_number (_ResamplingHelper.newest n l).
Proof. intro H. unfold _ResamplingHelper.newest. now apply Forall_drop. Qed.

(** The two updates at the start of [resample] together. *)
Lemma updates_ok (config : ResamplerConfig) (h : _ResamplingHelper.state)
    (now : Q) :
  __post_init__ config = Ok tt ->
  helper_ok config h ->
  exists changed h1 rebuilt h2,
    _ResamplingHelper._update_source_sample_period h now = Ok (changed, h1)
    /\ (if changed then _ResamplingHelper._update_buffer_len h1
        else Ok (false, h1)) = Ok (rebuilt, h2)
    /\ helper_ok config h2.
Proof.
  intros Hvalid Hok.
  destruct (update_period_ok config h now Hvalid Hok)
    as (changed & h1 & Hupd & Hok1).
  exists changed, h1. destruct changed.
  - assert (Hvalid' : __post_init__ (_ResamplingHelper._config h) = Ok tt)
      by (destruct Hok as (-> & _); exact Hvalid).
    destruct (update_buffer_len_inferred h h1 now Hvalid' Hupd)
      as (ip & Hip & Hpos & [Hlo Hhi] & Hlen).
    destruct (_ =? _)%Z.
    + exists false, h1. auto.
    + eexists true, _. split; [exact Hupd|]. split; [exact Hlen|].
      destruct Hok1 as (Hc & Hm & Hitems & Hnn & Hrecv & Hper).
      unfold helper_ok; simpl. repeat split; try assumption.
      * lia.
      * now apply newest_has_number.
  - exists false, h1. auto.
Qed.

Lemma relevant_samples_have_numbers (h : _ResamplingHelper.state) (t : Q) :
  Forall has_number (items (_ResamplingHelper._buffer h)) ->
  Forall has_number (_ResamplingHelper.relevant_samples h t).
Proof.
  intro H. unfold _ResamplingHelper.relevant_samples, islice.
  now apply Forall_take, Forall_drop.
Qed.

(** On samples that carry numbers, [average] passes its assertion, divides
    by a positive count and returns a number. *)
Lemma average_ok (samples : list Sample) (cv : ConfigValues)
    (props : SourceProperties) :
  samples <> [] -> Forall has_number samples ->
  (0 < length samples)%nat
  /\ (0 < length (omap value samples))%nat
  /\ exists q, average samples cv props = Ok (Fin q).
Proof.
  intros Hne Hnum.
  assert (Hvals : exists qs, omap value samples = map Fin qs
                             /\ length qs = length samples).
  { clear Hne. induction Hnum as [|x l (q & Hq) _ (qs & IH & Hlen)].
    - exists []. split; reflexivity.
    - exists (q :: qs). split; [|simpl; now rewrite Hlen].
      transitivity (Fin q :: omap value l);
        [simpl; now rewrite Hq|now rewrite IH]. }
  destruct Hvals as (qs & Hvals & Hlen).
  assert (Hpos : (0 < length samples)%nat)
    by (destruct samples; [congruence|simpl; lia]).
  split; [exact Hpos|].
  split; [rewrite Hvals, length_map; lia|].
  unfold average. rewrite (proj2 (Nat.ltb_lt _ _) Hpos), Hvals, length_map.
  assert (Hsum : exists q, py_sum (map Fin qs) = Fin q).
  { unfold py_sum. generalize 0%Q. clear Hvals Hlen.
    induction qs as [|a qs IH]; intro acc; simpl; [eauto|]. apply IH. }
  destruct Hsum as (q & ->). unfold fdiv_int.
  destruct (Z.eqb_spec (Z.of_nat (length qs)) 0); [lia|]. eauto.
Qed.

(** One call of the helper's [resample]. *)
Lemma helper_resample_ok (config : ResamplerConfig)
    (h : _ResamplingHelper.state) (t : Q) :
  __post_init__ config = Ok tt ->
  helper_ok config h ->
  let r := _ResamplingHelper.resample h t in
  let h' := _ResamplingHelper.after r in
  let window := _ResamplingHelper.relevant_samples h' t in
  helper_ok config h'
  /\ Forall has_number window
  /\ (window = [] ->
      _ResamplingHelper.invocations r = []
      /\ _ResamplingHelper.returned r
         = Ok {| timestamp := t; value := None |})
  /\ (window <> [] ->
      _ResamplingHelper.invocations r = [window]
      /\ _ResamplingHelper.returned r
         = (do v <- resampling_function config window config
                      (_ResamplingHelper._source_properties h');
            Ok {| timestamp := t; value := Some v |})).
Proof.
  intros Hvalid Hok.
  destruct (updates_ok config h t Hvalid Hok)
    as (changed & h1 & rebuilt & h2 & Hupd & Hlen & Hok2).
  unfold _ResamplingHelper.resample. rewrite Hupd, Hlen.
  assert (Hnum := relevant_samples_have_numbers h2 t
                    (proj1 (proj2 (proj2 Hok2)))).
  assert (Hc : _ResamplingHelper._config h2 = config) by apply Hok2.
  destruct (_ResamplingHelper.relevant_samples h2 t) as [|x w] eqn:Hw; simpl;
    rewrite Hw.
  - split; [exact Hok2|]. split; [constructor|]. split; [auto|congruence].
  - split; [exact Hok2|]. split; [exact Hnum|]. split; [discriminate|].
    intros _. rewrite Hc. auto.
Qed.

(** With the receiving task alive, the streaming helper passes on what
    the resampling helper does. *)
Lemma streaming_resample_running (st : _StreamingHelper.state) (t : Q) :
  _StreamingHelper._receiving_task st = _StreamingHelper.running ->
  let r := _ResamplingHelper.resample (_StreamingHelper._helper st) t in
  let sr := _StreamingHelper.resample st t in
  _StreamingHelper._helper (_StreamingHelper.after sr)
  = _ResamplingHelper.after r
  /\ _StreamingHelper.invocations sr = _ResamplingHelper.invocations r
  /\ _StreamingHelper.sent sr
     = match _ResamplingHelper.returned r with
       | Ok sample => Some sample
       | Raise _ => None
       end.
Proof.
  intro Htask. unfold _StreamingHelper.resample. rewrite Htask.
  destruct (_ResamplingHelper.returned _); simpl; auto.
Qed.

Lemma streaming_resample_done (st : _StreamingHelper.state) (t : Q) :
  _StreamingHelper._receiving_task st <> _StreamingHelper.running ->
  _StreamingHelper.after (_StreamingHelper.resample st t) = st
  /\ _StreamingHelper.invocations (_StreamingHelper.resample st t) = [].
Proof.
  intro Htask. unfold _StreamingHelper.resample.
  destruct (_StreamingHelper._receiving_task st); simpl; auto. congruence.
Qed.

Lemma resample_well_used (config : ResamplerConfig)
    (st : _StreamingHelper.state) (t : Q) :
  __post_init__ config = Ok tt ->
  helper_ok config (_StreamingHelper._helper st) ->
  helper_ok config
    (_StreamingHelper._helper
       (_StreamingHelper.after (_StreamingHelper.resample st t)))
  /\ function_well_used config
       {| before := st; at_time := t;
          did := _StreamingHelper.resample st t |}.
Proof.
  intros Hvalid Hok.
  assert (Hrun : _StreamingHelper._receiving_task st
                 = _StreamingHelper.running
                 \/ _StreamingHelper._receiving_task st
                    <> _StreamingHelper.running)
    by (destruct (_StreamingHelper._receiving_task st);
        (left; reflexivity) || (right; discriminate)).
  destruct Hrun as [Htask|Htask].
  2:{ destruct (streaming_resample_done st t Htask) as [Hafter Hinv].
      rewrite Hafter. split; [exact Hok|].
      unfold function_well_used; simpl. rewrite Hinv.
      split; [intros ? []|]. split; [contradiction|]. intros _ ? []. }
  destruct (streaming_resample_running st t Htask) as (Hh & Hinv & Hsent).
  destruct (helper_resample_ok config (_StreamingHelper._helper st) t
              Hvalid Hok) as (Hok' & Hnum & Hempty & Hfull).
  rewrite Hh. split; [exact Hok'|].
  unfold function_well_used; simpl. rewrite Hh, Hinv, Hsent.
  set (r := _ResamplingHelper.resample (_StreamingHelper._helper st) t) in *.
  set (window := _ResamplingHelper.relevant_samples
                   (_ResamplingHelper.after r) t) in *.
  assert (Hcases : window = [] \/ window <> [])
    by (destruct window; [left; reflexivity|right; discriminate]).
  destruct Hcases as [Hw|Hw].
  - destruct (Hempty Hw) as [Hi Hret]. rewrite Hi, Hret.
    split; [intros ? []|]. split; [|intros _ ? []].
    intros _. split; [auto|]. intro Hne. contradiction.
  - destruct (Hfull Hw) as [Hi Hret]. rewrite Hi.
    split; [|split].
    + intros samples [<-|[]]. auto.
    + intros _. split; [contradiction|auto].
    + intros Havg samples [<-|[]].
      destruct (average_ok window config
                  (_ResamplingHelper._source_properties
                     (_ResamplingHelper.after r)) Hw Hnum)
        as (Hlen & Hcount & q & Hq).
      rewrite Hret, Havg, Hq. simpl. eauto.
Qed.

Lemma run_well_used (config : ResamplerConfig) (st : _StreamingHelper.state)
    (events : list event) :
  __post_init__ config = Ok tt ->
  helper_ok config (_StreamingHelper._helper st) ->
  Forall (function_well_used config) (snd (run st events)).
Proof.
  intro Hvalid. revert st.
  induction events as [|[what|t] events IH]; intros st Hok; simpl.
  - constructor.
  - apply IH, receive_samples_ok, Hok.
  - destruct (resample_well_used config st t Hvalid Hok) as [Hafter Hcall].
    specialize (IH _ Hafter).
    destruct (run (_StreamingHelper.after (_StreamingHelper.resample st t))
                events) as [final calls].
    simpl. constructor; assumption.
Qed.

(** C10.  In the pipeline of a source, started under a configuration that
    [__post_init__] accepted, at every call of [resample]: the resampling
    function is invoked only on non-empty windows whose samples all carry
    a number (no [None], no [NaN]); while the receiving task is alive, an
    empty window yields [Sample(timestamp, None)] without invoking the
    function; and with [average] as the function, its assertion holds, it
    divides by a positive count, and the sample it produces is sent. *)
Theorem resampling_function_inputs (config : ResamplerConfig) (name : string)
    (source : Z) (sink : Sample -> res unit)
    (helper : _ResamplingHelper.state) (events : list event) :
  __post_init__ config = Ok tt ->
  _ResamplingHelper.__init__ name config = Ok helper ->
  forall c,
    In c (snd (run (_StreamingHelper.__init__ helper source sink) events)) ->
    let r := did c in
    let window :=
      _ResamplingHelper.relevant_samples
        (_StreamingHelper._helper (_StreamingHelper.after r)) (at_time c) in
    (forall samples,
       In samples (_StreamingHelper.invocations r) ->
       samples <> [] /\ Forall has_number samples)
    /\ (_StreamingHelper._receiving_task (before c) = _StreamingHelper.running ->
        (window = [] ->
         _StreamingHelper.invocations r = []
         /\ _StreamingHelper.sent r
            = Some {| timestamp := at_time c; value := None |})
        /\ (window <> [] -> _StreamingHelper.invocations r = [window]))
    /\ (resampling_function config = average ->
        forall samples,
          In samples (_StreamingHelper.invocations r) ->
          (0 < length samples)%nat
          /\ (0 < length (omap value samples))%nat
          /\ exists q,
               _StreamingHelper.sent r
               = Some {| timestamp := at_time c; value := Some (Fin q) |}).
Proof.
  intros Hvalid Hinit c Hin.
  assert (Hall := run_well_used config
                    (_StreamingHelper.__init__ helper source sink) events
                    Hvalid (init_ok name config helper Hvalid Hinit)).
  rewrite List.Forall_forall in Hall. exact (Hall c Hin).
Qed.

Lemma resampling_function_inputs_witness :
  __post_init__ (Scenarios.default_config 2) = Ok tt
  /\ _ResamplingHelper.__init__ "meter" (Scenarios.default_config 2)
     = Ok Scenarios.fresh_helper
  /\ map (fun c => _StreamingHelper.invocations (did c)) Scenarios.meter_calls
     = [ [[Scenarios.sample 101 5]]; [[Scenarios.sample 101 5]]; [] ]
  /\ map (fun c => _StreamingHelper.sent (did c)) Scenarios.meter_calls
     = [ Some {| timestamp := 102; value := Some (Fin (5 # 1)) |};
         Some {| timestamp := 104; value := Some (Fin (5 # 1)) |};
         Some {| timestamp := 120; value := None |} ]
  /\ forall c,
       In c Scenarios.meter_calls ->
       forall samples,
         In samples (_StreamingHelper.invocations (did c)) ->
         samples <> [] /\ Forall has_number samples.
Proof.
  assert (H1 : __post_init__ (Scenarios.default_config 2) = Ok tt)
    by reflexivity.
  assert (H2 : _ResamplingHelper.__init__ "meter" (Scenarios.default_config 2)
               = Ok Scenarios.fresh_helper)
    by reflexivity.
  split; [exact H1|]. split; [exact H2|].
  split; [vm_compute; reflexivity|]. split; [vm_compute; reflexivity|].
  intros c Hin.
  exact (proj1 (resampling_function_inputs (Scenarios.default_config 2)
                  "meter" 7 Scenarios.accepting_sink Scenarios.fresh_helper
                  Scenarios.meter_events H1 H2 c Hin)).
Defined.

End ResamplingFunctionInputs.

(* ===================================================================== *)
(** * Part III: further properties of the code                            *)
(* ===================================================================== *)

(** ** More on the requests that the loop refuses *)

Section Refusals.
Import PowerDistributing.

(** X1.  [_get_all_from_map] succeeds exactly when every key is in the
    map: then it returns the union of the sets of the keys; otherwise it
    raises the [KeyError] of a key that is missing. *)
Theorem get_all_from_map_union (source : gmap Z (gset Z)) (ks : gset Z) :
  (ks ⊆ dom source ->
   exists s,
     _get_all_from_map source ks = Ok s
     /\ forall x,
          x ∈ s <-> exists k v, k ∈ ks /\ source !! k = Some v /\ x ∈ v)
  /\ (~ ks ⊆ dom source ->
      exists k,
        k ∈ ks /\ source !! k = None
        /\ _get_all_from_map source ks = Raise (KeyError (msg_key k))).
Proof.
  split.
  - intro Hks. destruct (get_all_from_map_total source ks Hks) as (s & Hs).
    exists s. split; [exact Hs|]. apply (get_all_from_map_Ok _ _ _ Hs).
  - intro Hks.
    destruct (_get_all_from_map source ks) as [s|e] eqn:E.
    + exfalso. apply Hks. apply (get_all_from_map_Ok _ _ _ E).
    + unfold _get_all_from_map in E.
      apply bind_Raise in E as [E|(vs & _ & E)]; [|discriminate].
      apply for_each_Raise in E as (k & Hk%elem_of_elements & Hget).
      apply getitem_Raise in Hget as [-> Hnone]. exists k. auto.
Qed.

Lemma get_all_from_map_union_witness :
  let source := _bat_bats_map Scenarios.shared_inverter in
  (({[ 1; 2 ]} : gset Z) ⊆ dom source
   /\ exists s, _get_all_from_map source {[ 1; 2 ]} = Ok s)
  /\ (~ ({[ 1; 3 ]} : gset Z) ⊆ dom source
      /\ exists k,
           _get_all_from_map source {[ 1; 3 ]} = Raise (KeyError (msg_key k))).
Proof.
  intro source.
  assert (H1 : ({[ 1; 2 ]} : gset Z) ⊆ dom source)
    by (apply (bool_decide_unpack _); vm_compute; exact I).
  assert (H2 : ~ ({[ 1; 3 ]} : gset Z) ⊆ dom source).
  { intro H. apply (bool_decide_pack _) in H. vm_compute in H. exact H. }
  split; split; try assumption.
  - destruct (proj1 (get_all_from_map_union source {[ 1; 2 ]}) H1)
      as (s & Hs & _).
    exists s. exact Hs.
  - destruct (proj2 (get_all_from_map_union source {[ 1; 3 ]}) H2)
      as (k & _ & _ & Hk).
    exists k. exact Hk.
Defined.

(** X2.  [_check_request] answers with an [Error] before it looks at the
    power: for an empty set of batteries, and for a set with a battery
    that has no receiver (the error then names such a battery). *)
Theorem check_request_battery_errors (self : Actor) (request : Request)
    (pairs_data : list InvBatPair) :
  (batteries request = ∅ ->
   _check_request self request pairs_data
   = Some (Error request msg_empty_ids))
  /\ (batteries request <> ∅ ->
      ~ batteries request ⊆ dom (_battery_receivers self) ->
      exists battery,
        battery ∈ batteries request
        /\ _battery_receivers self !! battery = None
        /\ _check_request self request pairs_data
           = Some (Error request
                     (msg_no_battery battery
                        (keys (_battery_receivers self))))).
Proof.
  unfold _check_request. split.
  - intro He. now rewrite bool_decide_eq_true_2.
  - intros Hne Hmissing. rewrite bool_decide_eq_false_2 by exact Hne.
    destruct (List.find _ (elements (batteries request))) as [b|] eqn:Ef.
    + apply find_some in Ef as [Hin Hb].
      exists b. split; [now apply elem_of_elements, list_elem_of_In|].
      unfold contains in Hb.
      destruct (_battery_receivers self !! b); [discriminate|].
      split; reflexivity.
    + exfalso. apply Hmissing. intros b Hb.
      apply elem_of_elements, list_elem_of_In in Hb.
      apply (find_none _ _ Ef) in Hb. unfold contains in Hb.
      apply elem_of_dom.
      destruct (_battery_receivers self !! b); [eauto|discriminate].
Qed.

Lemma check_request_battery_errors_witness :
  let self := Scenarios.two_batteries Scenarios.all_respond in
  (batteries (Scenarios.request_for ∅ 400 false) = ∅
   /\ _check_request self (Scenarios.request_for ∅ 400 false) []
      = Some (Error (Scenarios.request_for ∅ 400 false) msg_empty_ids))
  /\ (batteries (Scenarios.request_for {[ 1; 3 ]} 400 false) <> ∅
      /\ ~ batteries (Scenarios.request_for {[ 1; 3 ]} 400 false)
           ⊆ dom (_battery_receivers self)
      /\ exists battery,
           _battery_receivers self !! battery = None
           /\ battery ∈ batteries
                          (Scenarios.request_for {[ 1; 3 ]} 400 false)).
Proof.
  intro self. split.
  - split; [reflexivity|].
    exact (proj1 (check_request_battery_errors self
                    (Scenarios.request_for ∅ 400 false) []) eq_refl).
  - assert (H1 : batteries (Scenarios.request_for {[ 1; 3 ]} 400 false) <> ∅).
    { intro H. apply (bool_decide_pack _) in H. vm_compute in H. exact H. }
    assert (H2 : ~ batteries (Scenarios.request_for {[ 1; 3 ]} 400 false)
                   ⊆ dom (_battery_receivers self)).
    { intro H. apply (bool_decide_pack _) in H. vm_compute in H. exact H. }
    split; [exact H1|]. split; [exact H2|].
    destruct (proj2 (check_request_battery_errors self
                       (Scenarios.request_for {[ 1; 3 ]} 400 false) [])
                H1 H2) as (b & Hb & Hnone & _).
    exists b. auto.
Defined.

End Refusals.

(** ** More on the answers of the loop *)

Section LoopAnswers.
Import PowerDistributing.

Lemma components_data_KeyError_answer (self : Actor) (request : Request)
    (m : ErrorMsg) :
  _get_components_data self (batteries request) = Raise (KeyError m) ->
  _run_request self request = Ok [send_awaited (Error request m)].
Proof. intro H. unfold _run_request. now rewrite H. Qed.

(** X3.  A request for no battery at all is answered with the [Error]
    about missing data: the snapshot is empty, and the loop never gets to
    [_check_request] and its "Empty battery IDs". *)
Theorem empty_request_answer (self : Actor) (request : Request) :
  batteries request = ∅ ->
  _run_request self request
  = Ok [send_awaited (Error request (msg_no_data ∅))].
Proof.
  intro He. unfold _run_request, _get_components_data, get_working_batteries.
  rewrite He. rewrite (left_absorb_L ∅ (∩)).
  unfold _get_all_from_map. rewrite !elements_empty. simpl.
  rewrite elements_empty. simpl.
  rewrite bool_decide_eq_false_2 by (intro H; now apply H).
  simpl. rewrite elements_empty. reflexivity.
Qed.

Lemma empty_request_answer_witness :
  let request := Scenarios.request_for ∅ 400 true in
  batteries request = ∅
  /\ _run_request Scenarios.shared_inverter request
     = Ok [send_awaited (Error request (msg_no_data ∅))].
Proof.
  intro request. split; [reflexivity|].
  exact (empty_request_answer Scenarios.shared_inverter request eq_refl).
Defined.

(** X4.  A request that names a battery which is not a key of the
    battery-to-inverters map is answered with an [Error], whatever else it
    asks for. *)
Theorem unknown_battery_answer (self : Actor) (request : Request)
    (battery : Z) :
  battery ∈ batteries request ->
  _bat_invs_map self !! battery = None ->
  exists m, _run_request self request = Ok [send_awaited (Error request m)].
Proof.
  intros Hin Hnone.
  assert (Hdata : exists m,
             _get_components_data self (batteries request)
             = Raise (KeyError m)).
  { unfold _get_components_data.
    match goal with
    | |- context [bind ?c _] => destruct c as [u|e] eqn:Hw
    end.
    - simpl.
      destruct (_get_all_from_map (_bat_invs_map self) (batteries request))
        as [ci|e] eqn:Hci.
      + exfalso. apply get_all_from_map_Ok in Hci as [Hsub _].
        apply Hsub, elem_of_dom in Hin as (v & Hv). congruence.
      + simpl. apply get_all_from_map_Raise in Hci as (m & ->). eauto.
    - simpl. apply for_each_Raise in Hw as (b & _ & Hb).
      destruct (contains (_battery_receivers self) b); inversion Hb. eauto. }
  destruct Hdata as (m & Hdata). exists m.
  now apply components_data_KeyError_answer.
Qed.

Lemma unknown_battery_answer_witness :
  let request := Scenarios.request_for {[ 1; 3 ]} 400 true in
  (3 ∈ batteries request)
  /\ _bat_invs_map Scenarios.shared_inverter !! 3 = None
  /\ exists m,
       _run_request Scenarios.shared_inverter request
       = Ok [send_awaited (Error request m)].
Proof.
  intro request.
  assert (H1 : 3 ∈ batteries request)
    by (apply (bool_decide_unpack _); vm_compute; exact I).
  assert (H2 : _bat_invs_map Scenarios.shared_inverter !! 3 = None)
    by reflexivity.
  split; [exact H1|]. split; [exact H2|].
  exact (unknown_battery_answer Scenarios.shared_inverter request 3 H1 H2).
Defined.

(** X5.  If none of the requested batteries is considered working, the
    request is answered with an [Error]; no power is distributed. *)
Theorem no_working_battery_answer (self : Actor) (request : Request) :
  get_working_batteries self (batteries request) = ∅ ->
  exists m, _run_request self request = Ok [send_awaited (Error request m)].
Proof.
  intro Hw.
  destruct (_get_components_data self (batteries request)) as [pairs|e] eqn:Hd.
  - assert (pairs = []).
    { unfold _get_components_data in Hd. rewrite Hw in Hd.
      rewrite elements_empty in Hd. simpl in Hd.
      apply bind_Ok in Hd as (ci & _ & Hd).
      apply bind_Ok in Hd as (bfi & _ & Hd).
      destruct (bool_decide _).
      - apply bind_Ok in Hd as (? & _ & Hd). discriminate.
      - simpl in Hd. rewrite elements_empty in Hd. simpl in Hd.
        now inversion Hd. }
    subst pairs. unfold _run_request. rewrite Hd. eauto.
  - assert (exists m, e = KeyError m) as (m & ->).
    { unfold _get_components_data in Hd. rewrite Hw in Hd.
      rewrite elements_empty in Hd. simpl in Hd.
      apply bind_Raise in Hd as [Hd|(ci & _ & Hd)];
        [eapply get_all_from_map_Raise, Hd|].
      apply bind_Raise in Hd as [Hd|(bfi & _ & Hd)];
        [eapply get_all_from_map_Raise, Hd|].
      destruct (bool_decide _).
      - apply bind_Raise in Hd as [Hd|(invs & _ & Hd)];
          [eapply get_all_from_map_Raise, Hd|].
        inversion Hd. eauto.
      - simpl in Hd. rewrite elements_empty in Hd. discriminate. }
    exists m. now apply components_data_KeyError_answer.
Qed.

Lemma no_working_battery_answer_witness :
  let self := Scenarios.nothing_works in
  let request := Scenarios.request_for {[ 1; 2 ]} 400 true in
  get_working_batteries self (batteries request) = ∅
  /\ exists m, _run_request self request = Ok [send_awaited (Error request m)].
Proof.
  intros self request.
  assert (H : get_working_batteries self (batteries request) = ∅)
    by (vm_compute; reflexivity).
  split; [exact H|]. exact (no_working_battery_answer self request H).
Defined.

(** X6.  [_get_power_distribution] never changes what the algorithm
    returns: a distribution it returns is the algorithm's, for the power
    and the pairs as given; an exception other than a [KeyError] of its
    own lookups is the algorithm's as well. *)
Theorem get_power_distribution_passes (self : Actor) (request : Request)
    (pairs : list InvBatPair) :
  (forall d,
     _get_power_distribution self request pairs = Ok d ->
     distribute_power self (power request) pairs = Ok d)
  /\ (forall e,
        _get_power_distribution self request pairs = Raise e ->
        (exists m, e = KeyError m)
        \/ distribute_power self (power request) pairs = Raise e).
Proof.
  unfold _get_power_distribution. split.
  - intros d (av & _ & H)%bind_Ok.
    apply bind_Ok in H as (invs & _ & H). exact H.
  - intros e [H|(av & _ & H)]%bind_Raise.
    { left. eapply get_all_from_map_Raise, H. }
    apply bind_Raise in H as [H|(invs & _ & H)].
    + left. apply for_each_Raise in H as (k & _ & [-> _]%getitem_Raise). eauto.
    + right. exact H.
Qed.

Lemma take_length_prefix {A : Type} (n : nat) (l : list A) :
  (n <= length l)%nat -> length (take n l) = n.
Proof. intro H. rewrite length_take. lia. Qed.

(** X7.  In any surroundings, the results that the loop hands to the
    sender are, in order, one for each of the requests it got through: all
    of them if no exception left the loop, and those before the request
    that raised it otherwise. *)
Theorem results_follow_requests (requests : list (Actor * Request)) :
  exists n,
    (n <= length requests)%nat
    /\ map result_request (sent_results (fst (_run requests)))
       = map snd (take n requests)
    /\ (snd (_run requests) = None <-> n = length requests).
Proof.
  induction requests as [|[self request] requests (n & Hn & Hres & Hend)];
    simpl.
  - exists 0%nat. simpl. repeat split; auto.
  - destruct (_run_request self request) as [effects|e] eqn:Hrun.
    + destruct (_run requests) as [effects' e'].
      simpl in *. exists (S n). split; [lia|].
      destruct (run_request_one_result _ _ _ Hrun) as (r & Hr & Hreq).
      rewrite sent_results_app, map_app, Hr, Hres. simpl. rewrite Hreq.
      split; [reflexivity|]. rewrite Hend. lia.
    + exists 0%nat. simpl. split; [lia|]. split; [reflexivity|].
      split; [discriminate|lia].
Qed.

End LoopAnswers.

(** ** The outcome of the fan-out *)

Section FanOut.
Import PowerDistributing.

(** X8.  What [_parse_result] adds up: the failed batteries are those
    behind the inverters whose task did not return (whether it raised an
    RPC error, [OUT_OF_RANGE] or another, or was cancelled), and the
    failed power is the sum, in the order of the tasks, of what those
    inverters were commanded. *)
Theorem parse_result_failures (self : Actor) (tasks : list (Z * TaskOutcome))
    (d : gmap Z pyfloat) (fp0 fp : pyfloat) (fb0 fb : gset Z) :
  _parse_result self tasks d fp0 fb0 = Ok (fp, fb) ->
  fb = fb0 ∪ ⋃ (omap (fun i => _inv_bats_map self !! i)
                  (failed_inverters tasks))
  /\ fp = fold_left fadd (omap (fun i => d !! i) (failed_inverters tasks)) fp0.
Proof.
  revert fp0 fb0.
  induction tasks as [|[i aws] tasks IH]; intros fp0 fb0; simpl.
  - intro H; inversion H; subst. unfold failed_inverters; simpl.
    split; [set_solver|reflexivity].
  - intros (bats & Hb%getitem_Ok & H)%bind_Ok.
    unfold failed_inverters in *.
    destruct aws; simpl.
    + apply IH, H.
    + apply bind_Ok in H as (dist & Hd%getitem_Ok & H).
      apply IH in H as [-> ->]. rewrite Hb, Hd. simpl.
      split; [set_solver|reflexivity].
    + apply bind_Ok in H as (dist & Hd%getitem_Ok & H).
      apply IH in H as [-> ->]. rewrite Hb, Hd. simpl.
      split; [set_solver|reflexivity].
Qed.

Lemma parse_result_failures_witness :
  let self := Scenarios.two_batteries Scenarios.second_hangs in
  let d : gmap Z pyfloat :=
    {[ 101 := Scenarios.W 200; 102 := Scenarios.W 200 ]} in
  let tasks := [ (101, task_returned); (102, task_cancelled) ] in
  _parse_result self tasks d (Fin 0) ∅ = Ok (Fin (0 + 200), {[ 2 ]})
  /\ ({[ 2 ]} : gset Z)
     = ∅ ∪ ⋃ (omap (fun i => _inv_bats_map self !! i)
                (failed_inverters tasks)).
Proof.
  intros self d tasks.
  assert (H : _parse_result self tasks d (Fin 0) ∅
              = Ok (Fin (0 + 200), {[ 2 ]}))
    by (vm_compute; reflexivity).
  split; [exact H|].
  exact (proj1 (parse_result_failures self tasks d _ _ _ _ H)).
Defined.

Lemma failed_inverters_subset (tasks : list (Z * TaskOutcome)) (i : Z) :
  i ∈ failed_inverters tasks -> i ∈ map fst tasks.
Proof.
  unfold failed_inverters.
  intros (t & <- & Hin%filter_In)%list_elem_of_In%in_map_iff.
  apply list_elem_of_In, in_map. tauto.
Qed.

Lemma set_distributed_power_failed (self : Actor) (d : DistributionResult)
    (fp : pyfloat) (fb : gset Z) :
  _set_distributed_power self d = Ok (fp, fb) ->
  fb ⊆ distribution_batteries self d.
Proof.
  unfold _set_distributed_power.
  set (tasks := map _ (map_to_list (distribution d))).
  assert (Hfst : map fst tasks = map fst (map_to_list (distribution d))).
  { unfold tasks. rewrite map_map. apply map_ext. now intros [i v]. }
  destruct tasks as [|t ts] eqn:Et; [discriminate|]. rewrite <- Et in *.
  clear Et t ts.
  intros [-> _]%parse_result_failures b.
  rewrite (left_id_L ∅ (∪)), elem_of_union_list.
  intros (bats & (i & Hi & Hbats)%list_elem_of_omap & Hb).
  apply failed_inverters_subset in Hi. rewrite Hfst in Hi.
  apply list_elem_of_In, in_map_iff in Hi as ([i' v] & <- & Hin).
  unfold distribution_batteries. apply elem_of_union_list.
  exists bats. split; [|exact Hb].
  apply list_elem_of_omap. exists (i', v).
  split; [now apply list_elem_of_In|exact Hbats].
Qed.

(** X9.  When a request has been distributed, the health tracker is told
    about every battery of the distribution exactly once: the succeeded
    and the failed batteries passed to [update_status] are disjoint, and
    together they are the batteries behind the commanded inverters. *)
Theorem update_status_partition (self : Actor) (request : Request)
    (effects : list Effect) (succeeded failed : gset Z) (r : Result) :
  _run_request self request = Ok effects ->
  In (gather_not_awaited succeeded failed r) effects ->
  exists d failed_power,
    distributed self request d failed_power failed
    /\ succeeded ## failed
    /\ succeeded ∪ failed = distribution_batteries self d.
Proof.
  intros Hrun Hin.
  destruct (run_request_cases _ _ _ Hrun)
    as [(m & ->)|[(ps & _ & _ & -> & _)|(d & fp & fb & bd & Hd & Hbd & ->)]].
  - destruct Hin as [H|[]]; discriminate.
  - destruct Hin as [H|[]]; discriminate.
  - destruct Hin as [H|[H|[]]]; [discriminate|].
    inversion H; subst failed; clear H.
    apply battery_distribution_dom in Hbd.
    rewrite dom_empty_L, (left_id_L ∅ (∪)) in Hbd.
    fold (distribution_batteries self d) in Hbd.
    assert (Hsub : fb ⊆ distribution_batteries self d).
    { destruct Hd as (ps & _ & _ & _ & _ & Hset).
      eapply set_distributed_power_failed, Hset. }
    exists d, fp. split; [exact Hd|].
    destruct (Nat.ltb 0 (size fb)) eqn:Hfb.
    + rewrite Hbd in *. subst succeeded. split; [set_solver|].
      apply set_eq. intro b. rewrite elem_of_union, elem_of_difference.
      split; [intros [[? _]|?]; auto|].
      intro Hb. destruct (decide (b ∈ fb)); [right|left]; auto.
    + assert (fb = ∅) as ->.
      { destruct (decide (fb = ∅)) as [|Hne]; [assumption|].
        apply size_positive_nonempty in Hne. congruence. }
      subst succeeded. rewrite Hbd. split; set_solver.
Qed.

Lemma update_status_partition_witness :
  let self := Scenarios.two_batteries Scenarios.second_hangs in
  let request := Scenarios.request_for {[ 1; 2 ]} 400 false in
  let effects := Scenarios.effects_of (_run_request self request) in
  let r :=
    PartialFailure request (Fin (400 # 2)) {[ 1 ]} (Fin (400 # 2)) {[ 2 ]}
      (Fin 0) in
  _run_request self request = Ok effects
  /\ In (gather_not_awaited {[ 1 ]} {[ 2 ]} r) effects
  /\ exists d failed_power,
       distributed self request d failed_power {[ 2 ]}
       /\ ({[ 1 ]} : gset Z) ∪ {[ 2 ]} = distribution_batteries self d.
Proof.
  intros self request effects r.
  assert (H1 : _run_request self request = Ok effects)
    by (vm_compute; reflexivity).
  assert (H2 : In (gather_not_awaited {[ 1 ]} {[ 2 ]} r) effects)
    by (right; left; vm_compute; reflexivity).
  split; [exact H1|]. split; [exact H2|].
  destruct (update_status_partition self request effects {[ 1 ]} {[ 2 ]} r
              H1 H2) as (d & fp & Hd & _ & Hu).
  exists d, fp. split; assumption.
Defined.

End FanOut.

(** ** The snapshot *)

Section Snapshot.
Import PowerDistributing.

Lemma no_nan_metric {D : Type} (data : list D) (metrics : list (D -> pyfloat)) :
  nan_metric_in_list data metrics = false ->
  Forall (fun d => Forall (fun metric => isnan (metric d) = false) metrics)
    data.
Proof.
  unfold nan_metric_in_list, metric_is_nan. intro H.
  apply List.Forall_forall. intros d Hd.
  apply List.Forall_forall. intros metric Hm.
  destruct (isnan (metric d)) eqn:E; [|reflexivity].
  assert (Hex : existsb
                  (fun datum => existsb (fun metric => isnan (metric datum))
                                  metrics) data = true).
  { apply existsb_exists. exists d. split; [exact Hd|].
    apply existsb_exists. exists metric. auto. }
  congruence.
Qed.

Lemma all_some_omap {A B : Type} (f : A -> option B -> Prop) (ks : list A)
    (l : list (option B)) :
  forallb is_some l = true ->
  Forall2 (fun k o => f k o) ks l ->
  Forall2 (fun k d => f k (Some d)) ks (omap id l).
Proof.
  intros Hall H. induction H as [|k [d|] ks l Hk _ IH]; simpl in *.
  - constructor.
  - constructor; [exact Hk|]. apply IH, Hall.
  - discriminate.
Qed.

(** X10.  A pair that [_get_battery_inverter_data] returns holds, for each
    of the given inverters and in their order, the latest data of that
    inverter; every given battery and inverter has delivered data, and
    none of the crucial metrics of any of them is [NaN]. *)
Theorem battery_inverter_data_sound (self : Actor) (battery_ids inverter_ids : gset Z)
    (pair : InvBatPair) :
  _get_battery_inverter_data self battery_ids inverter_ids = Ok (Some pair) ->
  Forall2 (fun i d => _inverter_receivers self !! i = Some (Some d))
    (elements inverter_ids) (inverter pair)
  /\ Forall crucial_inverter_metrics_ok (inverter pair)
  /\ exists battery_data,
       Forall2 (fun b d => _battery_receivers self !! b = Some (Some d))
         (elements battery_ids) battery_data
       /\ Forall crucial_battery_metrics_ok battery_data
       /\ battery pair = aggregated_battery_data battery_data.
Proof.
  unfold _get_battery_inverter_data.
  intros (bdn & Hb%for_each_Ok & H)%bind_Ok.
  apply bind_Ok in H as (idn & Hi%for_each_Ok & H).
  destruct (forallb is_some bdn) eqn:Eb; [|discriminate].
  destruct (forallb is_some idn) eqn:Ei; [|discriminate].
  simpl in H.
  destruct (nan_metric_in_list (omap id bdn) crucial_metrics_bat) eqn:Nb;
    [discriminate|].
  destruct (nan_metric_in_list (omap id idn) crucial_metrics_inv) eqn:Ni;
    [discriminate|].
  inversion H; subst pair; clear H. simpl.
  split; [|split].
  - apply (all_some_omap (fun i o => _inverter_receivers self !! i = Some o));
      [exact Ei|].
    eapply Forall2_impl; [exact Hi|]. intros i o Ho. now apply getitem_Ok.
  - eapply List.Forall_impl; [|exact (no_nan_metric _ _ Ni)].
    intros d Hd. unfold crucial_metrics_inv in Hd.
    inversion Hd as [|? ? H1 Hd1]; subst. inversion Hd1; subst.
    split; assumption.
  - exists (omap id bdn). split; [|split; [|reflexivity]].
    + apply (all_some_omap (fun b o => _battery_receivers self !! b = Some o));
        [exact Eb|].
      eapply Forall2_impl; [exact Hb|]. intros b o Ho. now apply getitem_Ok.
    + eapply List.Forall_impl; [|exact (no_nan_metric _ _ Nb)].
      intros d Hd. unfold crucial_metrics_bat in Hd.
      repeat match goal with
             | H : Forall _ (_ :: _) |- _ => inversion H; subst; clear H
             end.
      repeat split; assumption.
Qed.

Lemma battery_inverter_data_sound_witness :
  let self := Scenarios.shared_inverter in
  let pair :=
    {| battery :=
         aggregated_battery_data
           [ Scenarios.battery_data 2 (-500) (-10) 10 500;
             Scenarios.battery_data 1 (-500) (-10) 10 500 ];
       inverter := [ Scenarios.inverter_data 101 (-500) (-10) 10 500 ] |} in
  _get_battery_inverter_data self {[ 1; 2 ]} {[ 101 ]} = Ok (Some pair)
  /\ Forall crucial_inverter_metrics_ok (inverter pair).
Proof.
  intros self pair.
  assert (H : _get_battery_inverter_data self {[ 1; 2 ]} {[ 101 ]}
              = Ok (Some pair))
    by (vm_compute; reflexivity).
  split; [exact H|].
  exact (proj1 (proj2 (battery_inverter_data_sound self _ _ pair H))).
Defined.

Lemma size_list_to_set_le (l : list (gset Z)) :
  (size (list_to_set l : gset (gset Z)) <= length l)%nat.
Proof.
  induction l as [|x l IH].
  - rewrite list_to_set_nil, size_empty. simpl. lia.
  - rewrite list_to_set_cons, size_union_alt, size_singleton. simpl.
    assert (size (list_to_set l ∖ {[x]} : gset (gset Z))
            <= size (list_to_set l : gset (gset Z)))%nat
      by (apply subseteq_size; set_solver).
    lia.
Qed.

Lemma length_omap_le {A B : Type} (f : A -> option B) (l : list A) :
  (length (omap f l) <= length l)%nat.
Proof.
  induction l as [|x l IH]; simpl; [lia|].
  change (list_omap A B f l) with (omap f l).
  destruct (f x); simpl; lia.
Qed.

(** X11.  A snapshot that [_get_components_data] returns is for a set of
    batteries that is closed under the topology (the batteries of their
    inverters are the requested ones); it has at most one pair for each
    working battery among them, and every pair has at least one inverter
    and no [NaN] among the crucial metrics of its inverters. *)
Theorem components_data_pairs (self : Actor) (bs : gset Z)
    (pairs : list InvBatPair) :
  _get_components_data self bs = Ok pairs ->
  (exists connected_inverters,
     _get_all_from_map (_bat_invs_map self) bs = Ok connected_inverters
     /\ _get_all_from_map (_inv_bats_map self) connected_inverters = Ok bs)
  /\ (length pairs <= size (get_working_batteries self bs))%nat
  /\ Forall (fun pair =>
               inverter pair <> []
               /\ Forall crucial_inverter_metrics_ok (inverter pair))
       pairs.
Proof.
  unfold _get_components_data.
  intros (u & _ & H)%bind_Ok.
  apply bind_Ok in H as (ci & Hci & H).
  apply bind_Ok in H as (bfi & Hbfi & H).
  destruct (bool_decide (bfi <> bs)) eqn:Eb.
  { apply bind_Ok in H as (invs & _ & H). discriminate. }
  apply bool_decide_eq_false_1 in Eb.
  assert (bfi = bs) as -> by (destruct (decide (bfi = bs)); tauto).
  apply bind_Ok in H as (sets & Hsets%for_each_Ok & H).
  apply bind_Ok in H as (data & Hdata%for_each_Ok & H).
  inversion H; subst pairs; clear H.
  split; [eauto|]. split.
  - eapply Nat.le_trans; [apply length_omap_le|].
    rewrite <- (Forall2_length _ _ _ Hdata).
    change (length (elements (list_to_set sets : gset (gset Z))))
      with (size (list_to_set sets : gset (gset Z))).
    eapply Nat.le_trans; [apply size_list_to_set_le|].
    rewrite <- (Forall2_length _ _ _ Hsets). reflexivity.
  - apply List.Forall_forall. intros pair Hin.
    apply list_elem_of_In, list_elem_of_omap in Hin as ([p|] & Hin & Hp);
      inversion Hp; subst p.
    destruct (Forall2_elem_r _ _ _ _ Hdata Hin) as (bids & _ & Hpair).
    unfold pair_of_battery_set in Hpair.
    apply bind_Ok in Hpair as (first & _ & Hpair).
    apply bind_Ok in Hpair as (iids & _ & Hpair).
    apply bind_Ok in Hpair as ([pair'|] & Hget & Hpair); [|discriminate].
    destruct (Nat.ltb_spec 0 (length (inverter pair'))) as [Hlen|];
      [|discriminate].
    inversion Hpair; subst pair'; clear Hpair.
    split.
    + intro He. rewrite He in Hlen. simpl in Hlen. lia.
    + apply (battery_inverter_data_sound _ _ _ _ Hget).
Qed.

Lemma components_data_pairs_witness :
  let self := Scenarios.two_batteries Scenarios.all_respond in
  let bs : gset Z := {[ 1; 2 ]} in
  let pairs := Scenarios.pairs_of (_get_components_data self bs) in
  _get_components_data self bs = Ok pairs
  /\ length pairs = 2%nat
  /\ (length pairs <= size (get_working_batteries self bs))%nat.
Proof.
  intros self bs pairs.
  assert (H : _get_components_data self bs = Ok pairs)
    by (vm_compute; reflexivity).
  split; [exact H|]. split; [vm_compute; reflexivity|].
  exact (proj1 (proj2 (components_data_pairs self bs pairs H))).
Defined.

End Snapshot.

(** ** The topology maps and the receivers *)

Section Topology.
Import PowerDistributing.

Lemma setdefault_update_mapped (d : gmap Z (gset Z)) (key : Z) (more : gset Z)
    (k v : Z) :
  mapped_to (setdefault_update d key more) k v
  <-> mapped_to d k v \/ (k = key /\ v ∈ more).
Proof.
  unfold mapped_to, setdefault_update.
  destruct (decide (k = key)) as [->|Hne].
  - rewrite lookup_insert_eq. split.
    + intros (s & [= <-] & [Hv|Hv]%elem_of_union); [|auto].
      left. destruct (d !! key) as [s|]; simpl in Hv; [eauto|set_solver].
    + intros [(s & Hs & Hv)|[_ Hv]]; eexists; (split; [reflexivity|]).
      * rewrite Hs. simpl. set_solver.
      * set_solver.
  - rewrite lookup_insert_ne by congruence. split; [auto|].
    intros [H|[? _]]; [exact H|contradiction].
Qed.

Lemma fold_inverters_mapped (battery_id : Z) (seen : gset Z) (l : list Z)
    (acc : option (gmap Z (gset Z)) * option (gmap Z (gset Z))) :
  let final :=
    fold_left
      (fun (acc : option (gmap Z (gset Z)) * option (gmap Z (gset Z)))
           inverter =>
         (option_map
            (fun d => setdefault_update d inverter {[ battery_id ]})
            (fst acc),
          option_map
            (fun d => setdefault_update d inverter seen)
            (snd acc)))
      l acc in
  (forall d, fst acc = Some d ->
     exists d', fst final = Some d'
       /\ forall i b, mapped_to d' i b
                      <-> mapped_to d i b \/ (i ∈ l /\ b = battery_id))
  /\ (forall d, snd acc = Some d ->
        exists d', snd final = Some d'
          /\ forall i b, mapped_to d' i b
                         <-> mapped_to d i b \/ (i ∈ l /\ b ∈ seen)).
Proof.
  revert acc. induction l as [|i0 l IH]; intro acc; simpl.
  - split; intros d Hd; exists d; (split; [exact Hd|]); intros i b;
      split; auto; intros [H|[H _]]; [exact H|inversion H| exact H|inversion H].
  - destruct (IH (option_map
                    (fun d => setdefault_update d i0 {[ battery_id ]})
                    (fst acc),
                  option_map (fun d => setdefault_update d i0 seen)
                    (snd acc))) as [IH1 IH2].
    split; intros d Hd.
    + destruct (IH1 (setdefault_update d i0 {[ battery_id ]}))
        as (d' & Hd' & Hrel); [simpl; now rewrite Hd|].
      exists d'. split; [exact Hd'|]. intros i b.
      rewrite Hrel, setdefault_update_mapped, elem_of_cons, elem_of_singleton.
      tauto.
    + destruct (IH2 (setdefault_update d i0 seen))
        as (d' & Hd' & Hrel); [simpl; now rewrite Hd|].
      exists d'. split; [exact Hd'|]. intros i b.
      rewrite Hrel, setdefault_update_mapped, elem_of_cons.
      tauto.
Qed.

Lemma map_battery_cases (component_graph : ComponentGraph) (maps : Mappings)
    (battery_id : Z) :
  let inverters := inverters_of component_graph battery_id in
  (inverters = ∅ /\ map_battery component_graph maps battery_id = maps)
  \/ (inverters <> ∅
      /\ bat_invs (map_battery component_graph maps battery_id)
         = <[ battery_id := inverters ]> (bat_invs maps)
      /\ (forall d, inv_bats maps = Some d ->
            exists d',
              inv_bats (map_battery component_graph maps battery_id) = Some d'
              /\ forall i b, mapped_to d' i b
                             <-> mapped_to d i b
                                 \/ (i ∈ inverters /\ b = battery_id))
      /\ (forall d, inv_invs maps = Some d ->
            exists d',
              inv_invs (map_battery component_graph maps battery_id) = Some d'
              /\ forall i b, mapped_to d' i b
                             <-> mapped_to d i b
                                 \/ (i ∈ inverters
                                     /\ b ∈ dom (<[ battery_id := inverters ]>
                                                   (bat_invs maps))))).
Proof.
  intro inverters. unfold map_battery.
  fold (inverters_of component_graph battery_id). fold inverters.
  destruct (Nat.eqb_spec (size inverters) 0) as [Hsize|Hsize].
  - left. split; [now apply size_empty_inv, leibniz_equiv in Hsize|reflexivity].
  - right. split.
    { intros He. apply Hsize. rewrite He. apply size_empty. }
    split; [reflexivity|]. simpl.
    destruct (fold_inverters_mapped battery_id
                (dom (<[ battery_id := inverters ]> (bat_invs maps)))
                (elements inverters) (inv_bats maps, inv_invs maps))
      as [H1 H2].
    split; intros d Hd.
    + destruct (H1 d Hd) as (d' & Hd' & Hrel). exists d'.
      split; [exact Hd'|]. intros i b. rewrite Hrel, elem_of_elements.
      reflexivity.
    + destruct (H2 d Hd) as (d' & Hd' & Hrel). exists d'.
      split; [exact Hd'|]. intros i b. rewrite Hrel, elem_of_elements.
      reflexivity.
Qed.

Lemma mappings_inverse_fold (component_graph : ComponentGraph)
    (batteries seen : list Z) (maps : Mappings) (d : gmap Z (gset Z)) :
  (forall b s, bat_invs maps !! b = Some s
               <-> b ∈ seen /\ s = inverters_of component_graph b /\ s <> ∅) ->
  inv_bats maps = Some d ->
  (forall i b, mapped_to d i b <-> mapped_to (bat_invs maps) b i) ->
  let final := fold_left (map_battery component_graph) batteries maps in
  (forall b s, bat_invs final !! b = Some s
               <-> b ∈ seen ++ batteries
                   /\ s = inverters_of component_graph b /\ s <> ∅)
  /\ exists d', inv_bats final = Some d'
       /\ forall i b, mapped_to d' i b <-> mapped_to (bat_invs final) b i.
Proof.
  revert seen maps d.
  induction batteries as [|b0 batteries IH]; intros seen maps d Hbi Hd Hrel;
    simpl.
  - rewrite app_nil_r. eauto.
  - replace (seen ++ b0 :: batteries) with ((seen ++ [b0]) ++ batteries)
      by now rewrite <- app_assoc.
    destruct (map_battery_cases component_graph maps b0)
      as [[Hnone ->]|(Hsome & Hbi' & Hib' & _)].
    + apply (IH _ _ d); [|exact Hd|exact Hrel].
      intros b s. rewrite Hbi, elem_of_app, list_elem_of_singleton.
      split; [tauto|]. intros ([Hb| ->] & Hs & Hne); [tauto|].
      congruence.
    + destruct (Hib' d Hd) as (d' & Hd' & Hrel').
      apply (IH _ _ d'); [|exact Hd'|].
      * intros b s. rewrite Hbi', elem_of_app, list_elem_of_singleton.
        destruct (decide (b = b0)) as [->|Hne].
        -- rewrite lookup_insert_eq. split.
           ++ intros [= <-]. auto.
           ++ intros (_ & -> & _). reflexivity.
        -- rewrite lookup_insert_ne by congruence. rewrite Hbi. tauto.
      * intros i b. rewrite Hrel', Hrel, Hbi'. unfold mapped_to.
        destruct (decide (b = b0)) as [->|Hne].
        -- rewrite lookup_insert_eq. split.
           ++ intros [(s & Hs & Hi)|[Hi _]]; [|eauto].
              apply Hbi in Hs as (_ & -> & _). eauto.
           ++ intros (s & [= <-] & Hi). auto.
        -- rewrite lookup_insert_ne by congruence. split; [|auto].
           intros [H|[_ ?]]; [exact H|contradiction].
Qed.

(** X12.  The maps of [_get_battery_inverter_mappings]: a battery is a
    key of the battery-to-inverters map exactly when it is one of the
    given batteries and the graph has an inverter before it, and it is
    then mapped to these inverters; the inverter-to-batteries map is the
    same relation read from the inverters. *)
Theorem battery_inverter_mappings_inverse (component_graph : ComponentGraph)
    (batteries : list Z) (with_bat_bats with_inv_invs : bool) :
  let maps :=
    _get_battery_inverter_mappings component_graph batteries true
      with_bat_bats with_inv_invs in
  (forall b s, bat_invs maps !! b = Some s
               <-> b ∈ batteries
                   /\ s = inverters_of component_graph b /\ s <> ∅)
  /\ exists inv_bats_map,
       inv_bats maps = Some inv_bats_map
       /\ forall i b,
            mapped_to inv_bats_map i b <-> mapped_to (bat_invs maps) b i.
Proof.
  unfold _get_battery_inverter_mappings.
  apply (mappings_inverse_fold component_graph batteries [] _ ∅).
  - intros b s. simpl. rewrite lookup_empty. split; [discriminate|].
    intros [Hb _]. inversion Hb.
  - reflexivity.
  - intros i b. unfold mapped_to. simpl. rewrite !lookup_empty.
    split; intros (s & Hs & _); discriminate.
Qed.

Lemma inv_invs_fold (component_graph : ComponentGraph) (batteries : list Z)
    (maps : Mappings) (d : gmap Z (gset Z)) :
  inv_invs maps = Some d ->
  (forall i b, mapped_to d i b -> b ∈ dom (bat_invs maps)) ->
  (forall i b, mapped_to (bat_invs maps) b i -> mapped_to d i b) ->
  let final := fold_left (map_battery component_graph) batteries maps in
  exists d', inv_invs final = Some d'
    /\ (forall i b, mapped_to d' i b -> b ∈ dom (bat_invs final))
    /\ (forall i b, mapped_to (bat_invs final) b i -> mapped_to d' i b).
Proof.
  revert maps d.
  induction batteries as [|b0 batteries IH]; intros maps d Hd Hup Hlow; simpl.
  - eauto.
  - destruct (map_battery_cases component_graph maps b0)
      as [[Hnone ->]|(Hsome & Hbi' & _ & Hii')].
    + apply (IH _ d); assumption.
    + destruct (Hii' d Hd) as (d' & Hd' & Hrel').
      apply (IH _ d'); [exact Hd'| |].
      * intros i b [H|[_ H]]%Hrel'; rewrite Hbi'; [|exact H].
        rewrite dom_insert_L. apply elem_of_union_r. eapply Hup, H.
      * intros i b. rewrite Hbi', Hrel'. unfold mapped_to at 1.
        destruct (decide (b = b0)) as [->|Hne].
        -- rewrite lookup_insert_eq. intros (s & [= <-] & Hi).
           right. split; [exact Hi|]. rewrite dom_insert_L. set_solver.
        -- rewrite lookup_insert_ne by congruence. intro H. left.
           apply Hlow, H.
Qed.

(** X13.  What [_get_battery_inverter_mappings] calls the
    inverter-to-inverters map holds identifiers of batteries: an inverter
    is mapped to keys of the battery-to-inverters map only, and to each
    battery that it is an inverter of. *)
Theorem inv_invs_holds_batteries (component_graph : ComponentGraph)
    (batteries : list Z) (with_inv_bats with_bat_bats : bool) :
  let maps :=
    _get_battery_inverter_mappings component_graph batteries with_inv_bats
      with_bat_bats true in
  exists inv_invs_map,
    inv_invs maps = Some inv_invs_map
    /\ (forall i b, mapped_to inv_invs_map i b -> b ∈ dom (bat_invs maps))
    /\ (forall i b,
          mapped_to (bat_invs maps) b i -> mapped_to inv_invs_map i b).
Proof.
  unfold _get_battery_inverter_mappings.
  apply (inv_invs_fold component_graph batteries _ ∅).
  - reflexivity.
  - intros i b (s & Hs & _). simpl in Hs. rewrite lookup_empty in Hs.
    discriminate.
  - intros i b (s & Hs & _). simpl in Hs. rewrite lookup_empty in Hs.
    discriminate.
Qed.

Lemma fold_insert_latest {D : Type} (latest : Z -> option D) (l : list Z)
    (m : gmap Z (option D)) (i : Z) :
  fold_left (fun receivers id => <[ id := latest id ]> receivers) l m !! i
  = if bool_decide (i ∈ l) then Some (latest i) else m !! i.
Proof.
  revert m. induction l as [|k l IH]; intro m; simpl; [reflexivity|].
  rewrite IH.
  destruct (bool_decide (i ∈ l)) eqn:E.
  - apply bool_decide_eq_true_1 in E.
    rewrite bool_decide_eq_true_2; [reflexivity|now right].
  - apply bool_decide_eq_false_1 in E.
    destruct (decide (i = k)) as [->|Hne].
    + rewrite lookup_insert_eq.
      rewrite bool_decide_eq_true_2; [reflexivity|left].
    + rewrite lookup_insert_ne by congruence.
      rewrite bool_decide_eq_false_2; [reflexivity|].
      intros [?|?]%elem_of_cons; congruence.
Qed.

Lemma create_channels_inverters_fold (latest_battery : Z -> option BatteryData)
    (latest_inverter : Z -> option InverterData)
    (l : list (Z * gset Z))
    (receivers : gmap Z (option BatteryData) * gmap Z (option InverterData))
    (i : Z) (o : option InverterData) :
  snd (fold_left
         (fun receivers kv =>
            (<[ fst kv := latest_battery (fst kv) ]> (fst receivers),
             fold_left
               (fun inverter_receivers inverter_id =>
                  <[ inverter_id := latest_inverter inverter_id ]>
                    inverter_receivers)
               (elements (snd kv)) (snd receivers)))
         l receivers) !! i = Some o
  <-> ((exists kv, kv ∈ l /\ i ∈ snd kv) /\ o = latest_inverter i)
      \/ ((forall kv, kv ∈ l -> i ∉ snd kv) /\ snd receivers !! i = Some o).
Proof.
  revert receivers. induction l as [|[k v] l IH]; intro receivers; simpl.
  - split.
    + intro H. right. split; [|exact H]. intros kv Hkv. inversion Hkv.
    + intros [[(kv & Hkv & _) _]|[_ H]]; [inversion Hkv|exact H].
  - rewrite IH. simpl. rewrite fold_insert_latest.
    destruct (bool_decide (i ∈ elements v)) eqn:E.
    + apply bool_decide_eq_true_1, elem_of_elements in E. split.
      * intros [[(kv & Hkv & Hi) ->]|[_ [= <-]]]; left; split; try reflexivity.
        -- exists kv. split; [now right|exact Hi].
        -- exists (k, v). split; [left|exact E].
      * intros [[_ ->]|[Hno _]].
        -- destruct (decide (Exists (fun kv => i ∈ snd kv) l)) as [Hex|Hno].
           ++ left. apply Exists_exists in Hex as (kv & Hkv & Hi).
              split; [|reflexivity]. exists kv. auto.
           ++ right. split; [|reflexivity]. intros kv Hkv Hi. apply Hno.
              apply Exists_exists. eauto.
        -- exfalso. apply (Hno (k, v)); [left|exact E].
    + apply bool_decide_eq_false_1 in E. rewrite elem_of_elements in E. split.
      * intros [[(kv & Hkv & Hi) ->]|[Hno H]].
        -- left. split; [|reflexivity]. exists kv. split; [now right|exact Hi].
        -- right. split; [|exact H]. intros kv [->|Hkv]%elem_of_cons;
             [exact E|now apply Hno].
      * intros [[(kv & [->|Hkv]%elem_of_cons & Hi) ->]|[Hno H]].
        -- contradiction.
        -- left. split; [|reflexivity]. eauto.
        -- right. split; [|exact H]. intros kv Hkv. apply Hno. now right.
Qed.

(** X14.  The receivers that [_create_channels] sets up: one for each key
    of the battery-to-inverters map and one for each inverter of a set of
    that map, and for no other component; each is the stream of the
    component it is filed under. *)
Theorem create_channels_receivers (bat_invs_map : gmap Z (gset Z))
    (latest_battery : Z -> option BatteryData)
    (latest_inverter : Z -> option InverterData) :
  let receivers :=
    _create_channels bat_invs_map latest_battery latest_inverter in
  (forall b o, fst receivers !! b = Some o
               <-> b ∈ dom bat_invs_map /\ o = latest_battery b)
  /\ (forall i o, snd receivers !! i = Some o
                  <-> (exists b, mapped_to bat_invs_map b i)
                      /\ o = latest_inverter i).
Proof.
  split.
  - intros b o. rewrite create_channels_lookup.
    destruct (bool_decide (b ∈ dom bat_invs_map)) eqn:E.
    + apply bool_decide_eq_true_1 in E. split.
      * intros [= <-]. auto.
      * intros [_ ->]. reflexivity.
    + apply bool_decide_eq_false_1 in E. split; [discriminate|tauto].
  - intros i o. unfold _create_channels.
    rewrite create_channels_inverters_fold. simpl. rewrite lookup_empty.
    split.
    + intros [[([b s] & Hkv%elem_of_map_to_list & Hi) ->]|[_ ?]];
        [|discriminate].
      split; [|reflexivity]. exists b, s. auto.
    + intros [(b & s & Hs & Hi) ->]. left. split; [|reflexivity].
      exists (b, s). split; [now apply elem_of_map_to_list|exact Hi].
Qed.

Lemma two_inverter_graph_consistent (battery_id : Z) (c : Component) :
  In c (predecessors Scenarios.two_inverter_graph battery_id) ->
  is_inverter c = true ->
  In battery_id
    (map graph_component_id
       (successors Scenarios.two_inverter_graph (graph_component_id c))).
Proof.
  simpl. destruct (Z.eqb_spec battery_id 1) as [->|_].
  - intros [<-|[<-|[]]] Hinv; [left; reflexivity|discriminate].
  - destruct (Z.eqb_spec battery_id 2) as [->|_]; [|intros []].
    intros [<-|[]] _. left; reflexivity.
Qed.

Lemma init_well_formed_witness :
  let self :=
    __init__ Scenarios.two_inverter_graph [1; 2; 3] Scenarios.latest_battery
      Scenarios.latest_inverter {[ 1; 2 ]} Scenarios.equal_split
      Scenarios.all_respond in
  _bat_invs_map self = {[ 1 := {[ 101 ]}; 2 := {[ 102 ]} ]}
  /\ well_formed self.
Proof.
  intro self.
  assert (Hmap : _bat_invs_map self = {[ 1 := {[ 101 ]}; 2 := {[ 102 ]} ]})
    by (apply (bool_decide_unpack _); vm_compute; exact I).
  assert (Hdom : dom (_inv_bats_map self) = {[ 101; 102 ]})
    by (apply (bool_decide_unpack _); vm_compute; exact I).
  split; [exact Hmap|].
  apply (init_well_formed Scenarios.two_inverter_graph
           two_inverter_graph_consistent).
  - intros b d [= <-]. reflexivity.
  - intros p pairs e H. discriminate.
  - intros p pairs d _ [= <-]. fold self. rewrite Hdom.
    cbn [distribution]. split.
    + intro He. apply (f_equal (fun m => m !! 101)) in He.
      rewrite lookup_insert_eq, lookup_empty in He. discriminate.
    + rewrite !dom_insert_L. set_solver.
Defined.

End Topology.

(** ** The registry of the resampler and its clock *)

Section Registry.
Import Resampling.

Lemma registered_app (config : ResamplerConfig)
    (rs : list (Z * _StreamingHelper.state)) (w : Q) (source other : Z)
    (st : _StreamingHelper.state) :
  Resampler.registered
    {| Resampler._config := config;
       Resampler._resamplers := rs ++ [(source, st)];
       Resampler._window_end := w |} other
  = Resampler.registered
      {| Resampler._config := config;
         Resampler._resamplers := rs;
         Resampler._window_end := w |} other
    || (source =? other)%Z.
Proof.
  unfold Resampler.registered. simpl. rewrite existsb_app. simpl.
  now rewrite orb_false_r.
Qed.

Lemma filter_unregistered (rs : list (Z * _StreamingHelper.state))
    (source : Z) :
  existsb (fun kv => (fst kv =? source)%Z) rs = false ->
  List.filter (fun kv => negb (fst kv =? source)%Z) rs = rs.
Proof.
  induction rs as [|kv rs IH]; simpl; [reflexivity|].
  intros [Hkv Hrs]%orb_false_iff. rewrite Hkv. simpl. now rewrite IH.
Qed.

Lemma filter_registered (rs : list (Z * _StreamingHelper.state))
    (source other : Z) :
  existsb (fun kv => (fst kv =? other)%Z)
    (List.filter (fun kv => negb (fst kv =? source)%Z) rs)
  = existsb (fun kv => (fst kv =? other)%Z) rs && negb (other =? source)%Z.
Proof.
  induction rs as [|kv rs IH]; simpl; [reflexivity|].
  destruct (Z.eqb_spec (fst kv) source) as [Hs|Hs]; simpl; rewrite IH.
  - destruct (Z.eqb_spec (fst kv) other) as [Ho|Ho]; simpl; [|reflexivity].
    assert (other = source) as -> by congruence.
    rewrite Z.eqb_refl. simpl. now rewrite andb_false_r.
  - destruct (Z.eqb_spec (fst kv) other) as [Ho|Ho]; simpl; [|reflexivity].
    destruct (Z.eqb_spec other source); [congruence|reflexivity].
Qed.

(** X16.  With a configuration that [__post_init__] accepts,
    [add_timeseries] of a source that is not registered returns [True];
    the source is registered afterwards, with a helper whose receiving
    task runs and whose buffer is empty and has the initial length; the
    timeseries that were there and the end of the window are untouched;
    and adding the source once more returns [False] and changes
    nothing. *)
Theorem add_timeseries_registers (self : Resampler.state) (name : string)
    (source : Z) (sink : Sample -> res unit) :
  __post_init__ (Resampler._config self) = Ok tt ->
  Resampler.registered self source = false ->
  exists self' st,
    Resampler.add_timeseries self name source sink = Ok (true, self')
    /\ Resampler._resamplers self'
       = Resampler._resamplers self ++ [(source, st)]
    /\ _StreamingHelper._receiving_task st = _StreamingHelper.running
    /\ _ResamplingHelper._buffer (_StreamingHelper._helper st)
       = {| items := [];
            maxlen := initial_buffer_len (Resampler._config self) |}
    /\ Resampler._window_end self' = Resampler._window_end self
    /\ Resampler.registered self' source = true
    /\ (forall other,
          other <> source ->
          Resampler.registered self' other = Resampler.registered self other)
    /\ forall name' sink',
         Resampler.add_timeseries self' name' source sink'
         = Ok (false, self').
Proof.
  intros Hvalid%post_init_accepts Hnew.
  destruct Hvalid as (_ & _ & Hinit & _).
  unfold Resampler.add_timeseries. rewrite Hnew.
  unfold _ResamplingHelper.__init__, deque_new.
  destruct (Z.ltb_spec (initial_buffer_len (Resampler._config self)) 0);
    [lia|].
  simpl. eexists _, _. split; [reflexivity|]. simpl.
  repeat split.
  - destruct self as [config rs w]. rewrite registered_app.
    rewrite Z.eqb_refl. apply orb_true_r.
  - intros other Hother. destruct self as [config rs w].
    rewrite registered_app.
    destruct (Z.eqb_spec source other); [congruence|apply orb_false_r].
  - intros name' sink'. destruct self as [config rs w].
    rewrite registered_app, Z.eqb_refl, orb_true_r. reflexivity.
Qed.

Lemma add_timeseries_registers_witness :
  let self := Resampler.__init__ (Scenarios.default_config 2) 100 in
  __post_init__ (Resampler._config self) = Ok tt
  /\ Resampler.registered self 7 = false
  /\ exists self',
       Resampler.add_timeseries self "meter" 7 Scenarios.accepting_sink
       = Ok (true, self')
       /\ Resampler.registered self' 7 = true.
Proof.
  intro self.
  assert (H1 : __post_init__ (Resampler._config self) = Ok tt)
    by reflexivity.
  assert (H2 : Resampler.registered self 7 = false) by reflexivity.
  split; [exact H1|]. split; [exact H2|].
  destruct (add_timeseries_registers self "meter" 7 Scenarios.accepting_sink
              H1 H2) as (self' & st & Hadd & _ & _ & _ & _ & Hreg & _).
  exists self'. split; assumption.
Defined.

(** X17.  [remove_timeseries] returns whether the source was registered;
    afterwards the source is not registered, the registration of every
    other source is as before, and nothing at all has changed if [False]
    was returned.  Removing a source that [add_timeseries] has just added
    gives back the resampler as it was. *)
Theorem remove_timeseries_unregisters (self : Resampler.state) (source : Z) :
  let removed := fst (Resampler.remove_timeseries self source) in
  let self' := snd (Resampler.remove_timeseries self source) in
  removed = Resampler.registered self source
  /\ Resampler.registered self' source = false
  /\ (forall other,
        other <> source ->
        Resampler.registered self' other = Resampler.registered self other)
  /\ (removed = false -> self' = self)
  /\ forall self0 name sink,
       Resampler.add_timeseries self0 name source sink = Ok (true, self) ->
       Resampler.remove_timeseries self source = (true, self0).
Proof.
  unfold Resampler.remove_timeseries.
  destruct (Resampler.registered self source) eqn:Hreg; simpl.
  - split; [reflexivity|]. split; [|split; [|split]].
    + unfold Resampler.registered. simpl. rewrite filter_registered.
      rewrite Z.eqb_refl. apply andb_false_r.
    + intros other Hother. unfold Resampler.registered. simpl.
      rewrite filter_registered.
      destruct (Z.eqb_spec other source); [congruence|apply andb_true_r].
    + discriminate.
    + intros self0 name sink. unfold Resampler.add_timeseries.
      destruct (Resampler.registered self0 source) eqn:Hreg0;
        [discriminate|].
      intros (helper & _ & [= <-])%bind_Ok. simpl.
      rewrite List.filter_app, (filter_unregistered _ _ Hreg0). simpl.
      rewrite Z.eqb_refl. simpl. rewrite app_nil_r.
      now destruct self0.
  - split; [reflexivity|]. split; [exact Hreg|].
    split; [reflexivity|]. split; [reflexivity|].
    intros self0 name sink. unfold Resampler.add_timeseries.
    destruct (Resampler.registered self0 source) eqn:Hreg0; [discriminate|].
    intros (helper & _ & [= <-])%bind_Ok.
    destruct self0 as [config rs w]. rewrite registered_app in Hreg.
    rewrite Z.eqb_refl, orb_true_r in Hreg. discriminate.
Qed.

(** X18.  [_wait_for_next_resampling_period] sleeps exactly when the
    window has not ended yet, and then for the time that is left of it;
    it warns exactly when it is called more than a tenth of the period
    after the end of the window.  With a configuration that
    [__post_init__] accepts it never does both. *)
Theorem wait_sleeps_or_warns (self : Resampler.state) (now : Q) :
  __post_init__ (Resampler._config self) = Ok tt ->
  let sleep_for :=
    fst (Resampler._wait_for_next_resampling_period self now) in
  let warns := snd (Resampler._wait_for_next_resampling_period self now) in
  (sleep_for = None <-> (Resampler._window_end self <= now)%Q)
  /\ (forall d,
        sleep_for = Some d ->
        d = (Resampler._window_end self - now)%Q /\ (0 < d)%Q
        /\ warns = false)
  /\ (warns = true
      <-> (resampling_period_s (Resampler._config self) / 10
           < now - Resampler._window_end self)%Q).
Proof.
  intros Hvalid%post_init_accepts. destruct Hvalid as (Hperiod & _).
  unfold Resampler._wait_for_next_resampling_period. simpl.
  set (w := Resampler._window_end self).
  set (P := resampling_period_s (Resampler._config self)) in *.
  split; [|split].
  - destruct (Qle_bool w now) eqn:E; simpl.
    + apply Qle_bool_iff in E. tauto.
    + split; [discriminate|]. intros H%Qle_bool_iff. congruence.
  - intros d. destruct (Qle_bool w now) eqn:E; simpl; [discriminate|].
    intros [= <-]. apply Qle_bool_false in E.
    split; [reflexivity|]. split.
    + unfold Qminus. rewrite <- Qlt_minus_iff. exact E.
    + apply negb_false_iff, Qle_bool_iff.
      apply Qle_trans with 0%Q.
      * apply Qlt_le_weak. unfold Qminus.
        apply (Qplus_lt_l _ _ w). ring_simplify. exact E.
      * apply Qle_shift_div_l; [reflexivity|]. now ring_simplify.
  - rewrite negb_true_iff. split.
    + intros H. apply Qle_bool_false, H.
    + intros H. destruct (Qle_bool (now - w) (P / 10)) eqn:E; [|reflexivity].
      apply Qle_bool_iff in E. exfalso. exact (Qlt_not_le _ _ H E).
Qed.

Lemma wait_sleeps_or_warns_witness :
  let self := Scenarios.meter_resampler in
  __post_init__ (Resampler._config self) = Ok tt
  /\ Resampler._wait_for_next_resampling_period self 101 = (Some (102 - 101)%Q, false)
  /\ Resampler._wait_for_next_resampling_period self 110 = (None, true)
  /\ (fst (Resampler._wait_for_next_resampling_period self 110) = None
      <-> (Resampler._window_end self <= 110)%Q).
Proof.
  intro self.
  assert (H : __post_init__ (Resampler._config self) = Ok tt) by reflexivity.
  split; [exact H|]. split; [reflexivity|]. split; [reflexivity|].
  exact (proj1 (wait_sleeps_or_warns self 110 H)).
Defined.

End Registry.

(** ** Sources that stop or fail *)

Section StoppedSources.
Import Resampling.
Import Pipeline.

Lemma receive_samples_done (st : _StreamingHelper.state)
    (ev : _StreamingHelper.source_event) :
  _StreamingHelper._receiving_task st <> _StreamingHelper.running ->
  _StreamingHelper._receive_samples st ev = st.
Proof.
  unfold _StreamingHelper._receive_samples.
  destruct (_StreamingHelper._receiving_task st); congruence.
Qed.

(** The exception that [resample] raises once the receiving task is
    done. *)
Lemma streaming_resample_done_raises (st : _StreamingHelper.state) (t : Q) :
  _StreamingHelper._receiving_task st <> _StreamingHelper.running ->
  _StreamingHelper.sent (_StreamingHelper.resample st t) = None
  /\ _StreamingHelper.raised (_StreamingHelper.resample st t)
     = Some match _StreamingHelper._receiving_task st with
            | _StreamingHelper.failed e => e
            | _StreamingHelper.cancelled => CancelledError
            | _ => SourceStoppedError (_StreamingHelper._source st)
            end.
Proof.
  unfold _StreamingHelper.resample.
  destruct (_StreamingHelper._receiving_task st); [congruence|..];
    intros _; split; reflexivity.
Qed.

(** X19.  Once the receiving task of a streaming helper is done (the
    source stopped or failed, or the task was cancelled), whatever the
    source does and however often [resample] is called, every call raises
    the same exception (the one of the source, [SourceStoppedError] or
    [CancelledError]), sends nothing to the sink, does not invoke the
    resampling function and leaves the helper as it is. *)
Theorem done_source_keeps_raising (st : _StreamingHelper.state)
    (events : list event) :
  _StreamingHelper._receiving_task st <> _StreamingHelper.running ->
  fst (run st events) = st
  /\ forall c,
       In c (snd (run st events)) ->
       before c = st
       /\ _StreamingHelper.after (did c) = st
       /\ _StreamingHelper.sent (did c) = None
       /\ _StreamingHelper.invocations (did c) = []
       /\ _StreamingHelper.raised (did c)
          = Some match _StreamingHelper._receiving_task st with
                 | _StreamingHelper.failed e => e
                 | _StreamingHelper.cancelled => CancelledError
                 | _ => SourceStoppedError (_StreamingHelper._source st)
                 end.
Proof.
  intro Hdone. induction events as [|[what|t] events IH]; simpl.
  - split; [reflexivity|intros c []].
  - rewrite receive_samples_done by exact Hdone. exact IH.
  - destruct (streaming_resample_done st t Hdone) as [Hafter Hinv].
    destruct (streaming_resample_done_raises st t Hdone) as [Hsent Hraised].
    rewrite Hafter. destruct (run st events) as [final calls].
    simpl in *. destruct IH as [-> IH]. split; [reflexivity|].
    intros c [<-|Hc]; [|auto]. simpl. auto.
Qed.

Lemma done_source_keeps_raising_witness :
  let st :=
    _StreamingHelper._receive_samples
      (_StreamingHelper.__init__ Scenarios.fresh_helper 7
         Scenarios.accepting_sink)
      _StreamingHelper.stops in
  let events :=
    [ resample_at 102;
      source_does (_StreamingHelper.yields (Scenarios.sample 103 5));
      resample_at 104 ] in
  _StreamingHelper._receiving_task st <> _StreamingHelper.running
  /\ length (snd (run st events)) = 2%nat
  /\ forall c,
       In c (snd (run st events)) ->
       _StreamingHelper.raised (did c) = Some (SourceStoppedError 7).
Proof.
  intros st events.
  assert (H : _StreamingHelper._receiving_task st <> _StreamingHelper.running)
    by discriminate.
  split; [exact H|]. split; [reflexivity|].
  intros c Hc.
  exact (proj2 (proj2 (proj2 (proj2
           (proj2 (done_source_keeps_raising st events H) c Hc))))).
Defined.

Lemma deliver_done (rs : list (Z * _StreamingHelper.state))
    (a : Z * _StreamingHelper.source_event) (source : Z)
    (st : _StreamingHelper.state) :
  _StreamingHelper._receiving_task st <> _StreamingHelper.running ->
  In (source, st) rs -> In (source, st) (Resampler.deliver rs a).
Proof.
  intros Hdone Hin. unfold Resampler.deliver. apply in_map_iff.
  exists (source, st). split; [|exact Hin]. simpl.
  rewrite receive_samples_done by exact Hdone. now destruct (_ =? _)%Z.
Qed.

Lemma fold_deliver_done (l : list (Z * _StreamingHelper.source_event))
    (rs : list (Z * _StreamingHelper.state)) (source : Z)
    (st : _StreamingHelper.state) :
  _StreamingHelper._receiving_task st <> _StreamingHelper.running ->
  In (source, st) rs -> In (source, st) (fold_left Resampler.deliver l rs).
Proof.
  intro Hdone. revert rs. induction l as [|a l IH]; intros rs Hin; simpl.
  - exact Hin.
  - apply IH, deliver_done; assumption.
Qed.

(** X20.  A resampler with a timeseries whose receiving task is done
    fails in the first pass of every call of [resample]: the call raises
    [ResamplingError] with the exception of that timeseries among the
    ones it reports; the end of the window has moved on by one period all
    the same, and the timeseries is still registered, so that the next
    call fails again. *)
Theorem stopped_source_fails_resample (one_shot : bool)
    (env : Resampler.period_env) (periods : list Resampler.period_env)
    (self : Resampler.state) (source : Z) (st : _StreamingHelper.state) :
  In (source, st) (Resampler._resamplers self) ->
  _StreamingHelper._receiving_task st <> _StreamingHelper.running ->
  exists final pass exceptions e,
    Resampler.resample one_shot (env :: periods) self
    = (final, [pass], Resampler.raises_ResamplingError exceptions)
    /\ In (source, e) exceptions
    /\ _StreamingHelper.raised
         (_StreamingHelper.resample st (Resampler._window_end self)) = Some e
    /\ In (source, st) (Resampler._resamplers final)
    /\ Resampler._window_end final
       = (Resampler._window_end self
          + resampling_period_s (Resampler._config self))%Q.
Proof.
  intros Hin Hdone. simpl.
  set (resamplers := fold_left Resampler.deliver (Resampler.arrivals env)
                       (Resampler._resamplers self)).
  set (results := map _ resamplers).
  set (self' := {| Resampler._config := Resampler._config self;
                   Resampler._resamplers := _;
                   Resampler._window_end := _ |}).
  set (this := {| Resampler.slept := _; Resampler.calls := results |}).
  destruct (streaming_resample_done_raises st (Resampler._window_end self)
              Hdone) as [_ Hraised].
  destruct (streaming_resample_done st (Resampler._window_end self) Hdone)
    as [Hafter _].
  set (e := match _StreamingHelper._receiving_task st with
            | _StreamingHelper.failed e => e
            | _StreamingHelper.cancelled => CancelledError
            | _ => SourceStoppedError (_StreamingHelper._source st)
            end) in *.
  assert (Hres : In (source, Resampler._window_end self,
                     _StreamingHelper.resample st (Resampler._window_end self))
                   results).
  { unfold results. apply in_map_iff. exists (source, st).
    split; [reflexivity|]. now apply fold_deliver_done. }
  assert (Hexc : In (source, e) (Resampler.exceptions_of results)).
  { unfold Resampler.exceptions_of.
    apply list_elem_of_In, list_elem_of_omap.
    eexists. split; [apply list_elem_of_In, Hres|].
    simpl. now rewrite Hraised. }
  assert (Hstill : In (source, st) (Resampler._resamplers self')).
  { simpl. apply in_map_iff. eexists. split; [|exact Hres].
    simpl. now rewrite Hafter. }
  destruct (Resampler.exceptions_of results) as [|ex exs] eqn:E;
    [destruct Hexc|].
  exists self', this, (ex :: exs), e. auto.
Qed.

Lemma stopped_source_fails_resample_witness :
  let st :=
    _StreamingHelper.stop
      (_StreamingHelper.__init__ Scenarios.fresh_helper 7
         Scenarios.accepting_sink) in
  let self :=
    {| Resampler._config := Scenarios.default_config 2;
       Resampler._resamplers := [ (7, st) ];
       Resampler._window_end := 102 |} in
  let env := {| Resampler.clock := 102; Resampler.arrivals := [] |} in
  In (7, st) (Resampler._resamplers self)
  /\ _StreamingHelper._receiving_task st <> _StreamingHelper.running
  /\ snd (Resampler.resample false [env; env] self)
     = Resampler.raises_ResamplingError [(7, CancelledError)]
  /\ exists final pass exceptions,
       Resampler.resample false [env; env] self
       = (final, [pass], Resampler.raises_ResamplingError exceptions).
Proof.
  intros st self env.
  assert (H1 : In (7, st) (Resampler._resamplers self)) by (left; reflexivity).
  assert (H2 : _StreamingHelper._receiving_task st
               <> _StreamingHelper.running) by discriminate.
  split; [exact H1|]. split; [exact H2|]. split; [reflexivity|].
  destruct (stopped_source_fails_resample false env [env] self 7 st H1 H2)
    as (final & pass & exceptions & e & Hrun & _).
  exists final, pass, exceptions. exact Hrun.
Defined.

(** X21.  How a call of [resample] can end.  It makes at most one pass
    for each period; no pass but the last one has met an exception.  It
    raises [ResamplingError] only with the exceptions of its last pass, of
    which there is at least one; it returns only if [one_shot] was set, after
    exactly one pass without exceptions; and otherwise it is still running
    after a pass without exceptions for every period. *)
Theorem resample_outcome (one_shot : bool)
    (periods : list Resampler.period_env)
    (self final : Resampler.state) (passes : list Resampler.pass)
    (out : Resampler.outcome) :
  Resampler.resample one_shot periods self = (final, passes, out) ->
  (length passes <= length periods)%nat
  /\ (forall k pass,
        passes !! k = Some pass -> (S k < length passes)%nat ->
        Resampler.exceptions_of (Resampler.calls pass) = [])
  /\ match out with
     | Resampler.raises_ResamplingError exceptions =>
         exceptions <> []
         /\ exists pass,
              last passes = Some pass
              /\ exceptions = Resampler.exceptions_of (Resampler.calls pass)
     | Resampler.returns =>
         one_shot = true
         /\ exists pass,
              passes = [pass]
              /\ Resampler.exceptions_of (Resampler.calls pass) = []
     | Resampler.still_running =>
         (one_shot = false \/ periods = [])
         /\ length passes = length periods
         /\ forall pass,
              In pass passes ->
              Resampler.exceptions_of (Resampler.calls pass) = []
     end.
Proof.
  revert self final passes out.
  induction periods as [|env periods IH]; intros self final passes out; simpl.
  { intro H; inversion H; subst. simpl. split; [lia|].
    split; [intros k pass Hk; inversion Hk|].
    split; [now right|]. split; [reflexivity|intros pass []]. }
  set (resamplers := fold_left Resampler.deliver (Resampler.arrivals env)
                       (Resampler._resamplers self)).
  set (results := map _ resamplers).
  set (self' := {| Resampler._config := Resampler._config self;
                   Resampler._resamplers := _;
                   Resampler._window_end := _ |}).
  set (this := {| Resampler.slept := _; Resampler.calls := results |}).
  destruct (Resampler.exceptions_of results) as [|ex exs] eqn:E.
  2:{ intro H; inversion H; subst. simpl. split; [lia|].
      split; [intros k pass Hk Hlt; lia|].
      split; [discriminate|]. exists this. split; [reflexivity|].
      simpl. now rewrite E. }
  destruct one_shot.
  { intro H; inversion H; subst. simpl. split; [lia|].
    split; [intros k pass Hk Hlt; lia|].
    split; [reflexivity|]. exists this. split; [reflexivity|exact E]. }
  destruct (Resampler.resample false periods self')
    as [[final' passes'] out'] eqn:Hrec.
  intro H; inversion H; subst final' out' passes; clear H.
  destruct (IH _ _ _ _ Hrec) as (Hlen & Hmid & Hout).
  split; [simpl; lia|]. split.
  { intros [|k] pass Hk Hlt; simpl in *.
    - inversion Hk; subst pass. exact E.
    - apply (Hmid k); [exact Hk|lia]. }
  destruct out as [|exceptions|].
  - destruct Hout as [Hcontra _]. discriminate.
  - destruct Hout as (Hne & pass & Hlast & Hexc). split; [exact Hne|].
    exists pass. split; [|exact Hexc]. rewrite last_cons. now rewrite Hlast.
  - destruct Hout as (_ & Hlen' & Hall). split; [now left|].
    split; [simpl; lia|]. intros pass [<-|Hp]; [exact E|auto].
Qed.

Lemma resample_outcome_witness :
  let final := fst (fst Scenarios.meter_run) in
  let passes := snd (fst Scenarios.meter_run) in
  let out := snd Scenarios.meter_run in
  Resampler.resample false Scenarios.three_periods Scenarios.meter_resampler
  = (final, passes, out)
  /\ out = Resampler.raises_ResamplingError [(7, SourceStoppedError 7)]
  /\ (length passes <= length Scenarios.three_periods)%nat.
Proof.
  intros final passes out.
  assert (H : Resampler.resample false Scenarios.three_periods
                Scenarios.meter_resampler = (final, passes, out)).
  { unfold final, passes, out, Scenarios.meter_run.
    destruct (Resampler.resample _ _ _) as [[? ?] ?]. reflexivity. }
  split; [exact H|].
  split; [vm_compute; reflexivity|].
  exact (proj1 (resample_outcome false Scenarios.three_periods
                  Scenarios.meter_resampler final passes out H)).
Defined.

End StoppedSources.

(** ** What the helper keeps *)

Section HelperInvariants.
Import Resampling.
Import Pipeline.

Lemma resample_known_period (h : _ResamplingHelper.state) (t ip : Q) :
  sampling_period_s (_ResamplingHelper._source_properties h) = Some ip ->
  _ResamplingHelper.after (_ResamplingHelper.resample h t) = h.
Proof.
  intro Hp.
  unfold _ResamplingHelper.resample,
    _ResamplingHelper._update_source_sample_period.
  rewrite Hp.
  destruct (negb _); simpl; [reflexivity|].
  destruct (_ResamplingHelper.relevant_samples h t); reflexivity.
Qed.

Lemma receive_samples_keeps (st : _StreamingHelper.state)
    (ev : _StreamingHelper.source_event) :
  let h := _StreamingHelper._helper st in
  let h' :=
    _StreamingHelper._helper (_StreamingHelper._receive_samples st ev) in
  sampling_period_s (_ResamplingHelper._source_properties h')
  = sampling_period_s (_ResamplingHelper._source_properties h)
  /\ maxlen (_ResamplingHelper._buffer h')
     = maxlen (_ResamplingHelper._buffer h)
  /\ _ResamplingHelper._config h' = _ResamplingHelper._config h.
Proof.
  unfold _StreamingHelper._receive_samples.
  destruct (_StreamingHelper._receiving_task st); auto.
  destruct ev as [sample| |e]; auto.
  destruct (value sample) as [v|]; auto.
  destruct (negb (isnan v)); auto.
Qed.

Lemma streaming_resample_known_period (st : _StreamingHelper.state)
    (t ip : Q) :
  sampling_period_s
    (_ResamplingHelper._source_properties (_StreamingHelper._helper st))
  = Some ip ->
  _StreamingHelper._helper
    (_StreamingHelper.after (_StreamingHelper.resample st t))
  = _StreamingHelper._helper st.
Proof.
  intro Hp. unfold _StreamingHelper.resample.
  destruct (_StreamingHelper._receiving_task st); try reflexivity.
  destruct (_ResamplingHelper.returned _); simpl;
    apply (resample_known_period _ t ip Hp).
Qed.

(** X22.  The input period of a source is inferred once and for all: as
    soon as the helper has one, no sample that arrives and no call of
    [resample] changes it, nor the length of the buffer; the calls of
    [resample] leave the helper exactly as they found it. *)
Theorem inferred_period_is_final (st : _StreamingHelper.state)
    (events : list event) (ip : Q) :
  sampling_period_s
    (_ResamplingHelper._source_properties (_StreamingHelper._helper st))
  = Some ip ->
  let h := _StreamingHelper._helper st in
  let h' := _StreamingHelper._helper (fst (run st events)) in
  sampling_period_s (_ResamplingHelper._source_properties h') = Some ip
  /\ maxlen (_ResamplingHelper._buffer h')
     = maxlen (_ResamplingHelper._buffer h)
  /\ forall c,
       In c (snd (run st events)) ->
       _StreamingHelper._helper (_StreamingHelper.after (did c))
       = _StreamingHelper._helper (before c).
Proof.
  revert st. induction events as [|[what|t] events IH]; intros st Hp; simpl.
  - split; [exact Hp|]. split; [reflexivity|intros c []].
  - destruct (receive_samples_keeps st what) as (Hp' & Hlen & _).
    simpl in Hp', Hlen. rewrite <- Hlen. apply IH. now rewrite Hp'.
  - assert (Hsame := streaming_resample_known_period st t ip Hp).
    specialize (IH (_StreamingHelper.after (_StreamingHelper.resample st t))).
    rewrite Hsame in IH. specialize (IH Hp).
    destruct (run (_StreamingHelper.after (_StreamingHelper.resample st t))
                events) as [final calls].
    simpl in *. destruct IH as (Hp' & Hlen & Hcalls).
    split; [exact Hp'|]. split; [exact Hlen|].
    intros c [<-|Hc]; [exact Hsame|auto].
Qed.

Lemma inferred_period_is_final_witness :
  let st :=
    _StreamingHelper.__init__ Scenarios.helper_inferred 7
      Scenarios.accepting_sink in
  let events :=
    [ source_does (_StreamingHelper.yields (Scenarios.sample 32 7));
      source_does (_StreamingHelper.yields (Scenarios.sample 33 7));
      resample_at 34;
      source_does (_StreamingHelper.yields (Scenarios.sample 40 7));
      resample_at 42 ] in
  sampling_period_s
    (_ResamplingHelper._source_properties (_StreamingHelper._helper st))
  = Some (32 # 16)%Q
  /\ sampling_period_s
       (_ResamplingHelper._source_properties
          (_StreamingHelper._helper (fst (run st events))))
     = Some (32 # 16)%Q.
Proof.
  intros st events.
  assert (H : sampling_period_s
                (_ResamplingHelper._source_properties
                   (_StreamingHelper._helper st)) = Some (32 # 16)%Q)
    by (vm_compute; reflexivity).
  split; [exact H|].
  exact (proj1 (inferred_period_is_final st events (32 # 16) H)).
Defined.

Lemma append_bounded (d : deque) (x : Sample) :
  (0 <= maxlen d)%Z -> (deque_len d <= maxlen d)%Z ->
  (deque_len (append d x) <= maxlen (append d x))%Z
  /\ maxlen (append d x) = maxlen d.
Proof.
  intros Hn Hlen. split; [|reflexivity].
  unfold deque_len. rewrite (append_items d x Hn Hlen). simpl.
  now apply newest_length.
Qed.

Lemma update_period_unchanged (h h1 : _ResamplingHelper.state) (now : Q) :
  _ResamplingHelper._update_source_sample_period h now = Ok (false, h1) ->
  h1 = h.
Proof.
  unfold _ResamplingHelper._update_source_sample_period.
  destruct (negb (0 <? _)%Z); [discriminate|].
  destruct (sampling_period_s _); [now intros [= <-]|].
  destruct (sampling_start _); [|now intros [= <-]].
  destruct (_ || _); [now intros [= <-]|].
  destruct (_ =? _)%Z; discriminate.
Qed.

Lemma receive_samples_bounded (config : ResamplerConfig)
    (st : _StreamingHelper.state) (ev : _StreamingHelper.source_event) :
  buffer_bounded config (_StreamingHelper._helper st) ->
  buffer_bounded config
    (_StreamingHelper._helper (_StreamingHelper._receive_samples st ev)).
Proof.
  intros [Hlen Hmax]. unfold _StreamingHelper._receive_samples.
  destruct (_StreamingHelper._receiving_task st); try (split; assumption).
  destruct ev as [sample| |e]; try (split; assumption).
  destruct (value sample) as [v|]; [|split; assumption].
  destruct (negb (isnan v)); [|split; assumption].
  unfold buffer_bounded. simpl.
  destruct (append_bounded
              (_ResamplingHelper._buffer (_StreamingHelper._helper st))
              sample) as [Hlen' Hmax']; [lia|exact Hlen|].
  simpl in Hmax'. split; [exact Hlen'|]. exact Hmax.
Qed.

Lemma helper_resample_bounded (config : ResamplerConfig)
    (h : _ResamplingHelper.state) (t : Q) :
  __post_init__ config = Ok tt ->
  helper_ok config h ->
  buffer_bounded config h ->
  buffer_bounded config
    (_ResamplingHelper.after (_ResamplingHelper.resample h t)).
Proof.
  intros Hvalid Hok [Hlen Hmax].
  destruct (updates_ok config h t Hvalid Hok)
    as (changed & h1 & rebuilt & h2 & Hupd & Hbuf & _).
  assert (Hafter : _ResamplingHelper.after (_ResamplingHelper.resample h t)
                   = h2).
  { unfold _ResamplingHelper.resample. rewrite Hupd, Hbuf.
    destruct (_ResamplingHelper.relevant_samples h2 t); reflexivity. }
  rewrite Hafter. clear Hafter.
  assert (Hconfig : _ResamplingHelper._config h = config) by apply Hok.
  destruct changed.
  - assert (Hvalid' : __post_init__ (_ResamplingHelper._config h) = Ok tt)
      by (rewrite Hconfig; exact Hvalid).
    destruct (inferred_period h h1 t Hvalid' Hupd)
      as (start & _ & _ & _ & Hh1).
    destruct (update_buffer_len_inferred h h1 t Hvalid' Hupd)
      as (ip & _ & _ & [Hlo Hhi] & Hrebuilt).
    assert (Hb1 : _ResamplingHelper._buffer h1 = _ResamplingHelper._buffer h)
      by (rewrite Hh1; reflexivity).
    assert (Hc1 : _ResamplingHelper._config h1 = config)
      by (rewrite Hh1; exact Hconfig).
    rewrite Hrebuilt in Hbuf. rewrite Hc1 in *.
    destruct (_ =? _)%Z; inversion Hbuf; subst h2; clear Hbuf.
    + unfold buffer_bounded. rewrite Hb1. split; assumption.
    + unfold buffer_bounded, deque_len. simpl.
      split; [apply newest_length; lia|lia].
  - inversion Hbuf; subst h2.
    apply update_period_unchanged in Hupd. subst h1. split; assumption.
Qed.

Lemma streaming_resample_bounded (config : ResamplerConfig)
    (st : _StreamingHelper.state) (t : Q) :
  __post_init__ config = Ok tt ->
  helper_ok config (_StreamingHelper._helper st) ->
  buffer_bounded config (_StreamingHelper._helper st) ->
  buffer_bounded config
    (_StreamingHelper._helper
       (_StreamingHelper.after (_StreamingHelper.resample st t))).
Proof.
  intros Hvalid Hok Hb.
  assert (Hcases : _StreamingHelper._receiving_task st
                   = _StreamingHelper.running
                   \/ _StreamingHelper._receiving_task st
                      <> _StreamingHelper.running)
    by (destruct (_StreamingHelper._receiving_task st); auto; right;
        discriminate).
  destruct Hcases as [Hrun|Hdone].
  - destruct (streaming_resample_running st t Hrun) as (-> & _).
    now apply helper_resample_bounded.
  - destruct (streaming_resample_done st t Hdone) as [-> _]. exact Hb.
Qed.

Lemma run_bounded (config : ResamplerConfig) (st : _StreamingHelper.state)
    (events : list event) :
  __post_init__ config = Ok tt ->
  helper_ok config (_StreamingHelper._helper st) ->
  buffer_bounded config (_StreamingHelper._helper st) ->
  buffer_bounded config (_StreamingHelper._helper (fst (run st events))).
Proof.
  intro Hvalid. revert st.
  induction events as [|[what|t] events IH]; intros st Hok Hb; simpl.
  - exact Hb.
  - apply IH; [apply receive_samples_ok, Hok|apply receive_samples_bounded, Hb].
  - destruct (resample_well_used config st t Hvalid Hok) as [Hafter _].
    assert (Hb' := streaming_resample_bounded config st t Hvalid Hok Hb).
    specialize (IH _ Hafter Hb').
    destruct (run (_StreamingHelper.after (_StreamingHelper.resample st t))
                events) as [final calls].
    exact IH.
Qed.

(** X23.  The buffer of a timeseries stays within its bounds: whatever
    the source delivers and whenever [resample] is called, the buffer of
    a helper that was created with an accepted configuration holds at
    most as many samples as its length allows, and this length is between
    one and [max_buffer_len]. *)
Theorem buffer_stays_bounded (config : ResamplerConfig) (name : string)
    (source : Z) (sink : Sample -> res unit)
    (helper : _ResamplingHelper.state) (events : list event) :
  __post_init__ config = Ok tt ->
  _ResamplingHelper.__init__ name config = Ok helper ->
  let h :=
    _StreamingHelper._helper
      (fst (run (_StreamingHelper.__init__ helper source sink) events)) in
  (Z.of_nat (length (items (_ResamplingHelper._buffer h)))
   <= maxlen (_ResamplingHelper._buffer h))%Z
  /\ (1 <= maxlen (_ResamplingHelper._buffer h) <= max_buffer_len config)%Z.
Proof.
  intros Hvalid Hinit.
  apply (run_bounded config (_StreamingHelper.__init__ helper source sink)
           events Hvalid).
  - apply (init_ok name config helper Hvalid Hinit).
  - apply post_init_accepts in Hvalid as (_ & _ & Hlo & Hhi & _).
    unfold _ResamplingHelper.__init__, deque_new in Hinit.
    destruct (_ <? _)%Z; [discriminate|]. simpl in Hinit.
    inversion Hinit; subst helper.
    unfold buffer_bounded, deque_len. simpl. lia.
Qed.

Lemma buffer_stays_bounded_witness :
  let config := Scenarios.default_config 2 in
  let h :=
    _StreamingHelper._helper
      (fst (run (_StreamingHelper.__init__ Scenarios.fresh_helper 7
                   Scenarios.accepting_sink)
              Scenarios.meter_events)) in
  __post_init__ config = Ok tt
  /\ _ResamplingHelper.__init__ "meter" config = Ok Scenarios.fresh_helper
  /\ (1 <= maxlen (_ResamplingHelper._buffer h) <= max_buffer_len config)%Z.
Proof.
  intros config h.
  assert (H1 : __post_init__ config = Ok tt) by reflexivity.
  assert (H2 : _ResamplingHelper.__init__ "meter" config
               = Ok Scenarios.fresh_helper) by reflexivity.
  split; [exact H1|]. split; [exact H2|].
  exact (proj2 (buffer_stays_bounded config "meter" 7 Scenarios.accepting_sink
                  Scenarios.fresh_helper Scenarios.meter_events H1 H2)).
Defined.

(** X24.  On a buffer in the order of the timestamps, the samples that
    [resample] takes for relevant are those of the buffer with a
    timestamp after [timestamp - period * max_data_age_in_periods] and
    not after [timestamp], where the period is the resampling period or,
    once it is known, the greater of it and the input period. *)
Theorem relevant_samples_window (h : _ResamplingHelper.state) (t : Q)
    (s : Sample) :
  sorted_by_timestamp (items (_ResamplingHelper._buffer h)) ->
  let conf := _ResamplingHelper._config h in
  let period :=
    match sampling_period_s (_ResamplingHelper._source_properties h) with
    | Some input_period => Qmax (resampling_period_s conf) input_period
    | None => resampling_period_s conf
    end in
  s ∈ _ResamplingHelper.relevant_samples h t
  <-> s ∈ items (_ResamplingHelper._buffer h)
      /\ (t - period * max_data_age_in_periods conf < timestamp s)%Q
      /\ (timestamp s <= t)%Q.
Proof.
  intros Hsorted conf period.
  unfold _ResamplingHelper.relevant_samples. fold conf.
  rewrite (islice_bisect_sorted _ _ _ _ Hsorted).
  assert (Hperiod :
            (match
               sampling_period_s (_ResamplingHelper._source_properties h)
             with
             | Some input_period =>
                 if negb (Qle_bool input_period (resampling_period_s conf))
                 then input_period
                 else resampling_period_s conf
             | None => resampling_period_s conf
             end == period)%Q).
  { unfold period.
    destruct (sampling_period_s _) as [ip|]; [|reflexivity].
    destruct (Qle_bool ip (resampling_period_s conf)) eqn:E; simpl.
    - apply Qle_bool_iff in E. symmetry. now apply Q.max_l.
    - apply Qle_bool_false in E. symmetry.
      apply Q.max_r. now apply Qlt_le_weak. }
  rewrite Hperiod. reflexivity.
Qed.

Lemma helper_after_2_sorted :
  sorted_by_timestamp
    (items (_ResamplingHelper._buffer Scenarios.helper_after_2)).
Proof.
  intros i j si sj Hij Hi Hj.
  destruct i as [|[|i]]; destruct j as [|[|j]]; simpl in Hi, Hj;
    try discriminate; try lia;
    inversion Hi; inversion Hj; subst; simpl; unfold Qle; simpl; lia.
Qed.

Lemma relevant_samples_window_witness :
  let h := Scenarios.helper_after_2 in
  sorted_by_timestamp (items (_ResamplingHelper._buffer h))
  /\ _ResamplingHelper.relevant_samples h 106 = [ Scenarios.sample 101 7 ]
  /\ (Scenarios.sample 100 5 ∈ _ResamplingHelper.relevant_samples h 106
      <-> Scenarios.sample 100 5 ∈ items (_ResamplingHelper._buffer h)
          /\ (106 - 2 * 3 < 100)%Q /\ (100 <= 106)%Q).
Proof.
  intro h. split; [exact helper_after_2_sorted|].
  split; [vm_compute; reflexivity|].
  exact (relevant_samples_window h 106 (Scenarios.sample 100 5)
           helper_after_2_sorted).
Defined.

End HelperInvariants.

(** ** The average, and timeseries in good order *)

Section GoodOrder.
Import Resampling.
Import Pipeline.

Lemma omap_value_none (samples : list Sample) :
  Forall (fun s => value s = None) samples -> omap value samples = [].
Proof.
  induction 1 as [|s samples Hs _ IH]; [reflexivity|].
  cbn [omap list_omap]. rewrite Hs. exact IH.
Qed.

Lemma omap_value_filter (samples : list Sample) :
  omap value
    (List.filter
       (fun s => match value s with Some _ => true | None => false end)
       samples)
  = omap value samples.
Proof.
  induction samples as [|s samples IH]; [reflexivity|].
  cbn [List.filter omap list_omap].
  destruct (value s) as [v|] eqn:Ev; [|exact IH].
  cbn [omap list_omap]. rewrite Ev. f_equal. exact IH.
Qed.

Lemma fold_fadd_NaN (values : list pyfloat) :
  fold_left fadd values NaN = NaN.
Proof. induction values as [|v values IH]; [reflexivity|exact IH]. Qed.

Lemma fold_fadd_with_NaN (values : list pyfloat) (start : pyfloat) :
  NaN ∈ values -> fold_left fadd values start = NaN.
Proof.
  revert start. induction values as [|v values IH]; intros start Hin.
  - inversion Hin.
  - cbn [fold_left]. apply elem_of_cons in Hin as [<-|Hin]; [|now apply IH].
    replace (fadd start NaN) with NaN by now destruct start.
    apply fold_fadd_NaN.
Qed.

(** X25.  [average] on its own: it fails its assertion on an empty list
    of samples, and on samples none of which has a value it divides by
    zero; as soon as a sample has a value it returns a float, the samples
    without a value make no difference to it, and it is [NaN] if one of
    the values is. *)
Theorem average_cases (samples : list Sample) (config : ConfigValues)
    (props : SourceProperties) :
  (samples = [] -> average samples config props = Raise AssertionError)
  /\ (samples <> [] ->
      Forall (fun s => value s = None) samples ->
      average samples config props = Raise ZeroDivisionError)
  /\ (Exists (fun s => value s <> None) samples ->
      (exists result, average samples config props = Ok result)
      /\ average samples config props
         = average
             (List.filter
                (fun s =>
                   match value s with Some _ => true | None => false end)
                samples)
             config props)
  /\ (Exists (fun s => value s = Some NaN) samples ->
      average samples config props = Ok NaN).
Proof.
  assert (Hvalued : forall P : pyfloat -> Prop,
             Exists (fun s => exists v, value s = Some v /\ P v) samples ->
             (0 < length samples)%nat
             /\ (0 < length (omap value samples))%nat
             /\ exists v, v ∈ omap value samples /\ P v).
  { intros P (s & Hs & v & Ev & Hv)%Exists_exists.
    assert (Hin : v ∈ omap value samples)
      by (apply list_elem_of_omap; exists s; split; [exact Hs|exact Ev]).
    split; [destruct samples; [inversion Hs|simpl; lia]|].
    split; [destruct (omap value samples); [inversion Hin|simpl; lia]|].
    eauto. }
  unfold average. split; [|split; [|split]].
  - intros ->. reflexivity.
  - intros Hne Hnone. destruct samples as [|s samples]; [congruence|].
    cbn [length Nat.ltb Nat.leb]. rewrite (omap_value_none _ Hnone).
    reflexivity.
  - intros Hsome.
    destruct (Hvalued (fun _ => True)) as (Hsamples & Hlen & _).
    { eapply List.Exists_impl; [|exact Hsome]. intros s Hs.
      simpl in Hs. destruct (value s) as [v|]; [eauto|congruence]. }
    rewrite omap_value_filter.
    set (valued := fun s : Sample =>
                     match value s with Some _ => true | None => false end).
    assert (Hfiltered : (0 < length (List.filter valued samples))%nat).
    { apply Exists_exists in Hsome as (s & Hs & Hv).
      assert (Hin : In s (List.filter valued samples)).
      { apply filter_In. split; [now apply list_elem_of_In|].
        unfold valued. destruct (value s); [reflexivity|congruence]. }
      destruct (List.filter valued samples); [destruct Hin|simpl; lia]. }
    destruct (Nat.ltb_spec 0 (length samples)); [|lia].
    destruct (Nat.ltb_spec 0 (length (List.filter valued samples))); [|lia].
    split; [|reflexivity]. unfold fdiv_int.
    destruct (Z.eqb_spec (Z.of_nat (length (omap value samples))) 0); [lia|].
    destruct (py_sum (omap value samples)); eauto.
  - intros Hnan.
    destruct (Hvalued (fun v => v = NaN)) as (Hsamples & Hlen & v & Hin & ->).
    { eapply List.Exists_impl; [|exact Hnan]. intros s Hs.
      exists NaN. split; [exact Hs|reflexivity]. }
    destruct (Nat.ltb_spec 0 (length samples)); [|lia].
    unfold py_sum, fdiv_int. rewrite (fold_fadd_with_NaN _ _ Hin).
    destruct (Z.eqb_spec (Z.of_nat (length (omap value samples))) 0); [lia|].
    reflexivity.
Qed.








End GoodOrder.

(** ** The samples that the buffer keeps *)

Section RingBuffer.
Import Resampling.

Lemma fold_add_sample (samples : list Sample) (h : _ResamplingHelper.state) :
  let h' := fold_left _ResamplingHelper.add_sample samples h in
  _ResamplingHelper._buffer h'
  = fold_left append samples (_ResamplingHelper._buffer h)
  /\ _ResamplingHelper._config h' = _ResamplingHelper._config h
  /\ received_samples (_ResamplingHelper._source_properties h')
     = (received_samples (_ResamplingHelper._source_properties h)
        + Z.of_nat (length samples))%Z
  /\ sampling_start (_ResamplingHelper._source_properties h')
     = match sampling_start (_ResamplingHelper._source_properties h) with
       | Some start => Some start
       | None => option_map timestamp (head samples)
       end
  /\ sampling_period_s (_ResamplingHelper._source_properties h')
     = sampling_period_s (_ResamplingHelper._source_properties h).
Proof.
  revert h. induction samples as [|x samples IH]; intro h.
  - simpl. repeat split; [lia|].
    now destruct (sampling_start (_ResamplingHelper._source_properties h)).
  - cbn [fold_left]. destruct (IH (_ResamplingHelper.add_sample h x))
      as (Hb & Hc & Hr & Hs & Hp).
    split; [exact Hb|]. split; [exact Hc|]. split; [|split].
    + rewrite Hr. simpl. lia.
    + rewrite Hs. simpl.
      now destruct (sampling_start (_ResamplingHelper._source_properties h)).
    + exact Hp.
Qed.

(** X27.  The buffer is a ring: after any number of calls of
    [add_sample] it holds the newest samples, as many as its length
    allows and in the order of arrival; every sample has been counted,
    and the start of the sampling is the timestamp of the first sample
    that ever arrived. *)
Theorem add_samples_keep_newest (h : _ResamplingHelper.state)
    (samples : list Sample) :
  (0 <= maxlen (_ResamplingHelper._buffer h))%Z ->
  (Z.of_nat (length (items (_ResamplingHelper._buffer h)))
   <= maxlen (_ResamplingHelper._buffer h))%Z ->
  let h' := fold_left _ResamplingHelper.add_sample samples h in
  items (_ResamplingHelper._buffer h')
  = _ResamplingHelper.newest (maxlen (_ResamplingHelper._buffer h))
      (items (_ResamplingHelper._buffer h) ++ samples)
  /\ maxlen (_ResamplingHelper._buffer h')
     = maxlen (_ResamplingHelper._buffer h)
  /\ received_samples (_ResamplingHelper._source_properties h')
     = (received_samples (_ResamplingHelper._source_properties h)
        + Z.of_nat (length samples))%Z
  /\ sampling_start (_ResamplingHelper._source_properties h')
     = match sampling_start (_ResamplingHelper._source_properties h) with
       | Some start => Some start
       | None => option_map timestamp (head samples)
       end.
Proof.
  intros Hn Hlen.
  destruct (fold_add_sample samples h) as (Hb & _ & Hr & Hs & _).
  cbv zeta. rewrite Hb, (fold_append samples _ Hn Hlen). simpl.
  repeat split; assumption.
Qed.

Lemma add_samples_keep_newest_witness :
  let h := Scenarios.fresh_helper in
  let samples :=
    map (fun k => Scenarios.sample (2 * Z.of_nat k) 7) (seq 0 20) in
  let h' := fold_left _ResamplingHelper.add_sample samples h in
  (0 <= maxlen (_ResamplingHelper._buffer h))%Z
  /\ map timestamp (items (_ResamplingHelper._buffer h'))
     = map (fun k => inject_Z (2 * Z.of_nat k)) (seq 4 16)
  /\ received_samples (_ResamplingHelper._source_properties h') = 20%Z
  /\ sampling_start (_ResamplingHelper._source_properties h') = Some 0%Q.
Proof.
  intros h samples h'.
  assert (H1 : (0 <= maxlen (_ResamplingHelper._buffer h))%Z)
    by (simpl; lia).
  assert (H2 : (Z.of_nat (length (items (_ResamplingHelper._buffer h)))
                <= maxlen (_ResamplingHelper._buffer h))%Z)
    by (simpl; lia).
  destruct (add_samples_keep_newest h samples H1 H2) as (_ & _ & Hr & Hs).
  split; [exact H1|]. split; [vm_compute; reflexivity|].
  split; [exact Hr|exact Hs].
Defined.

End RingBuffer.
